(** * Credit metering of the AI service: a shallow embedding

    The development follows the Python sources of [ai-service]:
    [config/settings.py], [models/schemas.py],
    [services/firestore_service.py], [utils/credits.py],
    [services/stability_service.py], [services/langraph_agent.py],
    [middleware/rate_limit.py], [api/chat.py] and [api/generate.py].

    Firestore collections are finite maps from document ids to documents,
    documents are finite maps from field names to Python values, and the
    two collections written with [add] (auto-generated ids) are kept as
    lists in insertion order.  Every operation takes the store it reads and
    returns the store it leaves behind. *)

From Stdlib Require Import ZArith QArith Lia Lqa Ascii.
From stdpp Require Import gmap strings list pretty.

Local Open Scope Z_scope.

(** ** Python values stored in documents *)

Inductive value : Type :=
| VInt (n : Z)
| VBool (b : bool)
| VStr (s : string)
| VNone
| VTime (t : Z)            (* datetime, microseconds since the epoch *)
| VList (l : list string).

(** Python [bool] is a subclass of [int]: arithmetic and comparison accept
    it.  Every other kind raises [TypeError] against an [int]. *)
Definition as_int (v : value) : option Z :=
  match v with
  | VInt n => Some n
  | VBool b => Some (if b then 1 else 0)
  | _ => None
  end.

Abbreviation document := (gmap string value).

(** [dict.get(key, default)] *)
Definition dict_get (d : document) (key : string) (dflt : value) : value :=
  match d !! key with
  | Some v => v
  | None => dflt
  end.

(** [dict.update] as used by [DocumentReference.update]: later writes win. *)
Fixpoint update_fields (ws : list (string * value)) (d : document) : document :=
  match ws with
  | [] => d
  | (k, v) :: ws' => update_fields ws' (<[k := v]> d)
  end.

(** ** [str.capitalize] and [str.split] on ASCII text *)

Definition is_lower (c : ascii) : bool :=
  let n := N_of_ascii c in ((97 <=? n) && (n <=? 122))%N.

Definition is_upper (c : ascii) : bool :=
  let n := N_of_ascii c in ((65 <=? n) && (n <=? 90))%N.

Definition to_upper (c : ascii) : ascii :=
  if is_lower c then ascii_of_N (N_of_ascii c - 32) else c.

Definition to_lower (c : ascii) : ascii :=
  if is_upper c then ascii_of_N (N_of_ascii c + 32) else c.

Fixpoint lower (s : string) : string :=
  match s with
  | EmptyString => EmptyString
  | String c r => String (to_lower c) (lower r)
  end.

Definition capitalize (s : string) : string :=
  match s with
  | EmptyString => EmptyString
  | String c r => String (to_upper c) (lower r)
  end.

(** Whitespace of [str.split()]: TAB..CR, FS..US and the space. *)
Definition is_space (c : ascii) : bool :=
  let n := N_of_ascii c in
  (((9 <=? n) && (n <=? 13)) || ((28 <=? n) && (n <=? 32)))%N.

(** [len(s.split())]: the number of maximal runs of non-blank characters.
    [inword] tells whether the previous character belonged to a word. *)
Fixpoint count_words (inword : bool) (s : string) : Z :=
  match s with
  | EmptyString => 0
  | String c r =>
      if is_space c then count_words false r
      else (if inword then 0 else 1) + count_words true r
  end.

(** ** [config/settings.py] *)

Record Settings := mkSettings {
  rate_limit_per_minute : Z;
  chat_credit_cost : Z;
  image_generation_cost : Z;
  music_generation_cost : Z;
  free_chat_credits_monthly : Z;
  free_gen_ai_credits_monthly : Z
}.

(** The defaults of class [Settings]. *)
Definition default_settings : Settings := {|
  rate_limit_per_minute := 5;
  chat_credit_cost := 1;
  image_generation_cost := 1;
  music_generation_cost := 2;
  free_chat_credits_monthly := 25;
  free_gen_ai_credits_monthly := 25
|}.

(** ** [models/schemas.py] *)

Inductive MediaType := IMAGE | MUSIC | ALBUM_ART.

Inductive GenerationStatus := PENDING | PROCESSING | COMPLETED | FAILED.

Record UserCredits := mkUserCredits {
  uc_user_id : string;
  chat_credits : Z;
  gen_ai_credits : Z;
  last_reset : Z;
  subscription_tier : string
}.

Record AgentPersonality := mkAgentPersonality {
  ap_agent_id : string;
  ap_name : string;
  personality_rules : list string;
  gen_rules : option (list string);
  is_public : bool;
  owner_id : string
}.

(** Field validation of the pydantic models.  A stored value of the wrong
    kind makes the constructor raise; the lax coercions of pydantic
    (numeric strings, numbers as dates) are not modelled and count as
    errors, and the store never holds such values in a field this service
    wrote. *)
Definition validate_credits (v : value) : option Z :=
  match as_int v with
  | Some n => if 0 <=? n then Some n else None     (* Field(ge=0) *)
  | None => None
  end.

Definition validate_datetime (v : value) : option Z :=
  match v with VTime t => Some t | _ => None end.

Definition validate_str (v : value) : option string :=
  match v with VStr s => Some s | _ => None end.

Definition validate_bool (v : value) : option bool :=
  match v with
  | VBool b => Some b
  | VInt 0 => Some false
  | VInt 1 => Some true
  | _ => None
  end.

Definition validate_str_list (v : value) : option (list string) :=
  match v with VList l => Some l | _ => None end.

(** [Optional[List[str]]] *)
Definition validate_opt_str_list (v : value) : option (option (list string)) :=
  match v with
  | VList l => Some (Some l)
  | VNone => Some None
  | _ => None
  end.

(** ** The store *)

(** An entry of the [ai_interactions] collection ([log_ai_interaction]);
    the free-form [metadata] dictionary is left out. *)
Record Interaction := mkInteraction {
  ia_userId : string;
  ia_agentId : string;
  ia_type : string;
  ia_tokensUsed : Z;
  ia_creditsUsed : Z;
  ia_timestamp : Z
}.

(** An entry of the [credit_transactions] collection. *)
Record CreditTransaction := mkCreditTransaction {
  ct_userId : string;
  ct_creditType : string;
  ct_amount : Z;
  ct_type : string;           (* "add", "deduct", "reset" *)
  ct_reason : string;
  ct_timestamp : Z
}.

Record db := mkDb {
  users : gmap string document;
  ai_agents : gmap string document;
  ai_interactions : list Interaction;
  credit_transactions : list CreditTransaction
}.

Definition set_users (f : gmap string document → gmap string document) (d : db) : db :=
  {| users := f (users d);
     ai_agents := ai_agents d;
     ai_interactions := ai_interactions d;
     credit_transactions := credit_transactions d |}.

(** ** [services/firestore_service.py] *)

Module FirestoreService.

(** [get_user_credits].  [now] is the clock read by the default of
    [lastCreditReset].  [None] is returned for a missing document and for
    any exception, a validation error of [UserCredits] included. *)
Definition get_user_credits (s : Settings) (now : Z) (d : db) (user_id : string)
  : option UserCredits :=
  match users d !! user_id with
  | None => None
  | Some data =>
      match validate_credits (dict_get data "chatCredits" (VInt (free_chat_credits_monthly s))),
            validate_credits (dict_get data "genAICredits" (VInt (free_gen_ai_credits_monthly s))),
            validate_datetime (dict_get data "lastCreditReset" (VTime now)),
            validate_str (dict_get data "subscriptionTier" (VStr "free")) with
      | Some c, Some g, Some r, Some t =>
          Some {| uc_user_id := user_id; chat_credits := c; gen_ai_credits := g;
                  last_reset := r; subscription_tier := t |}
      | _, _, _, _ => None
      end
  end.

Definition field_name (credit_type : string) : string :=
  if bool_decide (credit_type = "chat") then "chatCredits" else "genAICredits".

(** What the body of a transaction hands back: the value it returns and the
    writes it buffered with [transaction.update], or an exception. *)
Inductive txn_result :=
| TxnReturn (ret : bool * Z) (writes : list (string * value))
| TxnRaise.

(** The function [update_credits] nested in [deduct_credits], applied to
    the snapshot [doc] read by [doc_ref.get(transaction=transaction)]. *)
Definition update_credits (credit_type : string) (amount : Z) (now : Z)
    (doc : option document) : txn_result :=
  match doc with
  | None => TxnReturn (false, 0) []
  | Some data =>
      match as_int (dict_get data (field_name credit_type) (VInt 0)) with
      | None => TxnRaise                       (* TypeError on [<] *)
      | Some current_credits =>
          if current_credits <? amount then TxnReturn (false, current_credits) []
          else
            let new_credits := current_credits - amount in
            TxnReturn (true, new_credits)
              [(field_name credit_type, VInt new_credits);
               ("last" +:+ capitalize credit_type +:+ "CreditUsed", VTime now)]
      end
  end.

(** The commit of a transaction: the buffered writes are merged into the
    user's document; a transaction without writes leaves the store as it
    is. *)
Definition commit_writes (user_id : string) (writes : list (string * value)) (d : db) : db :=
  match writes with
  | [] => d
  | _ => set_users (alter (update_fields writes) user_id) d
  end.

(** [deduct_credits]: the transaction runs in isolation and commits its
    writes in one step; any exception is turned into [(False, 0)]. *)
Definition deduct_credits (now : Z) (d : db) (user_id credit_type : string) (amount : Z)
  : (bool * Z) * db :=
  match update_credits credit_type amount now (users d !! user_id) with
  | TxnRaise => ((false, 0), d)
  | TxnReturn ret writes => (ret, commit_writes user_id writes d)
  end.

(** [get_agent_personality]; [None] for a missing document and for a
    validation error of [AgentPersonality]. *)
Definition get_agent_personality (now : Z) (d : db) (agent_id : string)
  : option AgentPersonality :=
  match ai_agents d !! agent_id with
  | None => None
  | Some data =>
      match validate_str (dict_get data "name" (VStr "Unknown Agent")),
            validate_str_list (dict_get data "personalityRules" (VList [])),
            validate_opt_str_list (dict_get data "genRules" (VList [])),
            validate_bool (dict_get data "isPublic" (VBool false)),
            validate_str (dict_get data "ownerId" (VStr "")),
            validate_datetime (dict_get data "createdAt" (VTime now)),
            validate_datetime (dict_get data "updatedAt" (VTime now)) with
      | Some n, Some pr, Some gr, Some pub, Some own, Some _, Some _ =>
          Some {| ap_agent_id := agent_id; ap_name := n; personality_rules := pr;
                  gen_rules := gr; is_public := pub; owner_id := own |}
      | _, _, _, _, _, _, _ => None
      end
  end.

(** [agent_id in agent_team]: membership in a list, substring test on a
    string, [TypeError] (reported as [None]) on anything else. *)
Definition py_in (agent_id : string) (agent_team : value) : option bool :=
  match agent_team with
  | VList l => Some (bool_decide (agent_id ∈ l))
  | VStr s => Some (match String.index 0 agent_id s with Some _ => true | None => false end)
  | _ => None
  end.

(** [check_user_agent_access]: an ordered disjunction, [False] on any
    exception. *)
Definition check_user_agent_access (now : Z) (d : db) (user_id agent_id : string) : bool :=
  match get_agent_personality now d agent_id with
  | None => false
  | Some agent =>
      if is_public agent then true
      else if bool_decide (owner_id agent = user_id) then true
      else
        match users d !! user_id with
        | Some user_data =>
            match py_in agent_id (dict_get user_data "aiAgentTeam" (VList [])) with
            | Some b => b
            | None => false
            end
        | None => false
        end
  end.

(** [log_ai_interaction]: one document added to [ai_interactions]. *)
Definition log_ai_interaction (now : Z) (d : db) (user_id agent_id interaction_type : string)
    (tokens_used credits_used : Z) : db :=
  {| users := users d;
     ai_agents := ai_agents d;
     ai_interactions :=
       ai_interactions d ++
       [ {| ia_userId := user_id; ia_agentId := agent_id; ia_type := interaction_type;
            ia_tokensUsed := tokens_used; ia_creditsUsed := credits_used;
            ia_timestamp := now |} ];
     credit_transactions := credit_transactions d |}.

End FirestoreService.

(** ** [utils/credits.py] *)

Module CreditManager.

(** [timedelta.days] of [now - last_reset]: whole days, rounded down. *)
Definition microseconds_per_day : Z := 86400 * 1000000.

Definition days_between (now last : Z) : Z := (now - last) / microseconds_per_day.

(** The allotment chosen in [reset_monthly_credits]: the free settings,
    overridden for the tiers "premium" and "pro". *)
Definition tier_allotment (s : Settings) (tier : string) : Z * Z :=
  if bool_decide (tier = "premium"%string) then (100, 50)
  else if bool_decide (tier = "pro"%string) then (500, 200)
  else (free_chat_credits_monthly s, free_gen_ai_credits_monthly s).

(** [reset_monthly_credits] *)
Definition reset_monthly_credits (s : Settings) (now : Z) (d : db) (user_id : string)
  : bool * db :=
  match FirestoreService.get_user_credits s now d user_id with
  | None => (false, d)
  | Some user_credits =>
      if 30 <=? days_between now (last_reset user_credits) then
        let '(new_chat_credits, new_gen_credits) :=
          tier_allotment s (subscription_tier user_credits) in
        (true,
         set_users (alter (update_fields [("chatCredits"%string, VInt new_chat_credits);
                                          ("genAICredits"%string, VInt new_gen_credits);
                                          ("lastCreditReset"%string, VTime now)]) user_id) d)
      else (false, d)
  end.

(** [_log_credit_transaction]: one document added to
    [credit_transactions]. *)
Definition _log_credit_transaction (now : Z) (d : db) (user_id credit_type : string)
    (amount : Z) (transaction_type reason : string) : db :=
  {| users := users d;
     ai_agents := ai_agents d;
     ai_interactions := ai_interactions d;
     credit_transactions :=
       credit_transactions d ++
       [ {| ct_userId := user_id; ct_creditType := credit_type; ct_amount := amount;
            ct_type := transaction_type; ct_reason := reason; ct_timestamp := now |} ] |}.

(** [add_credits]: read, add, write back, log.  [current + amount] raises
    on a stored value that is not a number, and the function then returns
    [False] without a write. *)
Definition add_credits (now : Z) (d : db) (user_id credit_type : string) (amount : Z)
    (reason : string) : bool * db :=
  match users d !! user_id with
  | None => (false, d)
  | Some data =>
      match as_int (dict_get data (FirestoreService.field_name credit_type) (VInt 0)) with
      | None => (false, d)
      | Some current_credits =>
          let new_credits := current_credits + amount in
          let d1 :=
            set_users (alter (update_fields
              [(FirestoreService.field_name credit_type, VInt new_credits);
               ("last" +:+ capitalize credit_type +:+ "CreditAdded", VTime now)]) user_id) d in
          (true, _log_credit_transaction now d1 user_id credit_type amount "add" reason)
      end
  end.

End CreditManager.

(** ** [services/stability_service.py] *)

Module StabilityService.

(** The JSON body posted to the generation API, and what comes back once
    the artifact is stored: the public URL, or an error. *)
Record ApiRequest := mkApiRequest {
  rq_endpoint : string;
  rq_prompt : string;
  rq_width : option Z;
  rq_height : option Z;
  rq_duration : option Z;
  rq_style : option string
}.

Inductive ApiReply :=
| ApiOk (media_url : string)
| ApiFailed (message : string).

(** Truthiness of an [Optional[str]]. *)
Definition style_given (style : option string) : option string :=
  match style with
  | Some EmptyString => None
  | other => other
  end.

Definition generate_image (api : ApiRequest → ApiReply) (prompt : string)
    (style : option string) (width height : Z) : ApiReply :=
  api {| rq_endpoint := "text-to-image"; rq_prompt := prompt;
         rq_width := Some width; rq_height := Some height;
         rq_duration := None; rq_style := style_given style |}.

(** The request body built by [generate_music]: the duration is capped at
    three minutes. *)
Definition music_request_data (prompt : string) (duration : Z) (style : option string)
  : ApiRequest :=
  let duration := Z.min duration 180 in
  {| rq_endpoint := "text-to-audio"; rq_prompt := prompt;
     rq_width := None; rq_height := None;
     rq_duration := Some duration; rq_style := style_given style |}.

Definition generate_music (api : ApiRequest → ApiReply) (prompt : string)
    (duration : Z) (style : option string) : ApiReply :=
  api (music_request_data prompt duration style).

Definition generate_album_art (api : ApiRequest → ApiReply) (prompt : string) : ApiReply :=
  generate_image api ("Album cover art: " +:+ prompt) (Some "photographic"%string) 512 512.

(** [get_generation_cost]; the final [else] of the source cannot be reached
    with a member of [MediaType]. *)
Definition get_generation_cost (s : Settings) (media_type : MediaType)
    (duration : option Z) : Z :=
  match media_type with
  | IMAGE => image_generation_cost s
  | MUSIC => music_generation_cost s
  | ALBUM_ART => image_generation_cost s
  end.

End StabilityService.

(** ** [middleware/rate_limit.py] *)

Module RateLimitMiddleware.

(** [while user_queue and user_queue[0] < window_start: popleft()] *)
Fixpoint clean_old (window_start : Q) (user_queue : list Q) : list Q :=
  match user_queue with
  | [] => []
  | t :: rest =>
      if Qle_bool window_start t then user_queue     (* not [t < window_start] *)
      else clean_old window_start rest
  end.

(** [_check_rate_limit].  [user_requests] is a [defaultdict(deque)]: looking
    a user up creates the empty queue, and the queue is changed in place.
    [current_time] is [time.time()], in seconds. *)
Definition _check_rate_limit (s : Settings) (current_time : Q)
    (user_requests : gmap string (list Q)) (user_id : string)
  : (bool * Z) * gmap string (list Q) :=
  let window_start := (current_time - 60)%Q in
  let user_queue := clean_old window_start (default [] (user_requests !! user_id)) in
  let request_count := Z.of_nat (length user_queue) in
  if rate_limit_per_minute s <=? request_count then
    ((false, 0), <[user_id := user_queue]> user_requests)
  else
    let user_queue := user_queue ++ [current_time] in
    let remaining := rate_limit_per_minute s - Z.of_nat (length user_queue) in
    ((true, remaining), <[user_id := user_queue]> user_requests).

End RateLimitMiddleware.

(** ** [services/langraph_agent.py] *)

Module LangGraphAgent.

(** What [llm_client.generate_sync] does: it returns the text or raises. *)
Inductive LlmReply :=
| LlmOk (response : string)
| LlmError (message : string).

(** The keys of the metadata dictionary that callers read. *)
Record Metadata := mkMetadata {
  md_tokens_used : option Z;
  md_error : option string
}.

(** [LangGraphAgent.call].  An exception of the model is recorded in the
    graph state by [process_message], raised again by [call] and caught by
    its own [except]: the caller gets an apology and metadata without
    [tokens_used], never an exception. *)
Definition call (llm : AgentPersonality → string → LlmReply)
    (personality : AgentPersonality) (message : string) : string * Metadata :=
  match llm personality message with
  | LlmOk response =>
      (response,
       {| md_tokens_used := Some (count_words false response); md_error := None |})
  | LlmError e =>
      ("I apologize, but I encountered an error processing your request."%string,
       {| md_tokens_used := None; md_error := Some e |})
  end.

End LangGraphAgent.

(** ** Request handlers: a state and exception monad with a call trace *)

(** The calls a handler makes on its collaborators, in the order made. *)
Inductive event :=
| EvRateLimit
| EvIdentity
| EvGetUserCredits (user_id : string)
| EvCheckAccess (user_id agent_id : string)
| EvGetAgent (agent_id : string)
| EvProvider
| EvDeduct (user_id credit_type : string) (amount : Z)
| EvLogInteraction (user_id : string).

Record world := mkWorld {
  w_db : db;
  w_trace : list event
}.

Inductive outcome (A : Type) :=
| Ok (a : A)
| HTTPException (status_code : Z) (detail : string).
Arguments Ok {A} a.
Arguments HTTPException {A} status_code detail.

Definition M (A : Type) : Type := world → outcome A * world.

Definition ret {A} (a : A) : M A := fun w => (Ok a, w).

Definition bind {A B} (m : M A) (k : A → M B) : M B :=
  fun w =>
    match m w with
    | (Ok a, w') => k a w'
    | (HTTPException c d, w') => (HTTPException c d, w')
    end.

Definition raise {A} (status_code : Z) (detail : string) : M A :=
  fun w => (HTTPException status_code detail, w).

Definition emit (e : event) : M unit :=
  fun w => (Ok tt, {| w_db := w_db w; w_trace := w_trace w ++ [e] |}).

Definition read_db {A} (f : db → A) : M A := fun w => (Ok (f (w_db w)), w).

Definition update_db {A} (f : db → A * db) : M A :=
  fun w => let '(a, d) := f (w_db w) in (Ok a, {| w_db := d; w_trace := w_trace w |}).

Notation "'do' x <- m ; k" := (bind m (fun x => k))
  (at level 10, x pattern, m at level 100, k at level 200, only parsing).

(** What a handler is given besides the request: the configuration, the
    clock, the verdict of the slowapi limiter, and the two providers. *)
Record Env := mkEnv {
  settings : Settings;
  now : Z;
  limiter_allows : bool;
  llm : AgentPersonality → string → LangGraphAgent.LlmReply;
  stability_api : StabilityService.ApiRequest → StabilityService.ApiReply;
  request_uuid : string
}.

Section Handlers.

Variable env : Env.

Definition firestore_get_user_credits (user_id : string) : M (option UserCredits) :=
  do _ <- emit (EvGetUserCredits user_id) ;
  read_db (fun d => FirestoreService.get_user_credits (settings env) (now env) d user_id).

Definition firestore_check_user_agent_access (user_id agent_id : string) : M bool :=
  do _ <- emit (EvCheckAccess user_id agent_id) ;
  read_db (fun d => FirestoreService.check_user_agent_access (now env) d user_id agent_id).

Definition firestore_get_agent_personality (agent_id : string) : M (option AgentPersonality) :=
  do _ <- emit (EvGetAgent agent_id) ;
  read_db (fun d => FirestoreService.get_agent_personality (now env) d agent_id).

Definition firestore_deduct_credits (user_id credit_type : string) (amount : Z)
  : M (bool * Z) :=
  do _ <- emit (EvDeduct user_id credit_type amount) ;
  update_db (fun d => FirestoreService.deduct_credits (now env) d user_id credit_type amount).

Definition firestore_log_ai_interaction (user_id agent_id interaction_type : string)
    (tokens_used credits_used : Z) : M unit :=
  do _ <- emit (EvLogInteraction user_id) ;
  update_db (fun d =>
    (tt, FirestoreService.log_ai_interaction (now env) d user_id agent_id interaction_type
           tokens_used credits_used)).

(** *** [api/chat.py] *)

Record ChatRequest := mkChatRequest {
  cr_user_id : string;
  cr_agent_id : string;
  cr_message : string
}.

Record ChatResponse := mkChatResponse {
  resp_message : string;
  resp_agent_id : string;
  resp_tokens_used : Z;
  resp_credits_remaining : Z
}.

(** The body of [chat_call].  Its clause [except Exception] (status 500)
    is not reached: none of the operations called here raises anything but
    the [HTTPException]s below. *)
Definition chat_call (chat_request : ChatRequest) (current_user : string) : M ChatResponse :=
  do _ <- emit EvIdentity ;
  if bool_decide (cr_user_id chat_request ≠ current_user) then
    raise 403 "User ID mismatch"
  else
  do user_credits <- firestore_get_user_credits (cr_user_id chat_request) ;
  match user_credits with
  | None => raise 404 "User not found"
  | Some user_credits =>
  if chat_credits user_credits <? chat_credit_cost (settings env) then
    raise 402 ("Insufficient chat credits. Required: "
               +:+ pretty (chat_credit_cost (settings env))
               +:+ ", Available: " +:+ pretty (chat_credits user_credits))
  else
  do has_access <- firestore_check_user_agent_access
                     (cr_user_id chat_request) (cr_agent_id chat_request) ;
  if negb has_access then raise 403 "Access denied to this AI agent"
  else
  do agent_personality <- firestore_get_agent_personality (cr_agent_id chat_request) ;
  match agent_personality with
  | None => raise 404 "AI agent not found"
  | Some agent_personality =>
  do _ <- emit EvProvider ;
  let '(response_text, metadata) :=
    LangGraphAgent.call (llm env) agent_personality (cr_message chat_request) in
  do (success, remaining_credits) <-
    firestore_deduct_credits (cr_user_id chat_request) "chat"
      (chat_credit_cost (settings env)) ;
  if negb success then raise 402 "Failed to deduct credits"
  else
  let tokens_used := default 0 (LangGraphAgent.md_tokens_used metadata) in
  do _ <- firestore_log_ai_interaction (cr_user_id chat_request) (cr_agent_id chat_request)
            "chat" tokens_used (chat_credit_cost (settings env)) ;
  ret {| resp_message := response_text;
         resp_agent_id := cr_agent_id chat_request;
         resp_tokens_used := tokens_used;
         resp_credits_remaining := remaining_credits |}
  end
  end.

(** [@rate_limit_check(5)]: the slowapi limiter runs before the body and
    answers 429 when it refuses the request. *)
Definition rate_limit_check {A} (handler : M A) : M A :=
  do _ <- emit EvRateLimit ;
  if limiter_allows env then handler
  else raise 429 "Rate limit exceeded".

(** The endpoint [POST /api/v1/chat-call]. *)
Definition chat_endpoint (chat_request : ChatRequest) (current_user : string)
  : M ChatResponse :=
  rate_limit_check (chat_call chat_request current_user).

(** *** [api/generate.py] *)

Record GenerateRequest := mkGenerateRequest {
  gr_user_id : string;
  gr_prompt : string;
  gr_media_type : MediaType;
  gr_style : option string;
  gr_duration : option Z
}.

Record GenerateResponse := mkGenerateResponse {
  g_request_id : string;
  g_status : GenerationStatus;
  g_media_url : option string;
  g_media_type : MediaType;
  g_credits_used : Z;
  g_credits_remaining : Z;
  g_error : option string
}.

(** [request.duration or 30] *)
Definition duration_or_30 (duration : option Z) : Z :=
  match duration with
  | None => 30
  | Some 0 => 30
  | Some n => n
  end.

(** The provider call selected by the media type. *)
Definition provider_call (request : GenerateRequest) : StabilityService.ApiReply :=
  match gr_media_type request with
  | IMAGE =>
      StabilityService.generate_image (stability_api env) (gr_prompt request)
        (gr_style request) 1024 1024
  | MUSIC =>
      StabilityService.generate_music (stability_api env) (gr_prompt request)
        (duration_or_30 (gr_duration request)) (gr_style request)
  | ALBUM_ART =>
      StabilityService.generate_album_art (stability_api env) (gr_prompt request)
  end.

(** The body of [generate_content]. *)
Definition generate_content (request : GenerateRequest) (current_user : string)
  : M GenerateResponse :=
  do _ <- emit EvIdentity ;
  if bool_decide (gr_user_id request ≠ current_user) then
    raise 403 "User ID mismatch"
  else
  let credit_cost :=
    StabilityService.get_generation_cost (settings env) (gr_media_type request)
      (gr_duration request) in
  do user_credits <- firestore_get_user_credits (gr_user_id request) ;
  match user_credits with
  | None => raise 404 "User not found"
  | Some user_credits =>
  if gen_ai_credits user_credits <? credit_cost then
    raise 402 ("Insufficient GenAI credits. Required: " +:+ pretty credit_cost
               +:+ ", Available: " +:+ pretty (gen_ai_credits user_credits))
  else
  let request_id := request_uuid env in
  do _ <- emit EvProvider ;
  match provider_call request with
  | StabilityService.ApiOk media_url =>
      do (success, remaining_credits) <-
        firestore_deduct_credits (gr_user_id request) "genai" credit_cost ;
      (* [if not success:] only logs an error *)
      do _ <- firestore_log_ai_interaction (gr_user_id request) "stability-ai" "generation"
                0 credit_cost ;
      ret {| g_request_id := request_id;
             g_status := COMPLETED;
             g_media_url := Some media_url;
             g_media_type := gr_media_type request;
             g_credits_used := credit_cost;
             g_credits_remaining := remaining_credits;
             g_error := None |}
  | StabilityService.ApiFailed e =>
      ret {| g_request_id := request_id;
             g_status := FAILED;
             g_media_url := None;
             g_media_type := gr_media_type request;
             g_credits_used := 0;
             g_credits_remaining := gen_ai_credits user_credits;
             g_error := Some e |}
  end
  end.

End Handlers.

(** Running a handler on a store, with an empty trace. *)
Definition run {A} (m : M A) (d : db) : outcome A * world :=
  m {| w_db := d; w_trace := [] |}.

(** ** Concurrent deductions

    Firestore runs the function given to [@firestore.transactional] against
    a snapshot and commits its writes only if the document was not written
    in between; otherwise the function is run again, up to the number of
    attempts of the transaction.  When the attempts are used up, or the
    function raises, the runner raises, and the clause [except Exception]
    of [deduct_credits] answers [(False, 0)].  Each request below is one
    call [deduct_credits(user_id, credit_type, amount)]; a schedule names,
    step by step, the request that moves next. *)

Module Concurrent.

(** [self.db.transaction()] is created without arguments: the transaction
    has the number of attempts the client library gives by default. *)
Definition default_max_attempts : nat := 5.

Inductive txn_state :=
| TxnPending (attempt : nat)                 (* commits refused so far *)
| TxnRead (snapshot : option document) (read_version : nat) (attempt : nat)
| TxnDone (ret : bool * Z)                   (* the function returned [ret] *)
| TxnFailed.                                 (* the runner raised *)

Record cstate := mkCstate {
  c_db : db;
  c_version : nat;               (* commits that wrote the user's document *)
  c_requests : list txn_state
}.

Definition set_request (i : nat) (t : txn_state) (c : cstate) : cstate :=
  {| c_db := c_db c; c_version := c_version c; c_requests := <[i := t]> (c_requests c) |}.

Section Machine.

Variables (max_attempts : nat) (now : Z) (user_id credit_type : string) (amount : Z).

(** One move of request [i]: begin the next attempt and read, if an attempt
    is left; or run the body on the snapshot and try to commit. *)
Definition step (c : cstate) (i : nat) : cstate :=
  match c_requests c !! i with
  | Some (TxnPending attempt) =>
      if bool_decide (attempt < max_attempts)%nat then
        set_request i (TxnRead (users (c_db c) !! user_id) (c_version c) attempt) c
      else set_request i TxnFailed c
  | Some (TxnRead snapshot read_version attempt) =>
      match FirestoreService.update_credits credit_type amount now snapshot with
      | FirestoreService.TxnRaise => set_request i TxnFailed c
      | FirestoreService.TxnReturn ret writes =>
          if bool_decide (read_version = c_version c) then
            {| c_db := FirestoreService.commit_writes user_id writes (c_db c);
               c_version := match writes with [] => c_version c | _ => S (c_version c) end;
               c_requests := <[i := TxnDone ret]> (c_requests c) |}
          else set_request i (TxnPending (S attempt)) c
      end
  | _ => c
  end.

Definition run_schedule (schedule : list nat) (c : cstate) : cstate :=
  foldl step c schedule.

End Machine.

Definition init (d : db) (n : nat) : cstate :=
  {| c_db := d; c_version := 0; c_requests := replicate n (TxnPending 0) |}.

(** What [deduct_credits] hands to its caller: the value of the
    transactional function, or [(False, 0)] when the runner raised. *)
Definition answer (t : txn_state) : option (bool * Z) :=
  match t with
  | TxnDone ret => Some ret
  | TxnFailed => Some (false, 0)
  | _ => None
  end.

Definition is_done (t : txn_state) : bool :=
  match t with TxnDone _ | TxnFailed => true | _ => false end.

Definition is_success (t : txn_state) : bool :=
  match t with TxnDone (true, _) => true | _ => false end.

(** An insufficient-credits outcome: the function returned
    [(False, current_credits)]. *)
Definition is_insufficient (t : txn_state) : bool :=
  match t with TxnDone (false, _) => true | _ => false end.

(** A request given up by the runner. *)
Definition is_failed (t : txn_state) : bool :=
  match t with TxnFailed => true | _ => false end.

Definition all_done (c : cstate) : bool := forallb is_done (c_requests c).

Definition count_requests (p : txn_state → bool) (requests : list txn_state) : nat :=
  length (List.filter p requests).

Definition count (p : txn_state → bool) (c : cstate) : nat :=
  count_requests p (c_requests c).

(** Each request moves twice in turn: the sequential schedule. *)
Definition sequential (n : nat) : list nat :=
  flat_map (fun i => [i; i]) (seq 0 n).

(** Two requests [i] and [j] read, and then every commit of another
    request in [writers] comes between their read and their attempt to
    commit. *)
Definition contended (i j : nat) (writers : list nat) : list nat :=
  [i; j] ++ flat_map (fun k => [k; k; i; j; i; j]) writers.

(** The document holds the balance [b] for the credit type. *)
Definition holds_balance (credit_type : string) (doc : option document) (b : nat) : Prop :=
  ∃ data, doc = Some data ∧
          data !! FirestoreService.field_name credit_type = Some (VInt (Z.of_nat b)).

(** What holds of a request when the user's document is [current], was
    written [version] times and holds the balance [b]: a request was
    refused at most once per write; a snapshot taken at the current version
    is the current document; the function has returned [False] only once
    the balance was used up; and the runner has given up only after as many
    writes as it has attempts. *)
Definition request_ok (max_attempts : nat) (credit_type : string)
    (current : option document) (version b : nat) (t : txn_state) : Prop :=
  match t with
  | TxnPending attempt => (attempt ≤ version)%nat
  | TxnRead snapshot read_version attempt =>
      (∃ b', holds_balance credit_type snapshot b') ∧
      (read_version ≤ version)%nat ∧
      (read_version = version → snapshot = current) ∧
      (attempt ≤ read_version)%nat
  | TxnDone (success, _) => success = false → b = 0%nat
  | TxnFailed => (max_attempts ≤ version)%nat
  end.

(** What every reachable state satisfies when [N] credits were there at the
    start and every request asks for one: the stored balance and the
    successes so far add up to [N], every success wrote the document once,
    and every request is as [request_ok] says. *)
Definition race_invariant (max_attempts : nat) (user_id credit_type : string) (N : nat)
    (c : cstate) : Prop :=
  ∃ b : nat,
    holds_balance credit_type (users (c_db c) !! user_id) b ∧
    (b + count is_success c = N)%nat ∧
    c_version c = count is_success c ∧
    Forall (request_ok max_attempts credit_type (users (c_db c) !! user_id)
              (c_version c) b) (c_requests c).

(** The state of a contended schedule once [j] writers have committed:
    the two requests that read first, [0] and [last], hold a snapshot of
    the document as the last writer left it, refused [j] times, or are
    given up when no attempt is left; the writers [1..j] have succeeded;
    the other requests have not begun. *)
Definition contended_invariant (max_attempts : nat) (user_id credit_type : string)
    (N last j : nat) (c : cstate) : Prop :=
  holds_balance credit_type (users (c_db c) !! user_id) (N - j) ∧
  c_version c = j ∧
  length (c_requests c) = S last ∧
  (∀ i, i = 0%nat ∨ i = last →
     c_requests c !! i =
       Some (if bool_decide (j < max_attempts)%nat
             then TxnRead (users (c_db c) !! user_id) j j else TxnFailed)) ∧
  (∀ k, (1 ≤ k ≤ j)%nat → ∃ r, c_requests c !! k = Some (TxnDone (true, r))) ∧
  (∀ k, (j < k < last)%nat → c_requests c !! k = Some (TxnPending 0)).

End Concurrent.

(** ** Sequences of balance operations *)

Inductive operation :=
| Deduct (now : Z) (user_id credit_type : string) (amount : Z)
| Add (now : Z) (user_id credit_type : string) (amount : Z) (reason : string).

Definition apply_operation (d : db) (op : operation) : db :=
  match op with
  | Deduct now user_id credit_type amount =>
      snd (FirestoreService.deduct_credits now d user_id credit_type amount)
  | Add now user_id credit_type amount reason =>
      snd (CreditManager.add_credits now d user_id credit_type amount reason)
  end.

Definition run_operations (ops : list operation) (d : db) : db :=
  foldl apply_operation d ops.

(** The stored balance of a user, as a number. *)
Definition stored_balance (d : db) (user_id field : string) : option Z :=
  data ← users d !! user_id; v ← data !! field; as_int v.

Definition field_nonneg (data : document) (field : string) : bool :=
  match data !! field ≫= as_int with
  | Some n => 0 <=? n
  | None => true
  end.

(** Both credit fields of every user document hold no negative number. *)
Definition balances_nonneg (d : db) : Prop :=
  map_Forall (fun _ data =>
    field_nonneg data "chatCredits" && field_nonneg data "genAICredits" = true) (users d).

(** An addition that takes credits away. *)
Definition adds_nonneg (op : operation) : Prop :=
  match op with
  | Add _ _ _ amount _ => 0 ≤ amount
  | Deduct _ _ _ _ => True
  end.

(** ** Successive rate-limit checks of one user *)

Fixpoint check_requests (s : Settings) (times : list Q)
    (user_requests : gmap string (list Q)) (user_id : string)
  : list (bool * Z) * gmap string (list Q) :=
  match times with
  | [] => ([], user_requests)
  | t :: times' =>
      let '(r, user_requests1) :=
        RateLimitMiddleware._check_rate_limit s t user_requests user_id in
      let '(rs, user_requests2) := check_requests s times' user_requests1 user_id in
      (r :: rs, user_requests2)
  end.

(** The balance a [UserCredits] reports for a credit type, selected as in
    [require_credits] of [middleware/auth.py]. *)
Definition reported_balance (user_credits : UserCredits) (credit_type : string) : Z :=
  if bool_decide (credit_type = "chat"%string) then chat_credits user_credits
  else gen_ai_credits user_credits.

(** The default [get_user_credits] puts in place of a missing field. *)
Definition free_default (s : Settings) (credit_type : string) : Z :=
  if bool_decide (credit_type = "chat"%string) then free_chat_credits_monthly s
  else free_gen_ai_credits_monthly s.

(** ** Sample data *)

Module Sample.

Definition alice : document :=
  {[ "chatCredits"%string := VInt 5;
     "genAICredits"%string := VInt 1;
     "subscriptionTier"%string := VStr "pro";
     "lastCreditReset"%string := VTime 0 ]}.

(** A document created outside [initialize_user_credits], without
    balances. *)
Definition bob : document :=
  {[ "subscriptionTier"%string := VStr "free" ]}.

(** A user who has spent every chat credit. *)
Definition dave : document :=
  {[ "chatCredits"%string := VInt 0;
     "genAICredits"%string := VInt 25;
     "subscriptionTier"%string := VStr "free";
     "lastCreditReset"%string := VTime 0 ]}.

Definition public_agent : document :=
  {[ "name"%string := VStr "Guide"; "isPublic"%string := VBool true;
     "ownerId"%string := VStr "carol" ]}.

Definition private_agent : document :=
  {[ "name"%string := VStr "Diary"; "isPublic"%string := VBool false;
     "ownerId"%string := VStr "carol" ]}.

Definition store : db :=
  {| users := {[ "alice"%string := alice; "bob"%string := bob; "dave"%string := dave ]};
     ai_agents := {[ "guide"%string := public_agent; "diary"%string := private_agent ]};
     ai_interactions := [];
     credit_transactions := [] |}.

Definition env : Env :=
  {| settings := default_settings;
     now := 1000;
     limiter_allows := true;
     llm := fun _ _ => LangGraphAgent.LlmOk "Hello, how can I help?";
     stability_api := fun _ => StabilityService.ApiOk "https://storage/generated/1.png";
     request_uuid := "req-1" |}.

(** The same surroundings with a language model that fails. *)
Definition env_llm_down : Env :=
  {| settings := default_settings;
     now := 1000;
     limiter_allows := true;
     llm := fun _ _ => LangGraphAgent.LlmError "503 unavailable";
     stability_api := fun _ => StabilityService.ApiOk "https://storage/generated/1.png";
     request_uuid := "req-1" |}.

End Sample.

(** ** Further operations of the services *)

(** *** [FirestoreService.initialize_user_credits] *)

(** The document written for a new user; [SERVER_TIMESTAMP] is the time of
    the write. *)
Definition new_user_data (now : Z) (user_id : string) (chat gen : Z) : document :=
  {[ "userId"%string := VStr user_id;
     "chatCredits"%string := VInt chat;
     "genAICredits"%string := VInt gen;
     "subscriptionTier"%string := VStr "free";
     "lastCreditReset"%string := VTime now;
     "createdAt"%string := VTime now;
     "lastChatCreditUsed"%string := VNone;
     "lastGenaiCreditUsed"%string := VNone;
     "totalChatCreditsUsed"%string := VInt 0;
     "totalGenAICreditsUsed"%string := VInt 0 ]}.

(** [initialize_user_credits]: an existing document is left alone. *)
Definition initialize_user_credits (now : Z) (d : db) (user_id : string)
    (chat gen : Z) : bool * db :=
  match users d !! user_id with
  | Some _ => (true, d)
  | None => (true, set_users (insert user_id (new_user_data now user_id chat gen)) d)
  end.

(** *** [FirestoreService.get_user_rate_limit_info] *)

Record RateLimitInfo := mkRateLimitInfo {
  rl_count : Z;
  rl_window_minutes : Z;
  rl_limit : Z;
  rl_remaining : Z
}.

(** The three [where] filters of the query over [ai_interactions]. *)
Definition recent_chat (user_id : string) (window_start : Z) (ia : Interaction) : bool :=
  bool_decide (ia_userId ia = user_id) &&
  bool_decide (ia_type ia = "chat"%string) &&
  (window_start <=? ia_timestamp ia).

Definition get_user_rate_limit_info (s : Settings) (now : Z) (d : db)
    (user_id : string) (window_minutes : Z) : RateLimitInfo :=
  let window_start := now - window_minutes * 60 * 1000000 in
  let interactions := List.filter (recent_chat user_id window_start) (ai_interactions d) in
  let count := Z.of_nat (length interactions) in
  {| rl_count := count;
     rl_window_minutes := window_minutes;
     rl_limit := rate_limit_per_minute s;
     rl_remaining := Z.max 0 (rate_limit_per_minute s - count) |}.

(** *** [CreditManager.get_credit_usage_stats] *)

(** The day of the month of a day number counted from 1970-01-01, in the
    proleptic Gregorian calendar of [datetime]. *)
Definition day_of_month (days : Z) : Z :=
  let z := days + 719468 in
  let era := z / 146097 in
  let doe := z - era * 146097 in
  let yoe := (doe - doe / 1460 + doe / 36524 - doe / 146096) / 365 in
  let doy := doe - (365 * yoe + yoe / 4 - yoe / 100) in
  let mp := (5 * doy + 2) / 153 in
  doy - (153 * mp + 2) / 5 + 1.

(** [now.replace(day=1, hour=0, minute=0, second=0, microsecond=0)] *)
Definition month_start (now : Z) : Z :=
  let days := now / CreditManager.microseconds_per_day in
  (days - (day_of_month days - 1)) * CreditManager.microseconds_per_day.

Record UsageStats := mkUsageStats {
  chat_credits_used : Z;
  gen_ai_credits_used : Z;
  total_tokens_used : Z;
  period_start : Z;
  period_end : Z
}.

(** The loop over the interactions of the query. *)
Fixpoint sum_usage (interactions : list Interaction) (chat_usage gen_usage total_tokens : Z)
  : Z * Z * Z :=
  match interactions with
  | [] => (chat_usage, gen_usage, total_tokens)
  | ia :: rest =>
      let chat_usage :=
        if bool_decide (ia_type ia = "chat"%string) then chat_usage + ia_creditsUsed ia
        else chat_usage in
      let gen_usage :=
        if bool_decide (ia_type ia = "chat"%string) then gen_usage
        else if bool_decide (ia_type ia = "generation"%string)
             then gen_usage + ia_creditsUsed ia
        else gen_usage in
      sum_usage rest chat_usage gen_usage (total_tokens + ia_tokensUsed ia)
  end.

Definition get_credit_usage_stats (now : Z) (d : db) (user_id : string) : UsageStats :=
  let interactions :=
    List.filter (fun ia => bool_decide (ia_userId ia = user_id) &&
                           (month_start now <=? ia_timestamp ia))
                (ai_interactions d) in
  let '(chat_usage, gen_usage, total_tokens) := sum_usage interactions 0 0 0 in
  {| chat_credits_used := chat_usage;
     gen_ai_credits_used := gen_usage;
     total_tokens_used := total_tokens;
     period_start := month_start now;
     period_end := now |}.

(** *** [middleware/auth.py] *)

(** [token.split("-")[0]]: the text before the first dash, the whole text
    when there is none (which is also what [verify_request] takes when
    ["-" in token] is false). *)
Fixpoint before_dash (token : string) : string :=
  match token with
  | EmptyString => EmptyString
  | String c rest =>
      if Ascii.eqb c "-"%char then EmptyString else String c (before_dash rest)
  end.

Fixpoint has_dash (token : string) : bool :=
  match token with
  | EmptyString => false
  | String c rest => Ascii.eqb c "-"%char || has_dash rest
  end.

(** [verify_request].  The 401 raised for a short token inside the [try] is
    an [Exception]: the handler below it catches it and raises its own. *)
Definition verify_request (credentials : option string) : outcome string :=
  match credentials with
  | None => HTTPException 401 "Authorization required"
  | Some token =>
      let attempt : outcome string :=
        if (String.length token =? 0)%nat || (String.length token <? 10)%nat
        then HTTPException 401 "Invalid authentication token"
        else Ok (if has_dash token then before_dash token else token) in
      match attempt with
      | Ok user_id => Ok user_id
      | HTTPException _ _ => HTTPException 401 "Could not validate credentials"
      end
  end.

Definition get_current_user (user_id : outcome string) : outcome string := user_id.

(** *** [services/gemini_service.py] and the messages of the agent *)

Module GeminiService.

Inductive BaseMessage :=
| SystemMessage (content : string)
| HumanMessage (content : string)
| AIMessage (content : string).

Record GeminiMessage := mkGeminiMessage {
  gm_role : string;
  gm_text : string
}.

(** One turn of the loop of [_convert_messages_to_gemini_format]. *)
Definition convert_step (gemini_messages : list GeminiMessage) (message : BaseMessage)
  : list GeminiMessage :=
  match message with
  | SystemMessage content =>
      match gemini_messages with
      | [] => gemini_messages ++ [ {| gm_role := "user"; gm_text := "System: " +:+ content |} ]
      | _ => gemini_messages
      end
  | HumanMessage content =>
      gemini_messages ++ [ {| gm_role := "user"; gm_text := content |} ]
  | AIMessage content =>
      gemini_messages ++ [ {| gm_role := "model"; gm_text := content |} ]
  end.

Definition _convert_messages_to_gemini_format (messages : list BaseMessage)
  : list GeminiMessage :=
  foldl convert_step [] messages.

(** [gemini_messages[:-1] if len(gemini_messages) > 1 else []] *)
Definition chat_history (gemini_messages : list GeminiMessage) : list GeminiMessage :=
  if (1 <? length gemini_messages)%nat then removelast gemini_messages else [].

(** [gemini_messages[-1]["parts"][0]["text"] if gemini_messages else ""] *)
Definition last_message (gemini_messages : list GeminiMessage) : string :=
  match last gemini_messages with
  | Some m => gm_text m
  | None => EmptyString
  end.

End GeminiService.

Module AgentMessages.

Definition newline : string := String (ascii_of_nat 10) EmptyString.

(** ["\n".join(lines)] *)
Fixpoint join_lines (lines : list string) : string :=
  match lines with
  | [] => EmptyString
  | [l] => l
  | l :: rest => l +:+ newline +:+ join_lines rest
  end.

(** [_build_system_prompt] *)
Definition _build_system_prompt (personality : AgentPersonality) : string :=
  let base_prompt := "You are " +:+ ap_name personality +:+ ", an AI assistant." in
  match personality_rules personality with
  | [] => base_prompt
  | rules =>
      base_prompt +:+ newline +:+ newline +:+ "Your personality and behavior rules:"
      +:+ newline +:+ join_lines (map (fun rule => "- " +:+ rule) rules)
  end.

(** A message of the conversation context: a dictionary with the keys
    [role] and [content]. *)
Definition context_message (ctx_msg : gmap string string)
  : option GeminiService.BaseMessage :=
  if bool_decide (ctx_msg !! "role"%string = Some "user"%string) then
    Some (GeminiService.HumanMessage (default EmptyString (ctx_msg !! "content"%string)))
  else if bool_decide (ctx_msg !! "role"%string = Some "assistant"%string) then
    Some (GeminiService.AIMessage (default EmptyString (ctx_msg !! "content"%string)))
  else None.

(** The list [messages] built by [process_message]. *)
Definition build_messages (personality : AgentPersonality)
    (context : list (gmap string string)) (user_message : string)
  : list GeminiService.BaseMessage :=
  [GeminiService.SystemMessage (_build_system_prompt personality)]
  ++ omap context_message context
  ++ [GeminiService.HumanMessage user_message].

End AgentMessages.

(** The Gemini turn of a message that is not a system message. *)
Definition gemini_turn (message : GeminiService.BaseMessage)
  : option GeminiService.GeminiMessage :=
  match message with
  | GeminiService.SystemMessage _ => None
  | GeminiService.HumanMessage content =>
      Some {| GeminiService.gm_role := "user"; GeminiService.gm_text := content |}
  | GeminiService.AIMessage content =>
      Some {| GeminiService.gm_role := "model"; GeminiService.gm_text := content |}
  end.

(** *** The two steps of [CreditManager.add_credits] *)

(** [add_credits] is not a transaction: it reads the document and computes
    the new balance, and then writes it back and logs.  [add_credits_read]
    is the first step ([None] when the call returns [False] without
    writing), [add_credits_write] the second. *)
Definition add_credits_read (d : db) (user_id credit_type : string) (amount : Z)
  : option Z :=
  match users d !! user_id with
  | None => None
  | Some data =>
      match as_int (dict_get data (FirestoreService.field_name credit_type) (VInt 0)) with
      | None => None
      | Some current_credits => Some (current_credits + amount)
      end
  end.

Definition add_credits_write (now : Z) (d : db) (user_id credit_type : string)
    (amount : Z) (reason : string) (new_credits : Z) : db :=
  CreditManager._log_credit_transaction now
    (set_users (alter (update_fields
       [(FirestoreService.field_name credit_type, VInt new_credits);
        ("last" +:+ capitalize credit_type +:+ "CreditAdded", VTime now)]) user_id) d)
    user_id credit_type amount "add" reason.

(** *** More request handlers *)

Record AgentInfo := mkAgentInfo {
  info_agent_id : string;
  info_name : string;
  info_is_public : bool;
  info_personality_rules_count : Z
}.

Section MoreHandlers.

Variable env : Env.

(** [GET /api/v1/chat/agents/{agent_id}] of [api/chat.py]; the two dates of
    the answer are left out. *)
Definition get_agent_info (agent_id current_user : string) : M AgentInfo :=
  do has_access <- firestore_check_user_agent_access env current_user agent_id ;
  if negb has_access then raise 403 "Access denied to this AI agent"
  else
  do agent <- firestore_get_agent_personality env agent_id ;
  match agent with
  | None => raise 404 "AI agent not found"
  | Some agent =>
      ret {| info_agent_id := ap_agent_id agent;
             info_name := ap_name agent;
             info_is_public := is_public agent;
             info_personality_rules_count := Z.of_nat (length (personality_rules agent)) |}
  end.

(** [POST /api/v1/users/initialize] of [api/users.py]. *)
Definition initialize_user (current_user : string) : M UserCredits :=
  do existing_credits <- firestore_get_user_credits env current_user ;
  match existing_credits with
  | Some existing_credits => ret existing_credits
  | None =>
      do success <- update_db (fun d =>
                      initialize_user_credits (now env) d current_user
                        (free_chat_credits_monthly (settings env))
                        (free_gen_ai_credits_monthly (settings env))) ;
      if negb success then raise 500 "Failed to initialize user credits"
      else
      do new_credits <- firestore_get_user_credits env current_user ;
      match new_credits with
      | None => raise 500 "Failed to retrieve initialized user credits"
      | Some new_credits => ret new_credits
      end
  end.

(** The chat route as FastAPI serves it: the dependency [get_current_user]
    is resolved first, then the decorated handler runs. *)
Definition chat_route (credentials : option string) (chat_request : ChatRequest)
  : M ChatResponse :=
  match get_current_user (verify_request credentials) with
  | Ok current_user => chat_endpoint env chat_request current_user
  | HTTPException status_code detail => raise status_code detail
  end.

(** [require_credits(credit_type, amount)] of [middleware/auth.py], around a
    handler that was given the keyword argument [user_id]. *)
Definition require_credits {A} (credit_type : string) (amount : Z)
    (user_id : option string) (func : M A) : M A :=
  match user_id with
  | None => raise 401 "User ID required"
  | Some EmptyString => raise 401 "User ID required"
  | Some user_id =>
      do user_credits <- firestore_get_user_credits env user_id ;
      match user_credits with
      | None => raise 404 "User not found"
      | Some user_credits =>
          let current_credits := reported_balance user_credits credit_type in
          if current_credits <? amount then
            raise 402 ("Insufficient " +:+ credit_type +:+ " credits. Required: "
                       +:+ pretty amount +:+ ", Available: " +:+ pretty current_credits)
          else func
      end
  end.

End MoreHandlers.

(** *** Requests of several users at the rate limiter *)

Fixpoint serve_requests (s : Settings) (requests : list (string * Q))
    (user_requests : gmap string (list Q)) : list (bool * Z) * gmap string (list Q) :=
  match requests with
  | [] => ([], user_requests)
  | (user_id, t) :: requests' =>
      let '(r, user_requests1) :=
        RateLimitMiddleware._check_rate_limit s t user_requests user_id in
      let '(rs, user_requests2) := serve_requests s requests' user_requests1 in
      (r :: rs, user_requests2)
  end.

(** The times of the requests that were admitted. *)
Fixpoint admitted (times : list Q) (answers : list (bool * Z)) : list Q :=
  match times, answers with
  | t :: times', (ok, _) :: answers' =>
      if ok then t :: admitted times' answers' else admitted times' answers'
  | _, _ => []
  end.

(** A clock that never runs backwards. *)
Fixpoint monotone (times : list Q) : Prop :=
  match times with
  | [] => True
  | t :: times' => Forall (fun t' => (t <= t')%Q) times' ∧ monotone times'
  end.

(** The entries that are not older than 60 seconds at time [t]. *)
Definition in_window (t : Q) (times : list Q) : list Q :=
  List.filter (fun x => Qle_bool (t - 60) x) times.

(** * Properties *)

(** ** Strings and documents *)

Lemma field_name_cases credit_type :
  FirestoreService.field_name credit_type = "chatCredits"%string ∨
  FirestoreService.field_name credit_type = "genAICredits"%string.
Proof. unfold FirestoreService.field_name. case_bool_decide; auto. Qed.

Lemma field_name_not_stamp credit_type suffix :
  FirestoreService.field_name credit_type ≠ "last" +:+ capitalize credit_type +:+ suffix.
Proof. destruct (field_name_cases credit_type) as [-> | ->]; discriminate. Qed.

Lemma alter_present (m : gmap string document) k data f :
  m !! k = Some data → alter f k m = <[k := f data]> m.
Proof.
  intros Hk. apply map_eq. intros j. destruct (decide (k = j)) as [<- | Hne].
  - by rewrite lookup_alter_eq, lookup_insert_eq, Hk.
  - by rewrite lookup_alter_ne, lookup_insert_ne.
Qed.

Lemma set_users_id d : set_users (fun m => m) d = d.
Proof. by destruct d. Qed.

(** ** The conditional decrement *)

Section Deduct.

Variables (now : Z) (d : db) (user_id credit_type : string) (amount : Z).
Variables (data : document) (current : Z).
Hypothesis Huser : users d !! user_id = Some data.
Hypothesis Hfield : data !! FirestoreService.field_name credit_type = Some (VInt current).

Lemma deduct_sufficient :
  amount ≤ current →
  FirestoreService.deduct_credits now d user_id credit_type amount =
    ((true, current - amount),
     set_users (insert user_id
       (<["last" +:+ capitalize credit_type +:+ "CreditUsed" := VTime now]>
          (<[FirestoreService.field_name credit_type := VInt (current - amount)]> data))) d).
Proof.
  intros Hle. unfold FirestoreService.deduct_credits, FirestoreService.update_credits.
  rewrite Huser. unfold dict_get. rewrite Hfield. simpl.
  destruct (Z.ltb_spec current amount) as [Hlt | _]; [lia |].
  simpl. f_equal. unfold set_users. f_equal.
  by rewrite (alter_present _ _ data).
Qed.

Lemma deduct_insufficient :
  current < amount →
  FirestoreService.deduct_credits now d user_id credit_type amount = ((false, current), d).
Proof.
  intros Hlt. unfold FirestoreService.deduct_credits, FirestoreService.update_credits.
  rewrite Huser. unfold dict_get. rewrite Hfield. simpl.
  destruct (Z.ltb_spec current amount) as [_ | Hge]; [done | lia].
Qed.

End Deduct.

(** C1.  [deduct_credits] on a user whose document holds the balance
    [current] for the credit type: with [current >= amount] it commits
    [current - amount] (and the time stamp of the use), answers [True] and
    reports the balance now stored; with [current < amount] it leaves the
    store as it was and answers [False] with the balance [current].  In
    both cases the answer is a returned pair. *)
Theorem deduct_credits_conditional_decrement
    (now : Z) (d : db) (user_id credit_type : string) (amount current : Z)
    (data : document) :
  users d !! user_id = Some data →
  data !! FirestoreService.field_name credit_type = Some (VInt current) →
  let '(ok, remaining, d') :=
    FirestoreService.deduct_credits now d user_id credit_type amount in
  (amount ≤ current →
     ok = true ∧ remaining = current - amount ∧
     d' = set_users (insert user_id
            (<["last" +:+ capitalize credit_type +:+ "CreditUsed" := VTime now]>
               (<[FirestoreService.field_name credit_type := VInt (current - amount)]> data))) d ∧
     stored_balance d' user_id (FirestoreService.field_name credit_type) = Some remaining) ∧
  (current < amount →
     ok = false ∧ remaining = current ∧ d' = d ∧
     stored_balance d' user_id (FirestoreService.field_name credit_type) = Some current).
Proof.
  intros Huser Hfield.
  destruct (Z.le_gt_cases amount current) as [Hle | Hlt].
  - rewrite (deduct_sufficient now d user_id credit_type amount data current Huser Hfield Hle).
    split; [intros _ | lia]. repeat split.
    unfold stored_balance, set_users. simpl. rewrite lookup_insert_eq. simpl.
    rewrite lookup_insert_ne by (apply not_eq_sym, field_name_not_stamp).
    by rewrite lookup_insert_eq.
  - rewrite (deduct_insufficient now d user_id credit_type amount data current Huser Hfield Hlt).
    split; [lia | intros _]. repeat split.
    unfold stored_balance. rewrite Huser. simpl. by rewrite Hfield.
Qed.

Lemma deduct_credits_conditional_decrement_witness :
  let '(ok, remaining, d') :=
    FirestoreService.deduct_credits 7 Sample.store "alice" "chat" 2 in
  (2 ≤ 5 → ok = true ∧ remaining = 5 - 2 ∧
     d' = set_users (insert "alice"%string
            (<["last" +:+ capitalize "chat" +:+ "CreditUsed" := VTime 7]>
               (<[FirestoreService.field_name "chat" := VInt (5 - 2)]> Sample.alice)))
            Sample.store ∧
     stored_balance d' "alice" (FirestoreService.field_name "chat") = Some remaining) ∧
  (5 < 2 → ok = false ∧ remaining = 5 ∧ d' = Sample.store ∧
     stored_balance d' "alice" (FirestoreService.field_name "chat") = Some 5).
Proof.
  apply (deduct_credits_conditional_decrement 7 Sample.store "alice" "chat" 2 5 Sample.alice);
    reflexivity.
Defined.

(** ** Missing balance fields *)

Lemma validate_credits_Some v n :
  validate_credits v = Some n → as_int v = Some n ∧ 0 ≤ n.
Proof.
  unfold validate_credits. destruct (as_int v) as [m |]; [| done].
  destruct (Z.leb_spec 0 m); [| done]. intros [= <-]. done.
Qed.

(** C10.  For an existing user document without the balance field of a
    credit type, [get_user_credits] (when it reports the account) gives the
    free monthly default for that field, while [deduct_credits] reads the
    missing field as 0: a deduction of a positive amount fails with
    remaining 0 and writes nothing.  With a positive default the two
    reported balances differ. *)
Theorem missing_balance_field_disagreement
    (s : Settings) (now : Z) (d : db) (user_id credit_type : string)
    (data : document) (user_credits : UserCredits) (amount : Z) :
  users d !! user_id = Some data →
  data !! FirestoreService.field_name credit_type = None →
  FirestoreService.get_user_credits s now d user_id = Some user_credits →
  0 < amount →
  reported_balance user_credits credit_type = free_default s credit_type ∧
  FirestoreService.deduct_credits now d user_id credit_type amount = ((false, 0), d) ∧
  (0 < free_default s credit_type →
   reported_balance user_credits credit_type ≠
   snd (fst (FirestoreService.deduct_credits now d user_id credit_type amount))).
Proof.
  intros Huser Hmiss Hget Hpos.
  assert (Hded : FirestoreService.deduct_credits now d user_id credit_type amount
                 = ((false, 0), d)).
  { unfold FirestoreService.deduct_credits, FirestoreService.update_credits.
    rewrite Huser. unfold dict_get. rewrite Hmiss. simpl.
    destruct (Z.ltb_spec 0 amount); [done | lia]. }
  assert (Hrep : reported_balance user_credits credit_type = free_default s credit_type).
  { unfold FirestoreService.get_user_credits in Hget. rewrite Huser in Hget.
    unfold reported_balance, free_default.
    unfold FirestoreService.field_name in Hmiss.
    case_bool_decide.
    - unfold dict_get in Hget at 1. rewrite Hmiss in Hget.
      destruct (validate_credits (VInt (free_chat_credits_monthly s))) as [c |] eqn:Hc;
        [| discriminate].
      apply validate_credits_Some in Hc as [[= <-] _].
      repeat case_match; simplify_eq. done.
    - unfold dict_get in Hget at 2. rewrite Hmiss in Hget.
      destruct (validate_credits (VInt (free_gen_ai_credits_monthly s))) as [g |] eqn:Hg;
        [| repeat case_match; discriminate].
      apply validate_credits_Some in Hg as [[= <-] _].
      repeat case_match; simplify_eq. done. }
  split; [done |]. split; [done |].
  rewrite Hded, Hrep. simpl. lia.
Qed.

Lemma missing_balance_field_disagreement_witness :
  reported_balance
    {| uc_user_id := "bob"; chat_credits := 25; gen_ai_credits := 25;
       last_reset := 1000; subscription_tier := "free" |} "genai"
    = free_default default_settings "genai" ∧
  FirestoreService.deduct_credits 1000 Sample.store "bob" "genai" 1
    = ((false, 0), Sample.store) ∧
  (0 < free_default default_settings "genai" →
   reported_balance
    {| uc_user_id := "bob"; chat_credits := 25; gen_ai_credits := 25;
       last_reset := 1000; subscription_tier := "free" |} "genai" ≠
   snd (fst (FirestoreService.deduct_credits 1000 Sample.store "bob" "genai" 1))).
Proof.
  apply (missing_balance_field_disagreement default_settings 1000 Sample.store
           "bob" "genai" Sample.bob); [reflexivity | reflexivity | reflexivity | lia].
Defined.

(** ** Generation cost *)

(** C7.  The cost of a generation is [image_generation_cost] for IMAGE and
    ALBUM_ART and [music_generation_cost] for MUSIC, whatever the requested
    duration; and the request [generate_music] sends to the provider
    carries the duration capped at 180 seconds, also when it is reached
    through the generation handler. *)
Theorem generation_cost_and_duration_cap (s : Settings) :
  (∀ duration,
     StabilityService.get_generation_cost s IMAGE duration = image_generation_cost s ∧
     StabilityService.get_generation_cost s ALBUM_ART duration = image_generation_cost s ∧
     StabilityService.get_generation_cost s MUSIC duration = music_generation_cost s) ∧
  (∀ media_type duration1 duration2,
     StabilityService.get_generation_cost s media_type duration1 =
     StabilityService.get_generation_cost s media_type duration2) ∧
  (∀ api prompt duration style,
     StabilityService.generate_music api prompt duration style =
       api (StabilityService.music_request_data prompt duration style) ∧
     StabilityService.rq_duration (StabilityService.music_request_data prompt duration style)
       = Some (Z.min duration 180) ∧
     Z.min duration 180 ≤ 180 ∧
     (duration ≤ 180 → Z.min duration 180 = duration)) ∧
  (∀ env request,
     gr_media_type request = MUSIC →
     ∃ sent,
       provider_call env request = stability_api env sent ∧
       StabilityService.rq_duration sent
         = Some (Z.min (duration_or_30 (gr_duration request)) 180)).
Proof.
  split; [by intros duration |].
  split; [by intros [] ? ? |].
  split.
  - intros api prompt duration style. repeat split; lia.
  - intros env request Hmusic. unfold provider_call. rewrite Hmusic.
    by eexists.
Qed.

(** ** Monthly reset *)

Lemma get_user_credits_has_document s now d user_id user_credits :
  FirestoreService.get_user_credits s now d user_id = Some user_credits →
  ∃ data, users d !! user_id = Some data.
Proof.
  unfold FirestoreService.get_user_credits.
  destruct (users d !! user_id) as [data |]; [eauto | done].
Qed.

Lemma thirty_days_elapsed now last :
  30 ≤ CreditManager.days_between now last ↔
  30 * CreditManager.microseconds_per_day ≤ now - last.
Proof.
  unfold CreditManager.days_between, CreditManager.microseconds_per_day.
  change (86400 * 1000000) with 86400000000.
  split; intros H.
  - pose proof (Z.mul_div_le (now - last) 86400000000 ltac:(lia)). lia.
  - apply Z.div_le_lower_bound; lia.
Qed.

Lemma reset_not_due (s : Settings) (now : Z) (d : db) (user_id : string) (data : document) :
  users d !! user_id = Some data →
  (∃ last, data !! "lastCreditReset"%string = Some (VTime last) ∧
           now - last < 30 * CreditManager.microseconds_per_day) →
  CreditManager.reset_monthly_credits s now d user_id = (false, d).
Proof.
  intros Huser (last & Hlast & Hearly).
  unfold CreditManager.reset_monthly_credits, FirestoreService.get_user_credits.
  rewrite Huser. unfold dict_get at 3. rewrite Hlast. simpl.
  repeat case_match; simplify_eq; try done.
  simpl in *.
  match goal with H : (30 <=? _) = true |- _ => apply Z.leb_le, thirty_days_elapsed in H end.
  lia.
Qed.

(** C9 (as amended).  [reset_monthly_credits] answers [True] exactly when
    [get_user_credits] reports an account for the user and 30 days or more
    lie between the [last_reset] of that account and now.  It then stores
    the allotment of the user's tier in both balances and the present time
    in [lastCreditReset], and a further call less than 30 days later
    answers [False] and changes nothing; whenever it answers [False], for
    a user without a valid account included, the store is unchanged.  With
    the default settings the free, pro and premium allotments are pairwise
    different. *)
Theorem reset_monthly_credits_thirty_days
    (s : Settings) (now : Z) (d : db) (user_id : string) :
  let '(reset, d') := CreditManager.reset_monthly_credits s now d user_id in
  (reset = true ↔
     ∃ user_credits,
       FirestoreService.get_user_credits s now d user_id = Some user_credits ∧
       30 * CreditManager.microseconds_per_day ≤ now - last_reset user_credits) ∧
  (reset = true →
     ∃ data user_credits,
       users d !! user_id = Some data ∧
       FirestoreService.get_user_credits s now d user_id = Some user_credits ∧
       let '(chat, gen) := CreditManager.tier_allotment s (subscription_tier user_credits) in
       d' = set_users (insert user_id
              (<["lastCreditReset"%string := VTime now]>
                 (<["genAICredits"%string := VInt gen]>
                    (<["chatCredits"%string := VInt chat]> data)))) d ∧
       ∀ later, later - now < 30 * CreditManager.microseconds_per_day →
         CreditManager.reset_monthly_credits s later d' user_id = (false, d')) ∧
  (reset = false → d' = d) ∧
  CreditManager.tier_allotment default_settings "free" = (25, 25) ∧
  CreditManager.tier_allotment default_settings "pro" = (500, 200) ∧
  CreditManager.tier_allotment default_settings "premium" = (100, 50).
Proof.
  unfold CreditManager.reset_monthly_credits.
  destruct (FirestoreService.get_user_credits s now d user_id) as [user_credits |] eqn:Hget.
  2: { split; [split; [done | by intros (? & ? & _)] | done]. }
  destruct (get_user_credits_has_document _ _ _ _ _ Hget) as [data Huser].
  destruct (CreditManager.tier_allotment s (subscription_tier user_credits))
    as [chat gen] eqn:Hallot.
  destruct (Z.leb_spec 30 (CreditManager.days_between now (last_reset user_credits)))
    as [Hdue | Hearly].
  - split.
    { split; [intros _ | done]. exists user_credits. split; [done |].
      by apply thirty_days_elapsed. }
    split; [intros _ | done].
    exists data, user_credits. split; [done |]. split; [done |]. rewrite Hallot.
    assert (Hd' : set_users (alter (update_fields
                     [("chatCredits"%string, VInt chat); ("genAICredits"%string, VInt gen);
                      ("lastCreditReset"%string, VTime now)]) user_id) d
                  = set_users (insert user_id
                      (<["lastCreditReset"%string := VTime now]>
                         (<["genAICredits"%string := VInt gen]>
                            (<["chatCredits"%string := VInt chat]> data)))) d).
    { unfold set_users. f_equal. by rewrite (alter_present _ _ data). }
    rewrite Hd'. split; [done |].
    intros later Hlater. eapply reset_not_due.
    + unfold set_users. simpl. apply lookup_insert_eq.
    + exists now. split; [apply lookup_insert_eq | done].
  - split.
    + split; [done |]. intros (uc & [= <-] & Hge). apply thirty_days_elapsed in Hge. lia.
    + done.
Qed.

Lemma reset_monthly_credits_thirty_days_witness :
  let now := 31 * CreditManager.microseconds_per_day in
  let '(reset, d') :=
    CreditManager.reset_monthly_credits default_settings now Sample.store "alice" in
  (reset = true ↔
     ∃ user_credits,
       FirestoreService.get_user_credits default_settings now Sample.store "alice"
         = Some user_credits ∧
       30 * CreditManager.microseconds_per_day ≤ now - last_reset user_credits) ∧
  (reset = true →
     ∃ data user_credits,
       users Sample.store !! "alice"%string = Some data ∧
       FirestoreService.get_user_credits default_settings now Sample.store "alice"
         = Some user_credits ∧
       let '(chat, gen) :=
         CreditManager.tier_allotment default_settings (subscription_tier user_credits) in
       d' = set_users (insert "alice"%string
              (<["lastCreditReset"%string := VTime now]>
                 (<["genAICredits"%string := VInt gen]>
                    (<["chatCredits"%string := VInt chat]> data)))) Sample.store ∧
       ∀ later, later - now < 30 * CreditManager.microseconds_per_day →
         CreditManager.reset_monthly_credits default_settings later d' "alice" = (false, d')) ∧
  (reset = false → d' = Sample.store) ∧
  CreditManager.tier_allotment default_settings "free" = (25, 25) ∧
  CreditManager.tier_allotment default_settings "pro" = (500, 200) ∧
  CreditManager.tier_allotment default_settings "premium" = (100, 50).
Proof.
  exact (reset_monthly_credits_thirty_days default_settings
           (31 * CreditManager.microseconds_per_day) Sample.store "alice").
Defined.

(** C9 as stated fails.  The claim makes the answer depend on the elapsed
    time alone, but the function first asks [get_user_credits] for the
    account.  After an addition of -10 the document of [alice] holds a chat
    balance of -5 and its [lastCreditReset] of 31 days ago; the account no
    longer validates, and the reset is refused although the 30 days have
    elapsed, leaving every field as it was. *)
Lemma reset_refused_after_thirty_days :
  let d := snd (CreditManager.add_credits 1 Sample.store "alice" "chat" (-10) "adjustment") in
  let now := 31 * CreditManager.microseconds_per_day in
  stored_balance d "alice" "chatCredits" = Some (-5) ∧
  (users d !! "alice"%string ≫= lookup "lastCreditReset"%string) = Some (VTime 0) ∧
  30 * CreditManager.microseconds_per_day ≤ now - 0 ∧
  FirestoreService.get_user_credits default_settings now d "alice" = None ∧
  fst (CreditManager.reset_monthly_credits default_settings now d "alice") = false ∧
  snd (CreditManager.reset_monthly_credits default_settings now d "alice") = d.
Proof.
  split; [reflexivity |]. split; [reflexivity |].
  split; [unfold CreditManager.microseconds_per_day; lia |].
  split; [reflexivity |]. split; reflexivity.
Qed.

(** ** Balances stay non-negative *)

Lemma as_int_lookup_nonneg (data : document) (field : string) n :
  field_nonneg data field = true →
  as_int (dict_get data field (VInt 0)) = Some n → 0 ≤ n.
Proof.
  unfold field_nonneg, dict_get. destruct (data !! field) as [v |]; simpl.
  - intros H Hv. rewrite Hv in H. by apply Z.leb_le.
  - intros _ [= <-]. done.
Qed.

Lemma field_nonneg_written (data : document) (credit_type rest : string) n t field :
  0 ≤ n →
  field = "chatCredits"%string ∨ field = "genAICredits"%string →
  field_nonneg data field = true →
  field_nonneg
    (update_fields [(FirestoreService.field_name credit_type, VInt n);
                    ("last" +:+ rest, VTime t)] data) field = true.
Proof.
  intros Hn Hfield Hold. unfold field_nonneg in *. simpl.
  rewrite lookup_insert_ne by (destruct Hfield as [-> | ->]; discriminate).
  destruct (decide (FirestoreService.field_name credit_type = field)) as [-> | Hne].
  - rewrite lookup_insert_eq. simpl. by apply Z.leb_le.
  - by rewrite lookup_insert_ne.
Qed.

Lemma write_balance_nonneg (d : db) (user_id credit_type rest : string)
    (data : document) n t :
  balances_nonneg d →
  users d !! user_id = Some data →
  0 ≤ n →
  balances_nonneg
    (set_users (alter (update_fields [(FirestoreService.field_name credit_type, VInt n);
                                      ("last" +:+ rest, VTime t)]) user_id) d).
Proof.
  intros Hinv Huser Hn. unfold balances_nonneg, set_users. simpl.
  rewrite (alter_present _ _ data) by done.
  apply map_Forall_insert_2; [| done].
  specialize (Hinv _ _ Huser). simpl in Hinv.
  apply andb_true_iff in Hinv as [Hc Hg].
  apply andb_true_iff. split; apply field_nonneg_written; auto.
Qed.

Lemma deduct_keeps_nonneg now d user_id credit_type amount :
  balances_nonneg d →
  balances_nonneg (snd (FirestoreService.deduct_credits now d user_id credit_type amount)).
Proof.
  intros Hinv. unfold FirestoreService.deduct_credits, FirestoreService.update_credits.
  destruct (users d !! user_id) as [data |] eqn:Huser; [| done].
  destruct (as_int _) as [current |] eqn:Hcur; [| done].
  destruct (Z.ltb_spec current amount) as [Hlt | Hge]; [done |].
  simpl. apply (write_balance_nonneg d user_id credit_type _ data); [done | done | lia].
Qed.

Lemma add_keeps_nonneg now d user_id credit_type amount reason :
  0 ≤ amount →
  balances_nonneg d →
  balances_nonneg (snd (CreditManager.add_credits now d user_id credit_type amount reason)).
Proof.
  intros Hamount Hinv. unfold CreditManager.add_credits.
  destruct (users d !! user_id) as [data |] eqn:Huser; [| done].
  destruct (as_int _) as [current |] eqn:Hcur; [| done].
  simpl. unfold balances_nonneg. simpl.
  apply (write_balance_nonneg d user_id credit_type _ data); [done | done |].
  assert (0 ≤ current); [| lia].
  specialize (Hinv _ _ Huser). simpl in Hinv.
  apply andb_true_iff in Hinv as [Hc Hg].
  destruct (field_name_cases credit_type) as [Hf | Hf]; rewrite Hf in Hcur;
    eauto using as_int_lookup_nonneg.
Qed.

(** C2 (as amended).  Starting from a store in which no credit field is
    negative, after every operation of a sequence of [deduct_credits] and
    [add_credits] calls whose additions have a non-negative amount, no
    credit field of any user is negative. *)
Theorem balances_stay_nonneg (ops : list operation) (d : db) :
  balances_nonneg d →
  Forall adds_nonneg ops →
  ∀ done_ops rest, ops = done_ops ++ rest →
    balances_nonneg (run_operations done_ops d).
Proof.
  intros Hinv Hops done_ops rest ->.
  apply Forall_app in Hops as [Hdone _]. clear rest.
  revert d Hinv. induction Hdone as [| op done_ops Hop _ IH]; intros d Hinv; [done |].
  simpl. apply IH.
  destruct op as [now u ct a | now u ct a r]; simpl.
  - by apply deduct_keeps_nonneg.
  - by apply add_keeps_nonneg.
Qed.

Lemma sample_store_nonneg : balances_nonneg Sample.store.
Proof.
  unfold balances_nonneg, Sample.store. simpl.
  repeat (apply map_Forall_insert_2; [reflexivity |]).
  apply map_Forall_empty.
Qed.

Lemma balances_stay_nonneg_witness :
  balances_nonneg
    (run_operations [Deduct 1 "alice" "chat" 2; Add 2 "alice" "genai" 3 "purchase"]
       Sample.store).
Proof.
  apply (balances_stay_nonneg
           [Deduct 1 "alice" "chat" 2; Add 2 "alice" "genai" 3 "purchase";
            Deduct 3 "bob" "chat" 1]
           Sample.store sample_store_nonneg
           ltac:(repeat constructor; simpl; lia)
           [Deduct 1 "alice" "chat" 2; Add 2 "alice" "genai" 3 "purchase"]
           [Deduct 3 "bob" "chat" 1] eq_refl).
Defined.

(** C2 as stated fails: an addition with a negative amount is written
    without a check and leaves the balance below zero. *)
Lemma negative_add_breaks_nonneg :
  balances_nonneg Sample.store ∧
  stored_balance
    (run_operations [Add 1 "alice" "chat" (-10) "adjustment"] Sample.store)
    "alice" "chatCredits" = Some (-5) ∧
  ¬ balances_nonneg
      (run_operations [Add 1 "alice" "chat" (-10) "adjustment"] Sample.store).
Proof.
  split; [apply sample_store_nonneg |].
  split; [reflexivity |].
  intros Hinv.
  specialize (Hinv "alice"%string
    (<["lastChatCreditAdded"%string := VTime 1]>
       (<["chatCredits"%string := VInt (-5)]> Sample.alice))
    eq_refl).
  discriminate Hinv.
Qed.

(** ** The sliding window of the rate limiter *)

Section RateLimit.

Import RateLimitMiddleware.

Lemma clean_old_split window_start queue :
  ∃ old, queue = old ++ clean_old window_start queue ∧
         Forall (fun t => (t < window_start)%Q) old ∧
         match clean_old window_start queue with
         | t :: _ => (window_start <= t)%Q
         | [] => True
         end.
Proof.
  induction queue as [| t queue (old & Hq & Hold & Hhead)]; simpl.
  - by exists [].
  - destruct (Qle_bool window_start t) eqn:Ht.
    + exists []. split; [done |]. split; [constructor |]. by apply Qle_bool_iff.
    + exists (t :: old). split; [simpl; congruence |]. split; [| done].
      constructor; [| done]. apply Qnot_le_lt. intros Hle.
      apply Qle_bool_iff in Hle. congruence.
Qed.

Lemma clean_old_length window_start queue :
  (length (clean_old window_start queue) ≤ length queue)%nat.
Proof.
  induction queue as [| t queue IH]; simpl; [done |].
  destruct (Qle_bool window_start t); simpl; lia.
Qed.

Lemma clean_old_fresh window_start t queue :
  (window_start <= t)%Q → clean_old window_start (t :: queue) = t :: queue.
Proof. intros Hle. simpl. apply Qle_bool_iff in Hle. by rewrite Hle. Qed.

Lemma clean_old_stale window_start t queue :
  (t < window_start)%Q →
  clean_old window_start (t :: queue) = clean_old window_start queue.
Proof.
  intros Hlt. simpl. destruct (Qle_bool window_start t) eqn:Hle; [| done].
  apply Qle_bool_iff in Hle. apply Qlt_not_le in Hlt. done.
Qed.

Variable s : Settings.
Local Abbreviation limit := (rate_limit_per_minute s).

Lemma check_under_limit now user_requests user_id :
  let queue := clean_old (now - 60)%Q (default [] (user_requests !! user_id)) in
  Z.of_nat (length queue) < limit →
  _check_rate_limit s now user_requests user_id =
    ((true, limit - Z.of_nat (length queue) - 1),
     <[user_id := queue ++ [now]]> user_requests).
Proof.
  intros queue Hlt. unfold _check_rate_limit. fold queue.
  destruct (Z.leb_spec (rate_limit_per_minute s) (Z.of_nat (length queue))) as [Hge | _];
    [lia |].
  rewrite length_app. simpl. do 2 f_equal. lia.
Qed.

Lemma check_at_limit now user_requests user_id :
  let queue := clean_old (now - 60)%Q (default [] (user_requests !! user_id)) in
  limit ≤ Z.of_nat (length queue) →
  _check_rate_limit s now user_requests user_id =
    ((false, 0), <[user_id := queue]> user_requests).
Proof.
  intros queue Hge. unfold _check_rate_limit. fold queue.
  destruct (Z.leb_spec (rate_limit_per_minute s) (Z.of_nat (length queue))) as [_ | Hlt];
    [done | lia].
Qed.

(** Requests made while the oldest entry [t0] is still inside the window
    are all admitted as long as the queue stays below the limit. *)
Lemma check_requests_within user_id t0 times :
  ∀ user_requests queue,
    user_requests !! user_id = Some (t0 :: queue) →
    Forall (fun t => (t - 60 <= t0)%Q) times →
    Z.of_nat (length (t0 :: queue) + length times) ≤ limit →
    check_requests s times user_requests user_id =
      (map (fun k => (true, limit - Z.of_nat k - 1))
           (seq (length (t0 :: queue)) (length times)),
       <[user_id := (t0 :: queue) ++ times]> user_requests).
Proof.
  induction times as [| t times IH]; intros user_requests queue Hq Hwin Hlen.
  - simpl. rewrite app_nil_r. by rewrite insert_id.
  - apply Forall_cons in Hwin as [Ht Hwin].
    cbn [check_requests].
    assert (Hclean : clean_old (t - 60)%Q (default [] (user_requests !! user_id))
                     = t0 :: queue).
    { rewrite Hq. simpl default. by apply clean_old_fresh. }
    rewrite check_under_limit; rewrite Hclean; [| simpl in *; lia].
    rewrite (IH _ (queue ++ [t])); [| apply lookup_insert_eq | done |].
    + rewrite insert_insert_eq.
      replace ((t0 :: queue ++ [t]) ++ times) with ((t0 :: queue) ++ t :: times)
        by (simpl; by rewrite <- app_assoc).
      f_equal. cbn [length seq map]. rewrite length_app. simpl.
      replace (length queue + 1)%nat with (S (length queue)) by lia. done.
    + simpl in *. rewrite length_app. simpl. lia.
Qed.

End RateLimit.

(** C8.  One check of a user's window: the entries older than 60 seconds
    are dropped from the front; with fewer than [limit] entries left the
    time of the request is appended and the check answers [True] with
    [limit - count - 1] remaining, otherwise it answers [False] with 0
    remaining and the window is not extended.  Hence, for a user without
    earlier requests, [limit] requests within 60 seconds of the first are
    all admitted, one more while the first is not older than 60 seconds is
    refused, and a request made when more than 60 seconds have passed
    since the first is admitted again. *)
Theorem rate_limit_sliding_window (s : Settings) :
  let limit := rate_limit_per_minute s in
  (∀ now user_requests user_id,
     let stored := default [] (user_requests !! user_id) in
     let queue := RateLimitMiddleware.clean_old (now - 60)%Q stored in
     let count := Z.of_nat (length queue) in
     (∃ old, stored = old ++ queue ∧
             Forall (fun t => (t < now - 60)%Q) old ∧
             match queue with t :: _ => (now - 60 <= t)%Q | [] => True end) ∧
     (count < limit →
        RateLimitMiddleware._check_rate_limit s now user_requests user_id =
          ((true, limit - count - 1), <[user_id := queue ++ [now]]> user_requests)) ∧
     (limit ≤ count →
        RateLimitMiddleware._check_rate_limit s now user_requests user_id =
          ((false, 0), <[user_id := queue]> user_requests))) ∧
  (∀ user_requests user_id t0 times now later,
     default [] (user_requests !! user_id) = [] →
     Z.of_nat (length (t0 :: times)) = limit →
     Forall (fun t => (t - 60 <= t0)%Q) times →
     (now - 60 <= t0)%Q →
     (t0 < later - 60)%Q →
     let '(answers, after) := check_requests s (t0 :: times) user_requests user_id in
     answers = map (fun k => (true, limit - Z.of_nat k - 1)) (seq 0 (length (t0 :: times))) ∧
     after !! user_id = Some (t0 :: times) ∧
     RateLimitMiddleware._check_rate_limit s now after user_id =
       ((false, 0), <[user_id := t0 :: times]> after) ∧
     fst (fst (RateLimitMiddleware._check_rate_limit s later after user_id)) = true ∧
     fst (fst (RateLimitMiddleware._check_rate_limit s later
                 (snd (RateLimitMiddleware._check_rate_limit s now after user_id))
                 user_id)) = true).
Proof.
  intros limit. split.
  - intros now user_requests user_id stored queue count.
    split; [apply clean_old_split |].
    split; [apply check_under_limit | apply check_at_limit].
  - intros user_requests user_id t0 times now later Hempty Hlen Hwin Hnow Hlater.
    cbn [check_requests].
    rewrite check_under_limit; rewrite Hempty; simpl RateLimitMiddleware.clean_old;
      [| simpl in *; fold limit; lia].
    rewrite (check_requests_within s user_id t0 times _ []);
      [| apply lookup_insert_eq | done | simpl in *; fold limit; lia].
    rewrite insert_insert_eq. simpl app.
    assert (Hafter : (<[user_id := t0 :: times]> user_requests) !! user_id
                     = Some (t0 :: times)) by apply lookup_insert_eq.
    assert (Hrefused :
      RateLimitMiddleware._check_rate_limit s now (<[user_id := t0 :: times]> user_requests)
        user_id = ((false, 0), <[user_id := t0 :: times]>
                                 (<[user_id := t0 :: times]> user_requests))).
    { rewrite check_at_limit; rewrite Hafter; simpl default;
        rewrite clean_old_fresh by done; [done | fold limit; lia]. }
    assert (Hagain : ∀ m, m !! user_id = Some (t0 :: times) →
      fst (fst (RateLimitMiddleware._check_rate_limit s later m user_id)) = true).
    { intros m Hm. rewrite check_under_limit; [done |].
      rewrite Hm. simpl default. rewrite clean_old_stale by done.
      pose proof (clean_old_length (later - 60)%Q times). simpl in Hlen. fold limit. lia. }
    split; [done |]. split; [done |]. split; [done |].
    split; [by apply Hagain |].
    apply Hagain. rewrite Hrefused. simpl. apply lookup_insert_eq.
Qed.

Lemma rate_limit_sliding_window_witness :
  let '(answers, after) :=
    check_requests default_settings [0; 10; 20; 30; 40]%Q ∅ "alice" in
  answers = [(true, 4); (true, 3); (true, 2); (true, 1); (true, 0)] ∧
  after !! "alice"%string = Some [0; 10; 20; 30; 40]%Q ∧
  RateLimitMiddleware._check_rate_limit default_settings 50%Q after "alice" =
    ((false, 0), <["alice"%string := [0; 10; 20; 30; 40]%Q]> after) ∧
  fst (fst (RateLimitMiddleware._check_rate_limit default_settings 61%Q after "alice"))
    = true ∧
  fst (fst (RateLimitMiddleware._check_rate_limit default_settings 61%Q
              (snd (RateLimitMiddleware._check_rate_limit default_settings 50%Q after
                      "alice")) "alice")) = true.
Proof.
  apply (proj2 (rate_limit_sliding_window default_settings)
           ∅ "alice"%string 0%Q [10; 20; 30; 40]%Q 50%Q 61%Q).
  - reflexivity.
  - reflexivity.
  - repeat constructor; vm_compute; discriminate.
  - vm_compute; discriminate.
  - reflexivity.
Defined.

(** ** Running handlers *)

(** Unfolds the monad and the traced store calls, leaving the operations of
    the services folded. *)
Ltac run_handler :=
  cbv beta iota zeta delta
    [run bind ret raise emit read_db update_db rate_limit_check
     firestore_get_user_credits firestore_check_user_agent_access
     firestore_get_agent_personality firestore_deduct_credits
     firestore_log_ai_interaction w_db w_trace fst snd].

(** An event that differs from every entry of a given trace is not in it. *)
Ltac not_in_trace :=
  let Hin := fresh "Hin" in
  intros Hin;
  repeat (apply elem_of_cons in Hin as [Hin | Hin]; [discriminate Hin |]);
  by apply elem_of_nil in Hin.

(** ** The generation handler *)

Lemma deduct_failure_writes_nothing now d user_id credit_type amount :
  fst (fst (FirestoreService.deduct_credits now d user_id credit_type amount)) = false →
  snd (FirestoreService.deduct_credits now d user_id credit_type amount) = d.
Proof.
  unfold FirestoreService.deduct_credits, FirestoreService.update_credits.
  repeat case_match; simplify_eq; simpl; done.
Qed.

(** Whenever the provider succeeds, the handler answers COMPLETED with the
    media and with [credits_used] set to the full cost, whether or not the
    deduction went through. *)
Lemma generate_content_after_provider_success
    (env : Env) (request : GenerateRequest) (d : db)
    (user_credits : UserCredits) (media_url : string) :
  let user_id := gr_user_id request in
  let credit_cost :=
    StabilityService.get_generation_cost (settings env) (gr_media_type request)
      (gr_duration request) in
  FirestoreService.get_user_credits (settings env) (now env) d user_id = Some user_credits →
  credit_cost ≤ gen_ai_credits user_credits →
  provider_call env request = StabilityService.ApiOk media_url →
  let '(success, remaining, d1) :=
    FirestoreService.deduct_credits (now env) d user_id "genai" credit_cost in
  fst (run (generate_content env request user_id) d) =
    Ok {| g_request_id := request_uuid env;
          g_status := COMPLETED;
          g_media_url := Some media_url;
          g_media_type := gr_media_type request;
          g_credits_used := credit_cost;
          g_credits_remaining := remaining;
          g_error := None |}.
Proof.
  intros user_id credit_cost Hget Hcost Hprov.
  destruct (FirestoreService.deduct_credits _ _ _ _ _) as [[success remaining] d1] eqn:Hded.
  subst user_id credit_cost. unfold generate_content. run_handler.
  rewrite bool_decide_false by (intros H; by apply H). run_handler.
  rewrite Hget. run_handler.
  destruct (Z.ltb_spec (gen_ai_credits user_credits)
              (StabilityService.get_generation_cost (settings env)
                 (gr_media_type request) (gr_duration request))); [lia |].
  run_handler. rewrite Hprov. run_handler. rewrite Hded. run_handler. done.
Qed.

(** C3 (the code at a failing input).  The user document of [bob] has no
    [genAICredits] field.  The pre-check reads the default 25 and passes,
    the provider delivers an image, the deduction fails and writes nothing;
    the answer carries the media but reports [credits_used = 1], not 0, and
    the interaction is logged with one credit used. *)
Theorem generation_reports_cost_after_failed_deduction :
  let request := {| gr_user_id := "bob"; gr_prompt := "a lighthouse at dusk";
                    gr_media_type := IMAGE; gr_style := None; gr_duration := None |} in
  let out := run (generate_content Sample.env request "bob") Sample.store in
  provider_call Sample.env request = StabilityService.ApiOk "https://storage/generated/1.png" ∧
  FirestoreService.deduct_credits 1000 Sample.store "bob" "genai" 1
    = ((false, 0), Sample.store) ∧
  fst out = Ok {| g_request_id := "req-1";
                  g_status := COMPLETED;
                  g_media_url := Some "https://storage/generated/1.png"%string;
                  g_media_type := IMAGE;
                  g_credits_used := 1;
                  g_credits_remaining := 0;
                  g_error := None |} ∧
  users (w_db (snd out)) = users Sample.store ∧
  ai_interactions (w_db (snd out)) =
    [ {| ia_userId := "bob"; ia_agentId := "stability-ai"; ia_type := "generation";
         ia_tokensUsed := 0; ia_creditsUsed := 1; ia_timestamp := 1000 |} ].
Proof. repeat split; reflexivity. Qed.

(** ** The chat handler *)

Lemma access_implies_agent now d user_id agent_id :
  FirestoreService.check_user_agent_access now d user_id agent_id = true →
  is_Some (FirestoreService.get_agent_personality now d agent_id).
Proof.
  unfold FirestoreService.check_user_agent_access.
  destruct (FirestoreService.get_agent_personality now d agent_id); [eauto | done].
Qed.

(** Case analysis along the body of [chat_endpoint], one goal per exit. *)
Ltac chat_cases env chat_request d :=
  unfold chat_endpoint, chat_call; run_handler;
  destruct (limiter_allows env) eqn:Hlimiter; run_handler; [| ];
  [ case_bool_decide; run_handler; [|
    destruct (FirestoreService.get_user_credits (settings env) (now env) d
                (cr_user_id chat_request)) as [user_credits |] eqn:Hcredits;
    run_handler; [
    destruct (Z.ltb_spec (chat_credits user_credits) (chat_credit_cost (settings env)))
      as [Hpoor | Hrich];
    run_handler; [|
    destruct (FirestoreService.check_user_agent_access (now env) d
                (cr_user_id chat_request) (cr_agent_id chat_request)) eqn:Haccess;
    run_handler; cbn [negb]; run_handler; [
    destruct (FirestoreService.get_agent_personality (now env) d
                (cr_agent_id chat_request)) as [agent_personality |] eqn:Hagent;
    run_handler; [
    destruct (LangGraphAgent.call (llm env) agent_personality (cr_message chat_request))
      as [response_text metadata] eqn:Hcall;
    run_handler;
    destruct (FirestoreService.deduct_credits (now env) d (cr_user_id chat_request)
                "chat" (chat_credit_cost (settings env)))
      as [[success remaining_credits] d1] eqn:Hdeduct;
    run_handler;
    destruct success; cbn [negb]; run_handler
    | ] | ] ] | ] ] | ].

(** C4 (as amended).  A chat call that succeeds appends exactly one entry
    to [ai_interactions], of type "chat" and with [creditsUsed] equal to
    the configured chat cost, after a successful deduction of that cost,
    and writes nothing to [credit_transactions]; a chat call that ends in
    an error leaves the whole store, balances and both logs, as it was. *)
Theorem chat_call_logs_one_interaction
    (env : Env) (chat_request : ChatRequest) (current_user : string) (d : db) :
  let '(result, w) := run (chat_endpoint env chat_request current_user) d in
  match result with
  | Ok response =>
      let '(deducted, d1) :=
        FirestoreService.deduct_credits (now env) d (cr_user_id chat_request) "chat"
          (chat_credit_cost (settings env)) in
      deducted = (true, resp_credits_remaining response) ∧
      users (w_db w) = users d1 ∧
      ai_interactions (w_db w) =
        ai_interactions d ++
        [ {| ia_userId := cr_user_id chat_request;
             ia_agentId := cr_agent_id chat_request;
             ia_type := "chat";
             ia_tokensUsed := resp_tokens_used response;
             ia_creditsUsed := chat_credit_cost (settings env);
             ia_timestamp := now env |} ] ∧
      credit_transactions (w_db w) = credit_transactions d
  | HTTPException _ _ => w_db w = d
  end.
Proof.
  chat_cases env chat_request d; try done.
  - cbn.
    assert (Hsame : ai_interactions d1 = ai_interactions d ∧
                    credit_transactions d1 = credit_transactions d).
    { revert Hdeduct. unfold FirestoreService.deduct_credits, FirestoreService.commit_writes.
      repeat case_match; intros; simplify_eq; done. }
    destruct Hsame as [-> ->]. done.
  - cbn. pose proof (deduct_failure_writes_nothing (now env) d (cr_user_id chat_request)
                       "chat" (chat_credit_cost (settings env))) as Hsame.
    rewrite Hdeduct in Hsame. by apply Hsame.
Qed.

(** C4 as stated fails twice.  A successful chat call records its deduction
    in [ai_interactions] and appends nothing to [credit_transactions]; and
    when the language model fails, [LangGraphAgent.call] answers with an
    apology instead of raising, so the call is charged and logged all the
    same. *)
Lemma chat_call_ledger_counterexample :
  let request := {| cr_user_id := "alice"; cr_agent_id := "guide"; cr_message := "hello" |} in
  (let out := run (chat_endpoint Sample.env request "alice") Sample.store in
   fst out = Ok {| resp_message := "Hello, how can I help?"; resp_agent_id := "guide";
                   resp_tokens_used := 5; resp_credits_remaining := 4 |} ∧
   credit_transactions (w_db (snd out)) = [] ∧
   ¬ ∃ entry, credit_transactions (w_db (snd out))
              = credit_transactions Sample.store ++ [entry])
  ∧
  (let out := run (chat_endpoint Sample.env_llm_down request "alice") Sample.store in
   fst out = Ok {| resp_message :=
                     "I apologize, but I encountered an error processing your request.";
                   resp_agent_id := "guide";
                   resp_tokens_used := 0; resp_credits_remaining := 4 |} ∧
   stored_balance Sample.store "alice" "chatCredits" = Some 5 ∧
   stored_balance (w_db (snd out)) "alice" "chatCredits" = Some 4 ∧
   length (ai_interactions (w_db (snd out))) = 1%nat).
Proof.
  split.
  - split; [reflexivity |]. split; [reflexivity |].
    intros [entry Hentry]. discriminate Hentry.
  - repeat split; reflexivity.
Qed.

(** C5 (as amended).  The calls of a chat request are made in this order,
    stopping at the first failure: rate limiter, identity match, balance
    read and pre-check, access check, agent lookup, provider, conditional
    deduct, interaction log.  A request that passes the limiter, the
    identity match and the pre-check but is denied access is answered 403
    after the balance was read; and no request that is denied access
    succeeds, reaches the provider or changes the store.  Step by step: a
    request refused by the limiter is answered 429 and nothing else is
    called; one with another user's id is answered 403 after the identity
    match; one without an account 404, and one with too small a balance
    402, after the balance read; and a request that passes the access check
    reaches the agent, the provider and the deduction, and is answered 402
    with the store unchanged and no interaction logged when the deduction
    fails, and with the reply, the deducted balance and the logged
    interaction when it succeeds. *)
Theorem chat_call_step_order
    (env : Env) (chat_request : ChatRequest) (current_user : string) (d : db) :
  let user_id := cr_user_id chat_request in
  let agent_id := cr_agent_id chat_request in
  let cost := chat_credit_cost (settings env) in
  let result := fst (run (chat_endpoint env chat_request current_user) d) in
  let w := snd (run (chat_endpoint env chat_request current_user) d) in
  w_trace w `prefix_of`
    [EvRateLimit; EvIdentity; EvGetUserCredits user_id; EvCheckAccess user_id agent_id;
     EvGetAgent agent_id; EvProvider; EvDeduct user_id "chat" cost;
     EvLogInteraction user_id] ∧
  (∀ user_credits,
     limiter_allows env = true →
     user_id = current_user →
     FirestoreService.get_user_credits (settings env) (now env) d user_id
       = Some user_credits →
     cost ≤ chat_credits user_credits →
     FirestoreService.check_user_agent_access (now env) d user_id agent_id = false →
     result = HTTPException 403 "Access denied to this AI agent" ∧
     w_db w = d ∧
     w_trace w = [EvRateLimit; EvIdentity; EvGetUserCredits user_id;
                  EvCheckAccess user_id agent_id]) ∧
  (FirestoreService.check_user_agent_access (now env) d user_id agent_id = false →
     (∀ response, result ≠ Ok response) ∧
     w_db w = d ∧
     EvProvider ∉ w_trace w) ∧
  (limiter_allows env = false →
     result = HTTPException 429 "Rate limit exceeded" ∧
     w_db w = d ∧
     w_trace w = [EvRateLimit]) ∧
  (limiter_allows env = true →
     user_id ≠ current_user →
     result = HTTPException 403 "User ID mismatch" ∧
     w_db w = d ∧
     w_trace w = [EvRateLimit; EvIdentity]) ∧
  (limiter_allows env = true →
     user_id = current_user →
     FirestoreService.get_user_credits (settings env) (now env) d user_id = None →
     result = HTTPException 404 "User not found" ∧
     w_db w = d ∧
     w_trace w = [EvRateLimit; EvIdentity; EvGetUserCredits user_id]) ∧
  (∀ user_credits,
     limiter_allows env = true →
     user_id = current_user →
     FirestoreService.get_user_credits (settings env) (now env) d user_id
       = Some user_credits →
     chat_credits user_credits < cost →
     result = HTTPException 402
                ("Insufficient chat credits. Required: " +:+ pretty cost
                 +:+ ", Available: " +:+ pretty (chat_credits user_credits)) ∧
     w_db w = d ∧
     w_trace w = [EvRateLimit; EvIdentity; EvGetUserCredits user_id]) ∧
  (∀ user_credits,
     limiter_allows env = true →
     user_id = current_user →
     FirestoreService.get_user_credits (settings env) (now env) d user_id
       = Some user_credits →
     cost ≤ chat_credits user_credits →
     FirestoreService.check_user_agent_access (now env) d user_id agent_id = true →
     ∃ agent,
       FirestoreService.get_agent_personality (now env) d agent_id = Some agent ∧
       let reply := LangGraphAgent.call (llm env) agent (cr_message chat_request) in
       let tokens := default 0 (LangGraphAgent.md_tokens_used (snd reply)) in
       let deducted := FirestoreService.deduct_credits (now env) d user_id "chat" cost in
       if fst (fst deducted) then
         result = Ok {| resp_message := fst reply; resp_agent_id := agent_id;
                        resp_tokens_used := tokens;
                        resp_credits_remaining := snd (fst deducted) |} ∧
         w_db w = FirestoreService.log_ai_interaction (now env) (snd deducted)
                    user_id agent_id "chat" tokens cost ∧
         w_trace w = [EvRateLimit; EvIdentity; EvGetUserCredits user_id;
                      EvCheckAccess user_id agent_id; EvGetAgent agent_id; EvProvider;
                      EvDeduct user_id "chat" cost; EvLogInteraction user_id]
       else
         result = HTTPException 402 "Failed to deduct credits" ∧
         w_db w = d ∧
         w_trace w = [EvRateLimit; EvIdentity; EvGetUserCredits user_id;
                      EvCheckAccess user_id agent_id; EvGetAgent agent_id; EvProvider;
                      EvDeduct user_id "chat" cost]).
Proof.
  intros user_id agent_id cost result w. subst user_id agent_id cost result w.
  chat_cases env chat_request d; cbn [app].
  all: split; [by eexists |].
  all: split; [intros uc Hl Hid Huc Hcost Hdenied |].
  all: try congruence.
  all: try (exfalso; simplify_eq; lia).
  all: try (by simplify_eq).
  all: split; [intros Hdenied |].
  all: try congruence.
  all: try (split; [done |]; split; [done |]; not_in_trace).
  all: split; [intros Hl |].
  all: try congruence.
  all: try done.
  all: split; [intros Hl Hid |].
  all: try congruence.
  all: try done.
  all: split; [intros Hl Hid Hnone |].
  all: try congruence.
  all: try done.
  all: split; [intros uc Hl Hid Huc Hpoor' | intros uc Hl Hid Huc Hcost Hgranted].
  all: try congruence.
  all: try (exfalso; simplify_eq; lia).
  all: try (by simplify_eq).
  all: try (apply access_implies_agent in Haccess as [agent Hsome]; congruence).
  all: exists agent_personality; split; [done |].
  all: rewrite ?Hcall; cbn [fst snd]; try done.
  split; [done |]. split; [| done].
  pose proof (deduct_failure_writes_nothing (now env) d (cr_user_id chat_request)
                "chat" (chat_credit_cost (settings env))) as Hsame.
  rewrite Hdeduct in Hsame. by apply Hsame.
Qed.

Lemma chat_call_step_order_witness :
  let request := {| cr_user_id := "alice"; cr_agent_id := "diary"; cr_message := "hello" |} in
  let out := run (chat_endpoint Sample.env request "alice") Sample.store in
  fst out = HTTPException 403 "Access denied to this AI agent" ∧
  w_db (snd out) = Sample.store ∧
  w_trace (snd out) = [EvRateLimit; EvIdentity; EvGetUserCredits "alice";
                       EvCheckAccess "alice" "diary"].
Proof.
  apply (proj1 (proj2 (chat_call_step_order Sample.env
           {| cr_user_id := "alice"; cr_agent_id := "diary"; cr_message := "hello" |}
           "alice" Sample.store))
         {| uc_user_id := "alice"; chat_credits := 5; gen_ai_credits := 1;
            last_reset := 0; subscription_tier := "pro" |});
    [reflexivity | reflexivity | reflexivity | simpl; lia | reflexivity].
Defined.

(** C5 as stated fails: the balance is read before the access check.  A
    user without chat credits who asks for an agent they may not use is
    answered 402 after the balance read, and the access check is never
    made; with credits, the access check follows the balance read. *)
Lemma balance_read_precedes_access_check :
  (let request := {| cr_user_id := "dave"; cr_agent_id := "diary"; cr_message := "hello" |} in
   let out := run (chat_endpoint Sample.env request "dave") Sample.store in
   FirestoreService.check_user_agent_access 1000 Sample.store "dave" "diary" = false ∧
   fst out = HTTPException 402 "Insufficient chat credits. Required: 1, Available: 0" ∧
   w_trace (snd out) = [EvRateLimit; EvIdentity; EvGetUserCredits "dave"] ∧
   EvCheckAccess "dave" "diary" ∉ w_trace (snd out)) ∧
  (let request := {| cr_user_id := "alice"; cr_agent_id := "diary"; cr_message := "hello" |} in
   let out := run (chat_endpoint Sample.env request "alice") Sample.store in
   w_trace (snd out) = [EvRateLimit; EvIdentity; EvGetUserCredits "alice";
                        EvCheckAccess "alice" "diary"] ∧
   ¬ ∃ i j, w_trace (snd out) !! i = Some (EvCheckAccess "alice" "diary") ∧
            w_trace (snd out) !! j = Some (EvGetUserCredits "alice") ∧
            (i < j)%nat).
Proof.
  split.
  - split; [reflexivity |]. split; [reflexivity |]. split; [reflexivity |].
    change (w_trace _) with [EvRateLimit; EvIdentity; EvGetUserCredits "dave"].
    not_in_trace.
  - split; [reflexivity |].
    change (w_trace _) with [EvRateLimit; EvIdentity; EvGetUserCredits "alice";
                             EvCheckAccess "alice" "diary"].
    intros (i & j & Hi & Hj & Hlt).
    destruct j as [| [| [| [| j]]]]; simpl in Hj; try discriminate.
    destruct i as [| [| i]]; simpl in Hi; try discriminate. lia.
Qed.

(** ** Concurrent deductions of one credit *)

Section RaceSafety.

Import Concurrent.

Variables (max_attempts : nat) (now : Z) (user_id credit_type : string) (N : nat).

Local Abbreviation field := (FirestoreService.field_name credit_type).

Lemma holds_balance_inj doc b1 b2 :
  holds_balance credit_type doc b1 → holds_balance credit_type doc b2 → b1 = b2.
Proof.
  intros (data1 & -> & H1) (data2 & [= <-] & H2).
  rewrite H1 in H2. injection H2. lia.
Qed.

Lemma holds_balance_stored (d : db) b :
  holds_balance credit_type (users d !! user_id) b →
  stored_balance d user_id field = Some (Z.of_nat b).
Proof.
  intros (data & Hdata & Hfield). unfold stored_balance.
  rewrite Hdata. simpl. rewrite Hfield. done.
Qed.

Lemma count_requests_insert p (requests : list txn_state) i old t :
  requests !! i = Some old →
  (count_requests p (<[i := t]> requests) + Nat.b2n (p old) =
   count_requests p requests + Nat.b2n (p t))%nat.
Proof.
  unfold count_requests. revert i.
  induction requests as [| x requests IH]; intros [| i] Hi; simplify_eq/=.
  - destruct (p old), (p t); simpl; lia.
  - specialize (IH _ Hi). destruct (p x); simpl; lia.
Qed.

Lemma count_requests_pos p (requests : list txn_state) :
  (0 < count_requests p requests)%nat → ∃ t, t ∈ requests ∧ p t = true.
Proof.
  unfold count_requests.
  induction requests as [| t requests IH]; simpl; [lia |].
  destruct (p t) eqn:Ht.
  - intros _. exists t. split; [apply list_elem_of_here | done].
  - intros Hpos. destruct (IH Hpos) as (t' & Hin & Ht').
    exists t'. split; [by apply list_elem_of_further | done].
Qed.

Lemma update_credits_on_balance snapshot b :
  holds_balance credit_type snapshot b →
  FirestoreService.update_credits credit_type 1 now snapshot =
    match b with
    | O => FirestoreService.TxnReturn (false, 0) []
    | S b' =>
        FirestoreService.TxnReturn (true, Z.of_nat b')
          [(field, VInt (Z.of_nat b'));
           ("last" +:+ capitalize credit_type +:+ "CreditUsed", VTime now)]
    end.
Proof.
  intros (data & -> & Hb). unfold FirestoreService.update_credits, dict_get.
  rewrite Hb. simpl as_int. cbv iota.
  destruct b as [| b'].
  - done.
  - destruct (Z.ltb_spec (Z.of_nat (S b')) 1) as [Hlt | _]; [lia |].
    replace (Z.of_nat (S b') - 1) with (Z.of_nat b') by lia. done.
Qed.

Lemma commit_holds_balance (d : db) b b' t :
  holds_balance credit_type (users d !! user_id) b →
  holds_balance credit_type
    (users (FirestoreService.commit_writes user_id
              [(field, VInt (Z.of_nat b'));
               ("last" +:+ capitalize credit_type +:+ "CreditUsed", VTime t)] d)
       !! user_id) b'.
Proof.
  intros (data & Hdata & _). unfold FirestoreService.commit_writes, set_users. simpl.
  rewrite lookup_alter_eq, Hdata. simpl. eexists. split; [done |].
  rewrite lookup_insert_ne by (apply not_eq_sym, field_name_not_stamp).
  apply lookup_insert_eq.
Qed.

(** A write of the document keeps what holds of the other requests. *)
Lemma request_ok_after_write current current' version b t :
  request_ok max_attempts credit_type current version (S b) t →
  request_ok max_attempts credit_type current' (S version) b t.
Proof.
  destruct t as [attempt | snapshot read_version attempt | [success r] |]; simpl.
  - lia.
  - intros (Hsnap & Hv & _ & Ha). split; [done |]. split; [lia |]. split; [lia | done].
  - intros Hb Hfalse. specialize (Hb Hfalse). lia.
  - lia.
Qed.

Lemma init_invariant (d : db) n :
  holds_balance credit_type (users d !! user_id) N →
  race_invariant max_attempts user_id credit_type N (init d n).
Proof.
  intros Hb. exists N. split; [done |].
  assert (Hcount : count is_success (init d n) = 0%nat).
  { unfold count, count_requests, init. simpl.
    induction n as [| n IH]; simpl in *; lia. }
  split; [lia |]. split; [by rewrite Hcount |].
  simpl. apply Forall_replicate. simpl. lia.
Qed.

Lemma step_invariant (c : cstate) i :
  race_invariant max_attempts user_id credit_type N c →
  race_invariant max_attempts user_id credit_type N
    (step max_attempts now user_id credit_type 1 c i).
Proof.
  intros (b & Hb & Hsum & Hversion & Hall). unfold step.
  destruct (c_requests c !! i) as [[attempt | snapshot v attempt | ret |] |] eqn:Hi;
    [| | by exists b | by exists b | by exists b].
  - (* the next attempt begins, if one is left *)
    pose proof (Forall_lookup_1 _ _ _ _ Hall Hi) as Hattempt. simpl in Hattempt.
    case_bool_decide as Hleft.
    + exists b. unfold count in *. cbn [set_request c_db c_version c_requests].
      pose proof (count_requests_insert is_success _ i _
                    (TxnRead (users (c_db c) !! user_id) (c_version c) attempt) Hi) as Hc.
      simpl in Hc.
      split; [done |]. split; [lia |]. split; [lia |].
      apply Forall_insert; [done |]. simpl.
      split; [by exists b |]. split; [lia |]. split; [done | lia].
    + exists b. unfold count in *. cbn [set_request c_db c_version c_requests].
      pose proof (count_requests_insert is_success _ i _ TxnFailed Hi) as Hc.
      simpl in Hc.
      split; [done |]. split; [lia |]. split; [lia |].
      apply Forall_insert; [done |]. simpl. lia.
  - (* the body runs on the snapshot and the commit is tried *)
    pose proof (Forall_lookup_1 _ _ _ _ Hall Hi) as Hread. simpl in Hread.
    destruct Hread as ((b' & Hsnap) & Hv & Hcurrent & Hattempt).
    rewrite (update_credits_on_balance _ _ Hsnap).
    assert (Hretry : race_invariant max_attempts user_id credit_type N
                       (set_request i (TxnPending (S attempt)) c) ∨ v = c_version c).
    { destruct (decide (v = c_version c)) as [-> | Hstale]; [by right | left].
      exists b. unfold count in *. cbn [set_request c_db c_version c_requests].
      pose proof (count_requests_insert is_success _ i _ (TxnPending (S attempt)) Hi) as Hc.
      simpl in Hc.
      split; [done |]. split; [lia |]. split; [lia |].
      apply Forall_insert; [done |]. simpl. lia. }
    destruct b' as [| b'']; (case_bool_decide as Hsame; [| by destruct Hretry]).
    + (* nothing left: the function returns [False], nothing is written *)
      specialize (Hcurrent Hsame). subst snapshot.
      assert (b = 0%nat) as -> by exact (holds_balance_inj _ _ _ Hb Hsnap).
      exists 0%nat. unfold count in *. cbn [c_db c_version c_requests].
      pose proof (count_requests_insert is_success _ i _ (TxnDone (false, 0)) Hi) as Hc.
      simpl in Hc.
      split; [done |]. split; [lia |]. split; [lia |].
      apply Forall_insert; [done |]. done.
    + (* one credit taken *)
      specialize (Hcurrent Hsame). subst snapshot.
      assert (b = S b'') as -> by exact (holds_balance_inj _ _ _ Hb Hsnap).
      exists b''. unfold count in *. cbn [c_db c_version c_requests].
      pose proof (count_requests_insert is_success _ i _
                    (TxnDone (true, Z.of_nat b'')) Hi) as Hc.
      simpl in Hc.
      split; [by eapply commit_holds_balance |]. split; [lia |]. split; [lia |].
      apply Forall_insert; [| done].
      eapply Forall_impl; [exact Hall |].
      intros t. apply request_ok_after_write.
Qed.

Lemma run_schedule_invariant schedule (c : cstate) :
  race_invariant max_attempts user_id credit_type N c →
  race_invariant max_attempts user_id credit_type N
    (run_schedule max_attempts now user_id credit_type 1 schedule c).
Proof.
  revert c. induction schedule as [| i schedule IH]; intros c Hinv; [done |].
  simpl. apply IH. by apply step_invariant.
Qed.

Lemma step_length amount (c : cstate) i :
  length (c_requests (step max_attempts now user_id credit_type amount c i))
  = length (c_requests c).
Proof.
  unfold step, set_request. repeat case_match; simpl; by rewrite ?length_insert.
Qed.

Lemma run_schedule_length schedule (c : cstate) :
  length (c_requests (run_schedule max_attempts now user_id credit_type 1 schedule c))
  = length (c_requests c).
Proof.
  revert c. induction schedule as [| i schedule IH]; intros c; [done |].
  simpl. rewrite IH. apply step_length.
Qed.

Lemma all_done_counts (requests : list txn_state) :
  forallb is_done requests = true →
  (count_requests is_success requests + count_requests is_insufficient requests
   + count_requests is_failed requests = length requests)%nat.
Proof.
  unfold count_requests.
  induction requests as [| [| ? ? ? | [[] r] |] requests IH]; simpl; intros Hall;
    try done; specialize (IH Hall); simpl; lia.
Qed.

(** A transaction that no other request interferes with does what
    [deduct_credits] does. *)
Lemma transaction_alone amount (c : cstate) i attempt :
  c_requests c !! i = Some (TxnPending attempt) →
  (attempt < max_attempts)%nat →
  let c' := step max_attempts now user_id credit_type amount
              (step max_attempts now user_id credit_type amount c i) i in
  let deducted := FirestoreService.deduct_credits now (c_db c) user_id credit_type amount in
  (∃ t, c_requests c' = <[i := t]> (c_requests c) ∧ answer t = Some (fst deducted)) ∧
  c_db c' = snd deducted.
Proof.
  intros Hi Hleft. pose proof (lookup_lt_Some _ _ _ Hi) as Hlt. cbv zeta.
  assert (Hread : step max_attempts now user_id credit_type amount c i
                  = set_request i (TxnRead (users (c_db c) !! user_id) (c_version c) attempt) c).
  { unfold step. rewrite Hi. by rewrite bool_decide_true. }
  rewrite Hread. unfold step, set_request. cbn [c_requests c_db c_version].
  rewrite list_lookup_insert_eq by done.
  unfold FirestoreService.deduct_credits.
  destruct (FirestoreService.update_credits _ _ _ _) as [ret writes |].
  - rewrite bool_decide_true by done. cbn [c_requests c_db fst snd].
    split; [| done]. exists (TxnDone ret). by rewrite list_insert_insert_eq.
  - cbn [c_requests c_db fst snd].
    split; [| done]. exists TxnFailed. by rewrite list_insert_insert_eq.
Qed.

(** Two moves in a row complete a request that has not begun. *)
Lemma two_moves_complete (c : cstate) i attempt :
  c_requests c !! i = Some (TxnPending attempt) →
  ∃ t, is_done t = true ∧
       c_requests (step max_attempts now user_id credit_type 1
                     (step max_attempts now user_id credit_type 1 c i) i)
       = <[i := t]> (c_requests c).
Proof.
  intros Hi. pose proof (lookup_lt_Some _ _ _ Hi) as Hlt.
  destruct (decide (attempt < max_attempts)%nat) as [Hleft | Hnone].
  - destruct (transaction_alone 1 c i attempt Hi Hleft) as [(t & Hreqs & Hanswer) _].
    exists t. split; [| done]. by destruct t.
  - unfold step at 2. rewrite Hi. rewrite bool_decide_false by done.
    unfold step, set_request. cbn [c_requests].
    rewrite list_lookup_insert_eq by done. cbn [c_requests].
    by exists TxnFailed.
Qed.

Lemma sequential_completes m :
  ∀ (c : cstate) finished,
    c_requests c = finished ++ replicate m (TxnPending 0) →
    forallb is_done finished = true →
    all_done (run_schedule max_attempts now user_id credit_type 1
                (flat_map (fun i => [i; i]) (seq (length finished) m)) c) = true.
Proof.
  induction m as [| m IH]; intros c finished Hreqs Hfinished.
  - simpl. unfold all_done. rewrite Hreqs, app_nil_r. done.
  - cbn [seq flat_map app run_schedule foldl].
    assert (Hi : c_requests c !! length finished = Some (TxnPending 0)).
    { rewrite Hreqs. by apply list_lookup_middle. }
    destruct (two_moves_complete c _ _ Hi) as (t & Ht & Hdone).
    replace (S (length finished)) with (length (finished ++ [t]))
      by (rewrite length_app; simpl; lia).
    apply IH.
    + rewrite Hdone, Hreqs. simpl replicate.
      rewrite insert_app_r_alt by lia. rewrite Nat.sub_diag. simpl.
      by rewrite <- app_assoc.
    + rewrite forallb_app, Hfinished. simpl. by rewrite Ht.
Qed.

End RaceSafety.

(** What the invariant gives for the state a schedule leads to, in terms
    of the numbers of requests that succeeded, were refused for
    insufficient credits and were given up. *)
Lemma race_counts (max_attempts : nat) (now : Z) (d : db) (user_id credit_type : string)
    (data : document) (N n : nat) (schedule : list nat) :
  users d !! user_id = Some data →
  data !! FirestoreService.field_name credit_type = Some (VInt (Z.of_nat N)) →
  let c := Concurrent.run_schedule max_attempts now user_id credit_type 1 schedule
             (Concurrent.init d n) in
  let successes := Concurrent.count Concurrent.is_success c in
  let refused := Concurrent.count Concurrent.is_insufficient c in
  let given_up := Concurrent.count Concurrent.is_failed c in
  ∃ b : nat,
    Concurrent.holds_balance credit_type (users (Concurrent.c_db c) !! user_id) b ∧
    (b + successes = N)%nat ∧
    ((0 < refused)%nat → b = 0%nat) ∧
    ((0 < given_up)%nat → (max_attempts ≤ successes)%nat) ∧
    (Concurrent.all_done c = true → (successes + refused + given_up = n)%nat).
Proof.
  intros Huser Hfield c successes refused given_up.
  assert (Hinit : Concurrent.race_invariant max_attempts user_id credit_type N
                    (Concurrent.init d n)).
  { apply init_invariant. by exists data. }
  pose proof (run_schedule_invariant max_attempts now user_id credit_type N schedule
                _ Hinit) as (b & Hb & Hsum & Hversion & Hall).
  fold c in Hb, Hsum, Hversion, Hall. fold successes in Hsum, Hversion.
  exists b. split; [done |]. split; [done |]. split; [| split].
  - intros Hpos. destruct (count_requests_pos _ _ Hpos) as (t & Hin & Ht).
    pose proof (proj1 (Forall_forall _ _) Hall t Hin) as Hok.
    destruct t as [| | [[] r] |]; try done. by apply Hok.
  - intros Hpos. destruct (count_requests_pos _ _ Hpos) as (t & Hin & Ht).
    pose proof (proj1 (Forall_forall _ _) Hall t Hin) as Hok.
    destruct t as [| | [[] r] |]; try done. simpl in Hok. lia.
  - intros Hdone. pose proof (all_done_counts _ Hdone) as Hcounts.
    pose proof (run_schedule_length max_attempts now user_id credit_type schedule
                  (Concurrent.init d n)) as Hlen.
    fold c in Hlen. simpl in Hlen. rewrite length_replicate in Hlen.
    unfold successes, refused, given_up, Concurrent.count. lia.
Qed.

(** C6 (as amended).  [N + K] concurrent calls
    [deduct_credits(user, type, 1)] against a balance of [N], each a
    transaction that reads a snapshot, commits only if the document was not
    written since, is run again otherwise and is given up, with the answer
    [(False, 0)], when its attempts are used up.  A transaction that is
    left alone does what [deduct_credits] does.  Some schedule completes
    all requests.  Under every schedule the stored balance is [N] less the
    number of successes, so at most [N] succeed; the function returns
    [False] only once the balance is used up; and a request is given up
    only after as many successful deductions as the runner has attempts.
    When all requests are completed and none was given up, which is always
    so when [N] is below the number of attempts, exactly [N] have succeeded
    and [K] were refused for insufficient credits, the balance ending at 0
    when [K > 0]. *)
Theorem concurrent_deductions_race_safe
    (max_attempts : nat) (now : Z) (d : db) (user_id credit_type : string)
    (data : document) (N K : nat) :
  users d !! user_id = Some data →
  data !! FirestoreService.field_name credit_type = Some (VInt (Z.of_nat N)) →
  (∀ (c : Concurrent.cstate) i attempt,
     Concurrent.c_requests c !! i = Some (Concurrent.TxnPending attempt) →
     (attempt < max_attempts)%nat →
     let c' := Concurrent.step max_attempts now user_id credit_type 1
                 (Concurrent.step max_attempts now user_id credit_type 1 c i) i in
     let deducted :=
       FirestoreService.deduct_credits now (Concurrent.c_db c) user_id credit_type 1 in
     (Concurrent.c_requests c' !! i ≫= Concurrent.answer) = Some (fst deducted) ∧
     Concurrent.c_db c' = snd deducted) ∧
  (∃ schedule,
     Concurrent.all_done
       (Concurrent.run_schedule max_attempts now user_id credit_type 1 schedule
          (Concurrent.init d (N + K))) = true) ∧
  (∀ schedule,
     let c := Concurrent.run_schedule max_attempts now user_id credit_type 1 schedule
                (Concurrent.init d (N + K)) in
     let successes := Concurrent.count Concurrent.is_success c in
     let refused := Concurrent.count Concurrent.is_insufficient c in
     let given_up := Concurrent.count Concurrent.is_failed c in
     (successes ≤ N)%nat ∧
     stored_balance (Concurrent.c_db c) user_id (FirestoreService.field_name credit_type)
       = Some (Z.of_nat (N - successes)) ∧
     ((0 < refused)%nat → successes = N) ∧
     ((0 < given_up)%nat → (max_attempts ≤ successes)%nat) ∧
     ((N < max_attempts)%nat → given_up = 0%nat) ∧
     (Concurrent.all_done c = true →
        (successes + refused + given_up = N + K)%nat ∧
        (given_up = 0%nat →
           successes = N ∧ refused = K ∧
           ((0 < K)%nat →
            stored_balance (Concurrent.c_db c) user_id
              (FirestoreService.field_name credit_type) = Some 0)))).
Proof.
  intros Huser Hfield. split; [| split].
  - intros c i attempt Hi Hleft.
    destruct (transaction_alone max_attempts now user_id credit_type 1 c i attempt Hi Hleft)
      as [(t & Hreqs & Hanswer) Hdb].
    cbv zeta. split; [| done].
    rewrite Hreqs, list_lookup_insert_eq by (by eapply lookup_lt_Some). done.
  - exists (Concurrent.sequential (N + K)).
    apply (sequential_completes max_attempts now user_id credit_type (N + K) _ []); done.
  - intros schedule c successes refused given_up.
    destruct (race_counts max_attempts now d user_id credit_type data N (N + K) schedule
                Huser Hfield) as (b & Hb & Hsum & Hrefused & Hgiven & Hdone).
    fold c in Hb, Hsum, Hrefused, Hgiven, Hdone.
    fold successes in Hsum, Hgiven, Hdone. fold refused in Hrefused, Hdone.
    fold given_up in Hgiven, Hdone.
    pose proof (holds_balance_stored user_id credit_type _ _ Hb) as Hstored.
    split; [lia |].
    split; [rewrite Hstored; do 2 f_equal; lia |].
    split; [intros Hpos; specialize (Hrefused Hpos); lia |].
    split; [done |].
    split; [intros Hsmall; destruct given_up; [done | lia] |].
    intros Hall. specialize (Hdone Hall).
    split; [lia |]. intros Hnone.
    destruct refused as [| refused'].
    + split; [lia |]. split; [lia |]. lia.
    + specialize (Hrefused ltac:(lia)). subst b.
      split; [lia |]. split; [lia |]. intros _. by rewrite Hstored.
Qed.

Lemma concurrent_deductions_race_safe_witness :
  let c := Concurrent.run_schedule Concurrent.default_max_attempts 7 "alice" "genai" 1
             [0; 1; 0; 1; 1; 1]%nat (Concurrent.init Sample.store (1 + 1)) in
  let successes := Concurrent.count Concurrent.is_success c in
  let refused := Concurrent.count Concurrent.is_insufficient c in
  let given_up := Concurrent.count Concurrent.is_failed c in
  (successes ≤ 1)%nat ∧
  stored_balance (Concurrent.c_db c) "alice" (FirestoreService.field_name "genai")
    = Some (Z.of_nat (1 - successes)) ∧
  ((0 < refused)%nat → successes = 1%nat) ∧
  ((0 < given_up)%nat → (Concurrent.default_max_attempts ≤ successes)%nat) ∧
  ((1 < Concurrent.default_max_attempts)%nat → given_up = 0%nat) ∧
  (Concurrent.all_done c = true →
     (successes + refused + given_up = 1 + 1)%nat ∧
     (given_up = 0%nat →
        successes = 1%nat ∧ refused = 1%nat ∧
        ((0 < 1)%nat →
         stored_balance (Concurrent.c_db c) "alice" (FirestoreService.field_name "genai")
           = Some 0))).
Proof.
  apply (proj2 (proj2 (concurrent_deductions_race_safe Concurrent.default_max_attempts
                         7 Sample.store "alice" "genai" Sample.alice 1 1
                         eq_refl eq_refl))
           [0; 1; 0; 1; 1; 1]%nat).
Defined.

(** C6 as stated fails when the balance reaches the number of attempts of
    the transaction.  With 6 chat credits and 7 requests, requests 0 and 6
    read first and each of the requests 1 to 5 then commits between their
    read and their commit: both are refused five times and given up.  All
    requests are completed, only 5 have succeeded, none has met an empty
    balance, and one credit is left. *)
Lemma contended_deductions_given_up :
  let d := snd (CreditManager.add_credits 1 Sample.store "alice" "chat" 1 "bonus") in
  let c := Concurrent.run_schedule Concurrent.default_max_attempts 7 "alice" "chat" 1
             (Concurrent.contended 0 6 [1; 2; 3; 4; 5]%nat) (Concurrent.init d (6 + 1)) in
  stored_balance d "alice" "chatCredits" = Some 6 ∧
  Concurrent.all_done c = true ∧
  Concurrent.count Concurrent.is_success c = 5%nat ∧
  Concurrent.count Concurrent.is_insufficient c = 0%nat ∧
  Concurrent.count Concurrent.is_failed c = 2%nat ∧
  (Concurrent.c_requests c !! 0%nat ≫= Concurrent.answer) = Some (false, 0) ∧
  (Concurrent.c_requests c !! 6%nat ≫= Concurrent.answer) = Some (false, 0) ∧
  stored_balance (Concurrent.c_db c) "alice" "chatCredits" = Some 1.
Proof. repeat split; reflexivity. Qed.

(** * Further properties *)

(** ** What the balance operations write *)

Lemma update_two_fields (data : document) k1 v1 k2 v2 is_key :
  is_key ≠ k1 → is_key ≠ k2 →
  update_fields [(k1, v1); (k2, v2)] data !! is_key = data !! is_key.
Proof. intros H1 H2. simpl. by rewrite !lookup_insert_ne. Qed.

Lemma deduct_credits_store now d user_id credit_type amount :
  snd (FirestoreService.deduct_credits now d user_id credit_type amount) = d ∨
  ∃ n, snd (FirestoreService.deduct_credits now d user_id credit_type amount) =
       set_users (alter (update_fields
         [(FirestoreService.field_name credit_type, VInt n);
          ("last" +:+ capitalize credit_type +:+ "CreditUsed", VTime now)]) user_id) d.
Proof.
  unfold FirestoreService.deduct_credits, FirestoreService.update_credits.
  repeat case_match; simplify_eq; simpl; eauto.
Qed.

(** X1.  [deduct_credits] writes at most two fields of the document of the
    user it is called for, the balance field and the time stamp of the
    use: every other field of that document, every other user document,
    the agents and both logs are left as they were, and no user document
    is created. *)
Theorem deduct_credits_frame
    (now : Z) (d : db) (user_id credit_type : string) (amount : Z) :
  let d' := snd (FirestoreService.deduct_credits now d user_id credit_type amount) in
  ai_agents d' = ai_agents d ∧
  ai_interactions d' = ai_interactions d ∧
  credit_transactions d' = credit_transactions d ∧
  (∀ other, other ≠ user_id → users d' !! other = users d !! other) ∧
  (users d !! user_id = None → users d' !! user_id = None) ∧
  (∀ data, users d !! user_id = Some data →
     ∃ data', users d' !! user_id = Some data' ∧
       ∀ key, key ≠ FirestoreService.field_name credit_type →
              key ≠ "last" +:+ capitalize credit_type +:+ "CreditUsed" →
              data' !! key = data !! key).
Proof.
  intros d'. subst d'.
  destruct (deduct_credits_store now d user_id credit_type amount) as [-> | [n ->]].
  - repeat split; try done. intros data Hdata. by exists data.
  - cbn [set_users users ai_agents ai_interactions credit_transactions].
    split; [done |]. split; [done |]. split; [done |]. split; [| split].
    + intros other Hother. by rewrite lookup_alter_ne.
    + intros Hnone. by rewrite lookup_alter_eq, Hnone.
    + intros data Hdata. rewrite lookup_alter_eq, Hdata. cbn [fmap option_fmap option_map].
      eexists. split; [done |]. intros key Hk1 Hk2. by apply update_two_fields.
Qed.

(** X2.  [add_credits] on a user whose document holds a number for the
    credit type (a missing field counts as 0) answers [True], stores
    exactly [current + amount] and appends exactly one entry to
    [credit_transactions], of type "add" and with the amount and reason
    given; on a user without a document it answers [False] and neither
    writes nor logs. *)
Theorem add_credits_adds_and_logs
    (now : Z) (d : db) (user_id credit_type reason : string) (amount : Z) :
  (∀ data current,
     users d !! user_id = Some data →
     as_int (dict_get data (FirestoreService.field_name credit_type) (VInt 0))
       = Some current →
     let '(ok, d') := CreditManager.add_credits now d user_id credit_type amount reason in
     ok = true ∧
     stored_balance d' user_id (FirestoreService.field_name credit_type)
       = Some (current + amount) ∧
     credit_transactions d' =
       credit_transactions d ++
       [ {| ct_userId := user_id; ct_creditType := credit_type; ct_amount := amount;
            ct_type := "add"; ct_reason := reason; ct_timestamp := now |} ] ∧
     ai_interactions d' = ai_interactions d ∧
     (∀ other, other ≠ user_id → users d' !! other = users d !! other)) ∧
  (users d !! user_id = None →
     CreditManager.add_credits now d user_id credit_type amount reason = (false, d)).
Proof.
  split.
  - intros data current Huser Hcur. unfold CreditManager.add_credits.
    rewrite Huser, Hcur.
    unfold CreditManager._log_credit_transaction, set_users.
    cbn [users ai_agents ai_interactions credit_transactions].
    split; [done |]. split; [| split; [done | split; [done |]]].
    + unfold stored_balance. cbn [users].
      rewrite lookup_alter_eq, Huser. cbn [fmap option_fmap option_map mbind option_bind].
      unfold update_fields.
      rewrite lookup_insert_ne by (apply not_eq_sym, field_name_not_stamp).
      by rewrite lookup_insert_eq.
    + intros other Hother. by rewrite lookup_alter_ne.
  - intros Huser. unfold CreditManager.add_credits. by rewrite Huser.
Qed.

Lemma add_credits_adds_and_logs_witness :
  let '(ok, d') := CreditManager.add_credits 9 Sample.store "bob" "chat" 10 "purchase" in
  ok = true ∧
  stored_balance d' "bob" (FirestoreService.field_name "chat") = Some (0 + 10) ∧
  credit_transactions d' =
    credit_transactions Sample.store ++
    [ {| ct_userId := "bob"; ct_creditType := "chat"; ct_amount := 10;
         ct_type := "add"; ct_reason := "purchase"; ct_timestamp := 9 |} ] ∧
  ai_interactions d' = ai_interactions Sample.store ∧
  (∀ other, other ≠ "bob"%string → users d' !! other = users Sample.store !! other).
Proof.
  apply (proj1 (add_credits_adds_and_logs 9 Sample.store "bob" "chat" "purchase" 10)
           Sample.bob 0); reflexivity.
Defined.

(** X3.  Adding an amount and then deducting the same amount brings a
    non-negative stored balance back to where it was: the deduction
    succeeds and reports the original balance. *)
Theorem add_then_deduct_round_trip
    (now1 now2 : Z) (d : db) (user_id credit_type reason : string)
    (data : document) (current amount : Z) :
  users d !! user_id = Some data →
  data !! FirestoreService.field_name credit_type = Some (VInt current) →
  0 ≤ current →
  let d1 := snd (CreditManager.add_credits now1 d user_id credit_type amount reason) in
  let '(ok, remaining, d2) :=
    FirestoreService.deduct_credits now2 d1 user_id credit_type amount in
  ok = true ∧ remaining = current ∧
  stored_balance d2 user_id (FirestoreService.field_name credit_type) = Some current.
Proof.
  intros Huser Hfield Hcur d1.
  assert (Hd1 : ∃ data1, users d1 !! user_id = Some data1 ∧
            data1 !! FirestoreService.field_name credit_type = Some (VInt (current + amount))).
  { subst d1. unfold CreditManager.add_credits, dict_get. rewrite Huser, Hfield.
    unfold CreditManager._log_credit_transaction, set_users.
    cbn [as_int snd users].
    rewrite lookup_alter_eq, Huser. cbn [fmap option_fmap option_map].
    eexists. split; [done |]. unfold update_fields.
    rewrite lookup_insert_ne by (apply not_eq_sym, field_name_not_stamp).
    by rewrite lookup_insert_eq. }
  destruct Hd1 as (data1 & Hu1 & Hf1).
  rewrite (deduct_sufficient now2 d1 user_id credit_type amount data1 (current + amount)
             Hu1 Hf1) by lia.
  split; [done |]. split; [lia |].
  unfold stored_balance, set_users. cbn [users].
  rewrite lookup_insert_eq. cbn [mbind option_bind].
  rewrite lookup_insert_ne by (apply not_eq_sym, field_name_not_stamp).
  rewrite lookup_insert_eq. cbn [mbind option_bind as_int]. f_equal. lia.
Qed.

Lemma add_then_deduct_round_trip_witness :
  let d1 := snd (CreditManager.add_credits 1 Sample.store "alice" "chat" 7 "purchase") in
  let '(ok, remaining, d2) := FirestoreService.deduct_credits 2 d1 "alice" "chat" 7 in
  ok = true ∧ remaining = 5 ∧
  stored_balance d2 "alice" (FirestoreService.field_name "chat") = Some 5.
Proof.
  apply (add_then_deduct_round_trip 1 2 Sample.store "alice" "chat" "purchase"
           Sample.alice 5 7); [reflexivity | reflexivity | lia].
Defined.

(** ** First use of an account *)

Lemma validate_credits_nonneg n : 0 ≤ n → validate_credits (VInt n) = Some n.
Proof.
  intros Hn. unfold validate_credits. simpl.
  destruct (Z.leb_spec 0 n); [done | lia].
Qed.

Lemma get_user_credits_new (s : Settings) (now now' : Z) (user_id : string) (chat gen : Z)
    (d : db) :
  0 ≤ chat → 0 ≤ gen →
  users d !! user_id = Some (new_user_data now user_id chat gen) →
  FirestoreService.get_user_credits s now' d user_id =
    Some {| uc_user_id := user_id; chat_credits := chat; gen_ai_credits := gen;
            last_reset := now; subscription_tier := "free" |}.
Proof.
  intros Hc Hg Hdoc. unfold FirestoreService.get_user_credits. rewrite Hdoc.
  change (dict_get (new_user_data now user_id chat gen) "chatCredits" _) with (VInt chat).
  change (dict_get (new_user_data now user_id chat gen) "genAICredits" _) with (VInt gen).
  change (dict_get (new_user_data now user_id chat gen) "lastCreditReset" _) with (VTime now).
  change (dict_get (new_user_data now user_id chat gen) "subscriptionTier" _)
    with (VStr "free").
  by rewrite !validate_credits_nonneg.
Qed.

(** X4.  [initialize_user_credits] creates the document of a user who has
    none, and afterwards [get_user_credits] reports exactly the two
    balances given (when they are not negative), the tier "free" and the
    time of creation, and the balance fields that [deduct_credits] reads
    hold the same numbers; a document that exists is never overwritten, so
    a second call changes nothing. *)
Theorem initialize_user_credits_round_trip
    (s : Settings) (now later : Z) (d : db) (user_id : string) (chat gen : Z) :
  let '(ok, d') := initialize_user_credits now d user_id chat gen in
  ok = true ∧
  (users d !! user_id = None → 0 ≤ chat → 0 ≤ gen →
     FirestoreService.get_user_credits s later d' user_id =
       Some {| uc_user_id := user_id; chat_credits := chat; gen_ai_credits := gen;
               last_reset := now; subscription_tier := "free" |} ∧
     stored_balance d' user_id "chatCredits" = Some chat ∧
     stored_balance d' user_id "genAICredits" = Some gen ∧
     (∀ other, other ≠ user_id → users d' !! other = users d !! other)) ∧
  (is_Some (users d !! user_id) → d' = d) ∧
  (∀ chat2 gen2, initialize_user_credits later d' user_id chat2 gen2 = (true, d')).
Proof.
  unfold initialize_user_credits.
  destruct (users d !! user_id) as [data |] eqn:Huser.
  - split; [done |]. split; [done |]. split; [done |].
    intros chat2 gen2. by rewrite Huser.
  - split; [done |]. split; [| split].
    + intros _ Hc Hg. split; [| split; [| split]].
      * apply (get_user_credits_new s now later user_id chat gen); [done | done |].
        apply lookup_insert_eq.
      * unfold stored_balance, set_users. cbn [users]. by rewrite lookup_insert_eq.
      * unfold stored_balance, set_users. cbn [users]. by rewrite lookup_insert_eq.
      * intros other Hother. unfold set_users. cbn [users]. by rewrite lookup_insert_ne.
    + by intros [? ?].
    + intros chat2 gen2. unfold set_users. cbn [users]. by rewrite lookup_insert_eq.
Qed.

Lemma initialize_user_credits_round_trip_witness :
  let '(ok, d') := initialize_user_credits 10 Sample.store "erin" 25 25 in
  FirestoreService.get_user_credits default_settings 99 d' "erin" =
    Some {| uc_user_id := "erin"; chat_credits := 25; gen_ai_credits := 25;
            last_reset := 10; subscription_tier := "free" |} ∧
  stored_balance d' "erin" "chatCredits" = Some 25 ∧
  stored_balance d' "erin" "genAICredits" = Some 25 ∧
  (∀ other, other ≠ "erin"%string → users d' !! other = users Sample.store !! other).
Proof.
  apply (proj1 (proj2 (initialize_user_credits_round_trip default_settings 10 99
                         Sample.store "erin" 25 25)));
    [reflexivity | lia | lia].
Defined.

(** X5.  [initialize_user] for a user without a document, under settings
    whose free allotments are not negative: the answer carries the free
    allotments and the tier "free", the document is created, and a second
    call answers the same and leaves the store as the first call left
    it. *)
Theorem initialize_user_creates_once
    (env : Env) (d : db) (current_user : string) :
  users d !! current_user = None →
  0 ≤ free_chat_credits_monthly (settings env) →
  0 ≤ free_gen_ai_credits_monthly (settings env) →
  let credits :=
    {| uc_user_id := current_user;
       chat_credits := free_chat_credits_monthly (settings env);
       gen_ai_credits := free_gen_ai_credits_monthly (settings env);
       last_reset := now env; subscription_tier := "free" |} in
  let out := run (initialize_user env current_user) d in
  let d1 := w_db (snd out) in
  fst out = Ok credits ∧
  d1 = set_users (insert current_user
         (new_user_data (now env) current_user
            (free_chat_credits_monthly (settings env))
            (free_gen_ai_credits_monthly (settings env)))) d ∧
  fst (run (initialize_user env current_user) d1) = Ok credits ∧
  w_db (snd (run (initialize_user env current_user) d1)) = d1.
Proof.
  intros Hnew Hc Hg credits out d1.
  assert (Hfirst : FirestoreService.get_user_credits (settings env) (now env) d current_user
                   = None).
  { unfold FirestoreService.get_user_credits. by rewrite Hnew. }
  set (d' := set_users (insert current_user
         (new_user_data (now env) current_user
            (free_chat_credits_monthly (settings env))
            (free_gen_ai_credits_monthly (settings env)))) d).
  assert (Hsecond : FirestoreService.get_user_credits (settings env) (now env) d' current_user
                    = Some credits).
  { apply get_user_credits_new; [done | done |].
    unfold d', set_users. cbn [users]. apply lookup_insert_eq. }
  assert (Hout : out = (Ok credits, {| w_db := d';
                   w_trace := [EvGetUserCredits current_user;
                               EvGetUserCredits current_user] |})).
  { subst out. unfold initialize_user. run_handler. rewrite Hfirst. run_handler.
    unfold initialize_user_credits. rewrite Hnew. run_handler. cbn [negb].
    fold d'. rewrite Hsecond. done. }
  subst d1. rewrite Hout. cbn [fst snd w_db].
  split; [done |]. split; [done |].
  unfold initialize_user. run_handler. rewrite Hsecond. done.
Qed.

Lemma initialize_user_creates_once_witness :
  let credits :=
    {| uc_user_id := "erin"; chat_credits := 25; gen_ai_credits := 25;
       last_reset := 1000; subscription_tier := "free" |} in
  let out := run (initialize_user Sample.env "erin") Sample.store in
  let d1 := w_db (snd out) in
  fst out = Ok credits ∧
  d1 = set_users (insert "erin"%string (new_user_data 1000 "erin" 25 25)) Sample.store ∧
  fst (run (initialize_user Sample.env "erin") d1) = Ok credits ∧
  w_db (snd (run (initialize_user Sample.env "erin") d1)) = d1.
Proof.
  apply (initialize_user_creates_once Sample.env Sample.store "erin");
    [reflexivity | simpl; lia | simpl; lia].
Defined.

Lemma initialize_user_on_document
    (env : Env) (d : db) (current_user : string) (data : document) :
  users d !! current_user = Some data →
  w_db (snd (run (initialize_user env current_user) d)) = d ∧
  match FirestoreService.get_user_credits (settings env) (now env) d current_user with
  | Some existing => fst (run (initialize_user env current_user) d) = Ok existing
  | None => fst (run (initialize_user env current_user) d)
            = HTTPException 500 "Failed to retrieve initialized user credits"
  end.
Proof.
  intros Huser. unfold initialize_user. run_handler.
  destruct (FirestoreService.get_user_credits (settings env) (now env) d current_user)
    as [existing |] eqn:Hget; run_handler; [done |].
  unfold initialize_user_credits. rewrite Huser. run_handler. cbn [negb].
  rewrite Hget. done.
Qed.

(** X6.  [initialize_user] on a user who has a document never writes: when
    [get_user_credits] reports the account the answer is that account,
    and when the document exists but is not a valid account the answer is
    the error 500 "Failed to retrieve initialized user credits"; in both
    cases the store is unchanged. *)
Theorem initialize_user_existing
    (env : Env) (d : db) (current_user : string) (data : document) :
  users d !! current_user = Some data →
  let out := run (initialize_user env current_user) d in
  w_db (snd out) = d ∧
  match FirestoreService.get_user_credits (settings env) (now env) d current_user with
  | Some existing => fst out = Ok existing
  | None => fst out = HTTPException 500 "Failed to retrieve initialized user credits"
  end.
Proof.
  intros Huser out. subst out.
  exact (initialize_user_on_document env d current_user data Huser).
Qed.

Lemma initialize_user_existing_witness :
  let out := run (initialize_user Sample.env "alice") Sample.store in
  w_db (snd out) = Sample.store ∧
  fst out = Ok {| uc_user_id := "alice"; chat_credits := 5; gen_ai_credits := 1;
                  last_reset := 0; subscription_tier := "pro" |}.
Proof.
  apply (initialize_user_existing Sample.env Sample.store "alice" Sample.alice eq_refl).
Defined.

(** X7.  A negative stored balance locks the account.  When one of the two
    credit fields of a user document holds a negative number (which
    [add_credits] with a negative amount can bring about),
    [get_user_credits] reports no account; so the chat handler answers 404
    "User not found", [reset_monthly_credits] answers [False] at any time
    and never restores the allotment, and [initialize_user] answers 500;
    none of them changes the store. *)
Theorem negative_balance_locks_account
    (d : db) (user_id : string) (data : document) (n : Z) :
  users d !! user_id = Some data →
  n < 0 →
  data !! "chatCredits"%string = Some (VInt n) ∨
  data !! "genAICredits"%string = Some (VInt n) →
  (∀ s now, FirestoreService.get_user_credits s now d user_id = None) ∧
  (∀ s now, CreditManager.reset_monthly_credits s now d user_id = (false, d)) ∧
  (∀ env chat_request,
     limiter_allows env = true → cr_user_id chat_request = user_id →
     run (chat_endpoint env chat_request user_id) d =
       (HTTPException 404 "User not found",
        {| w_db := d;
           w_trace := [EvRateLimit; EvIdentity; EvGetUserCredits user_id] |})) ∧
  (∀ env,
     fst (run (initialize_user env user_id) d)
       = HTTPException 500 "Failed to retrieve initialized user credits" ∧
     w_db (snd (run (initialize_user env user_id) d)) = d).
Proof.
  intros Huser Hneg Hfield.
  assert (Hnone : ∀ s now, FirestoreService.get_user_credits s now d user_id = None).
  { intros s now. unfold FirestoreService.get_user_credits. rewrite Huser.
    assert (Hbad : validate_credits (VInt n) = None).
    { unfold validate_credits. simpl. destruct (Z.leb_spec 0 n); [lia | done]. }
    destruct Hfield as [Hf | Hf].
    - unfold dict_get at 1. rewrite Hf, Hbad. done.
    - unfold dict_get. rewrite Hf, Hbad. by repeat case_match. }
  split; [done |]. split; [| split].
  - intros s now. unfold CreditManager.reset_monthly_credits. by rewrite Hnone.
  - intros env chat_request Hlim Hid. unfold chat_endpoint, chat_call. run_handler.
    rewrite Hlim. run_handler. rewrite Hid.
    rewrite bool_decide_false by (intros H; by apply H).
    run_handler. rewrite Hnone. done.
  - intros env.
    pose proof (initialize_user_on_document env d user_id data Huser) as [Hdb Hres].
    rewrite Hnone in Hres. done.
Qed.

Lemma negative_balance_locks_account_witness :
  let d := snd (CreditManager.add_credits 1 Sample.store "alice" "chat" (-10) "adjustment") in
  (∀ s now, FirestoreService.get_user_credits s now d "alice" = None) ∧
  (∀ s now, CreditManager.reset_monthly_credits s now d "alice" = (false, d)) ∧
  (∀ env chat_request,
     limiter_allows env = true → cr_user_id chat_request = "alice"%string →
     run (chat_endpoint env chat_request "alice") d =
       (HTTPException 404 "User not found",
        {| w_db := d;
           w_trace := [EvRateLimit; EvIdentity; EvGetUserCredits "alice"] |})) ∧
  (∀ env,
     fst (run (initialize_user env "alice") d)
       = HTTPException 500 "Failed to retrieve initialized user credits" ∧
     w_db (snd (run (initialize_user env "alice") d)) = d).
Proof.
  apply (negative_balance_locks_account
           (snd (CreditManager.add_credits 1 Sample.store "alice" "chat" (-10) "adjustment"))
           "alice"
           (<["lastChatCreditAdded"%string := VTime 1]>
              (<["chatCredits"%string := VInt (-5)]> Sample.alice))
           (-5));
    [reflexivity | lia | left; reflexivity].
Defined.

(** ** Access to agents *)

(** X8.  The answer 404 "AI agent not found" of the chat handler cannot
    occur: the access check that precedes the lookup already fails (with
    403) for an agent that does not exist or is not valid.  Likewise
    [get_agent_info] answers with the agent's public data exactly when the
    access check passes and with 403 otherwise, and never changes the
    store. *)
Theorem agent_not_found_unreachable
    (env : Env) (d : db) (current_user : string) :
  (∀ chat_request,
     fst (run (chat_endpoint env chat_request current_user) d)
       ≠ HTTPException 404 "AI agent not found") ∧
  (∀ agent_id,
     let out := run (get_agent_info env agent_id current_user) d in
     w_db (snd out) = d ∧
     if FirestoreService.check_user_agent_access (now env) d current_user agent_id
     then ∃ agent,
            FirestoreService.get_agent_personality (now env) d agent_id = Some agent ∧
            fst out = Ok {| info_agent_id := agent_id;
                            info_name := ap_name agent;
                            info_is_public := is_public agent;
                            info_personality_rules_count :=
                              Z.of_nat (length (personality_rules agent)) |}
     else fst out = HTTPException 403 "Access denied to this AI agent").
Proof.
  split.
  - intros chat_request.
    chat_cases env chat_request d; try discriminate.
    apply access_implies_agent in Haccess as [agent Hsome]. congruence.
  - intros agent_id out. subst out. unfold get_agent_info. run_handler.
    destruct (FirestoreService.check_user_agent_access (now env) d current_user agent_id)
      eqn:Haccess; cbn [negb]; run_handler; [| done].
    destruct (access_implies_agent _ _ _ _ Haccess) as [agent Hagent].
    rewrite Hagent. run_handler. split; [done |]. exists agent. split; [done |].
    assert (ap_agent_id agent = agent_id) as ->; [| done].
    revert Hagent. unfold FirestoreService.get_agent_personality.
    repeat case_match; intros; simplify_eq; done.
Qed.

(** ** Tokens and user ids *)

Lemma before_dash_no_dash token : has_dash (before_dash token) = false.
Proof.
  induction token as [| c rest IH]; [done |]. simpl.
  destruct (Ascii.eqb c "-") eqn:Hc; [done |]. simpl. by rewrite Hc.
Qed.

Lemma before_dash_prefix token :
  ∃ rest, token = before_dash token +:+ rest ∧
          (rest = EmptyString ∨ ∃ r, rest = String "-" r).
Proof.
  induction token as [| c token (rest & Heq & Hrest)]; simpl.
  - exists EmptyString. auto.
  - destruct (Ascii.eqb_spec c "-") as [-> | Hc].
    + exists (String "-" token). split; [done |]. right. by eexists.
    + exists rest. split; [| done].
      change (String c token = String c (before_dash token +:+ rest)). congruence.
Qed.

Lemma before_dash_id token : has_dash token = false → before_dash token = token.
Proof.
  induction token as [| c rest IH]; [done |]. simpl.
  destruct (Ascii.eqb c "-"); [done |]. simpl. intros H. by rewrite IH.
Qed.

Lemma verify_request_Ok token user_id :
  verify_request (Some token) = Ok user_id →
  (10 ≤ String.length token)%nat ∧ user_id = before_dash token.
Proof.
  unfold verify_request.
  destruct (String.length token =? 0)%nat eqn:H0; [done |].
  destruct (Nat.ltb_spec (String.length token) 10) as [Hlt | Hge]; [done |].
  simpl. intros [= <-]. split; [done |].
  destruct (has_dash token) eqn:Hd; [done |]. by rewrite before_dash_id.
Qed.

(** X9.  [verify_request] accepts a bearer token only if it has at least
    10 characters, and the user id it returns is the part of the token
    before its first dash: it contains no dash and the token is that id,
    alone or followed by a dash and more.  A token without a dash is its
    own user id.  A shorter token is answered 401 "Could not validate
    credentials" (the message "Invalid authentication token" never gets
    out), and missing credentials 401 "Authorization required". *)
Theorem verify_request_user_id :
  (∀ token user_id,
     verify_request (Some token) = Ok user_id →
     (10 ≤ String.length token)%nat ∧
     has_dash user_id = false ∧
     ∃ rest, token = user_id +:+ rest ∧ (rest = EmptyString ∨ ∃ r, rest = String "-" r)) ∧
  (∀ token, (10 ≤ String.length token)%nat → has_dash token = false →
     verify_request (Some token) = Ok token) ∧
  (∀ token, (String.length token < 10)%nat →
     verify_request (Some token) = HTTPException 401 "Could not validate credentials") ∧
  verify_request None = HTTPException 401 "Authorization required".
Proof.
  split; [| split; [| split]].
  - intros token user_id Hok. apply verify_request_Ok in Hok as [Hlen ->].
    split; [done |]. split; [apply before_dash_no_dash | apply before_dash_prefix].
  - intros token Hlen Hdash. unfold verify_request.
    destruct (Nat.eqb_spec (String.length token) 0) as [H0 | _]; [lia |].
    destruct (Nat.ltb_spec (String.length token) 10) as [Hlt | _]; [lia |].
    simpl. by rewrite Hdash.
  - intros token Hlen. unfold verify_request.
    destruct (Nat.ltb_spec (String.length token) 10) as [_ | Hge]; [| lia].
    by rewrite orb_true_r.
  - done.
Qed.

Lemma verify_request_user_id_witness :
  (10 ≤ String.length "alice-3f2a9c")%nat ∧
  has_dash "alice" = false ∧
  ∃ rest, "alice-3f2a9c"%string = "alice" +:+ rest ∧
          (rest = EmptyString ∨ ∃ r, rest = String "-" r).
Proof.
  apply (proj1 verify_request_user_id "alice-3f2a9c"%string "alice"%string eq_refl).
Defined.

Lemma has_dash_differs a b : has_dash a = true → has_dash b = false → a ≠ b.
Proof. intros Ha Hb ->. congruence. Qed.

(** X10.  A user id that contains a dash cannot use the chat route: the id
    taken from any bearer token has no dash, so the identity match fails.
    Whatever the credentials, the request is never answered with a chat
    response and the store is not changed; with a token of 10 characters
    or more that the limiter lets through, the answer is 403 "User ID
    mismatch". *)
Theorem dashed_user_id_cannot_chat
    (env : Env) (d : db) (chat_request : ChatRequest) (credentials : option string) :
  has_dash (cr_user_id chat_request) = true →
  let out := run (chat_route env credentials chat_request) d in
  (∀ response, fst out ≠ Ok response) ∧
  w_db (snd out) = d ∧
  (∀ token, credentials = Some token → (10 ≤ String.length token)%nat →
     limiter_allows env = true →
     fst out = HTTPException 403 "User ID mismatch").
Proof.
  intros Hdash out. subst out. unfold chat_route, get_current_user.
  destruct (verify_request credentials) as [current_user | code detail] eqn:Hverify.
  - assert (Hne : cr_user_id chat_request ≠ current_user).
    { destruct credentials as [token |]; [| done].
      apply verify_request_Ok in Hverify as [_ ->].
      apply has_dash_differs; [done | apply before_dash_no_dash]. }
    unfold chat_endpoint, chat_call. run_handler.
    destruct (limiter_allows env); run_handler.
    + rewrite bool_decide_true by done. run_handler.
      split; [done |]. split; [done |]. done.
    + split; [done |]. split; [done |]. intros; done.
  - run_handler. split; [done |]. split; [done |].
    intros token -> Hlen _. exfalso.
    revert Hverify. unfold verify_request.
    destruct (Nat.eqb_spec (String.length token) 0) as [H0 | _]; [lia |].
    destruct (Nat.ltb_spec (String.length token) 10) as [Hlt | _]; [lia |].
    done.
Qed.

Lemma dashed_user_id_cannot_chat_witness :
  let request := {| cr_user_id := "6f1c-88a2"; cr_agent_id := "guide";
                    cr_message := "hello" |} in
  let out := run (chat_route Sample.env (Some "6f1c-88a2-token"%string) request)
               Sample.store in
  (∀ response, fst out ≠ Ok response) ∧
  w_db (snd out) = Sample.store ∧
  (∀ token, Some "6f1c-88a2-token"%string = Some token → (10 ≤ String.length token)%nat →
     limiter_allows Sample.env = true →
     fst out = HTTPException 403 "User ID mismatch").
Proof.
  apply (dashed_user_id_cannot_chat Sample.env Sample.store
           {| cr_user_id := "6f1c-88a2"; cr_agent_id := "guide"; cr_message := "hello" |}
           (Some "6f1c-88a2-token"%string)).
  reflexivity.
Defined.

(** X11.  The empty user id owns every agent without an owner.  A token
    that starts with a dash and has 10 characters or more is accepted with
    the empty string as user id; and for every valid agent document that
    has no [ownerId] field, the access check passes for the empty user id,
    whether or not the agent is public or in anybody's team. *)
Theorem empty_user_owns_ownerless_agents :
  (∀ rest, (9 ≤ String.length rest)%nat →
     verify_request (Some (String "-" rest)) = Ok EmptyString) ∧
  (∀ now d agent_id data agent,
     ai_agents d !! agent_id = Some data →
     data !! "ownerId"%string = None →
     FirestoreService.get_agent_personality now d agent_id = Some agent →
     FirestoreService.check_user_agent_access now d EmptyString agent_id = true).
Proof.
  split.
  - intros rest Hlen. unfold verify_request.
    cbn [String.length].
    destruct (Nat.ltb_spec (S (String.length rest)) 10) as [Hlt | _]; [lia |].
    done.
  - intros now d agent_id data agent Hdoc Howner Hagent.
    unfold FirestoreService.check_user_agent_access. rewrite Hagent.
    destruct (is_public agent); [done |].
    assert (owner_id agent = EmptyString) as ->; [| by rewrite bool_decide_true].
    revert Hagent. unfold FirestoreService.get_agent_personality. rewrite Hdoc.
    unfold dict_get at 5. rewrite Howner.
    repeat case_match; intros; simplify_eq/=; done.
Qed.

Lemma empty_user_owns_ownerless_agents_witness :
  let d := {| users := ∅;
              ai_agents := {[ "orphan"%string :=
                                ({[ "name"%string := VStr "Orphan" ]} : document) ]};
              ai_interactions := []; credit_transactions := [] |} in
  verify_request (Some "-0123456789"%string) = Ok EmptyString ∧
  FirestoreService.check_user_agent_access 5 d EmptyString "orphan" = true.
Proof.
  split.
  - apply (proj1 empty_user_owns_ownerless_agents "0123456789"%string). simpl. lia.
  - apply (proj2 empty_user_owns_ownerless_agents 5 _ "orphan"%string
             ({[ "name"%string := VStr "Orphan" ]} : document)
             {| ap_agent_id := "orphan"; ap_name := "Orphan"; personality_rules := [];
                gen_rules := Some []; is_public := false; owner_id := "" |});
      reflexivity.
Defined.

(** ** More on the rate limiter *)

(** X12.  The windows of different users are independent: a check for one
    user leaves the entries of every other user as they were, and its
    answer depends on nothing but that user's own entries. *)
Theorem rate_limit_users_independent
    (s : Settings) (t : Q) (user_requests : gmap string (list Q)) (user_id : string) :
  let '(answer, after) :=
    RateLimitMiddleware._check_rate_limit s t user_requests user_id in
  (∀ other, other ≠ user_id → after !! other = user_requests !! other) ∧
  (∀ user_requests2,
     user_requests2 !! user_id = user_requests !! user_id →
     fst (RateLimitMiddleware._check_rate_limit s t user_requests2 user_id) = answer).
Proof.
  unfold RateLimitMiddleware._check_rate_limit.
  destruct (rate_limit_per_minute s <=? _) eqn:Hfull.
  - split.
    + intros other Hother. by rewrite lookup_insert_ne.
    + intros m2 Hsame. rewrite Hsame, Hfull. done.
  - split.
    + intros other Hother. by rewrite lookup_insert_ne.
    + intros m2 Hsame. rewrite Hsame, Hfull. done.
Qed.

Lemma check_keeps_bound (s : Settings) t (user_requests : gmap string (list Q)) user_id :
  0 ≤ rate_limit_per_minute s →
  map_Forall (fun _ queue => Z.of_nat (length queue) ≤ rate_limit_per_minute s)
    user_requests →
  map_Forall (fun _ queue => Z.of_nat (length queue) ≤ rate_limit_per_minute s)
    (snd (RateLimitMiddleware._check_rate_limit s t user_requests user_id)).
Proof.
  intros Hlimit Hall. unfold RateLimitMiddleware._check_rate_limit.
  destruct (Z.leb_spec (rate_limit_per_minute s)
              (Z.of_nat (length (RateLimitMiddleware.clean_old (t - 60)%Q
                                   (default [] (user_requests !! user_id))))))
    as [Hfull | Hroom]; cbn [snd]; apply map_Forall_insert_2; try done.
  - pose proof (clean_old_length (t - 60)%Q (default [] (user_requests !! user_id))) as Hle.
    destruct (user_requests !! user_id) as [queue |] eqn:Hq; simpl in *.
    + specialize (Hall _ _ Hq). simpl in Hall. lia.
    + lia.
  - rewrite length_app. simpl. lia.
Qed.

(** X13.  The limiter keeps at most [limit] entries per user.  For a limit
    that is not negative, whatever requests arrive, from whichever users
    and with whatever time stamps, every stored window that had at most
    [limit] entries before has at most [limit] entries afterwards; in
    particular this holds from the empty table on. *)
Theorem rate_limit_windows_bounded
    (s : Settings) (requests : list (string * Q))
    (user_requests : gmap string (list Q)) :
  0 ≤ rate_limit_per_minute s →
  map_Forall (fun _ queue => Z.of_nat (length queue) ≤ rate_limit_per_minute s)
    user_requests →
  map_Forall (fun _ queue => Z.of_nat (length queue) ≤ rate_limit_per_minute s)
    (snd (serve_requests s requests user_requests)).
Proof.
  intros Hlimit. revert user_requests.
  induction requests as [| [user_id t] requests IH]; intros user_requests Hall; [done |].
  cbn [serve_requests].
  pose proof (check_keeps_bound s t user_requests user_id Hlimit Hall) as Hstep.
  destruct (RateLimitMiddleware._check_rate_limit s t user_requests user_id) as [r m1].
  specialize (IH m1 Hstep).
  destruct (serve_requests s requests m1) as [rs m2]. done.
Qed.

Lemma rate_limit_windows_bounded_witness :
  map_Forall (fun _ queue => Z.of_nat (length queue) ≤ 5)
    (snd (serve_requests default_settings
            [("alice"%string, 1%Q); ("bob"%string, 2%Q); ("alice"%string, 3%Q)] ∅)).
Proof.
  apply (rate_limit_windows_bounded default_settings
           [("alice"%string, 1%Q); ("bob"%string, 2%Q); ("alice"%string, 3%Q)] ∅).
  - simpl. lia.
  - apply map_Forall_empty.
Defined.

(** *** The window under a clock that does not run backwards *)

Lemma filter_all {A} (p : A → bool) (l : list A) :
  Forall (fun x => p x = true) l → List.filter p l = l.
Proof.
  induction 1 as [| x l Hx _ IH]; simpl; [done |]. by rewrite Hx, IH.
Qed.

Lemma filter_filter_implied {A} (p q : A → bool) (l : list A) :
  (∀ x, p x = true → q x = true) →
  List.filter p (List.filter q l) = List.filter p l.
Proof.
  intros Himp. induction l as [| x l IH]; simpl; [done |].
  destruct (q x) eqn:Hq; simpl.
  - by rewrite IH.
  - destruct (p x) eqn:Hp; [| done]. apply Himp in Hp. congruence.
Qed.

Lemma Forall_list_filter {A} (P : A → Prop) (p : A → bool) (l : list A) :
  Forall P l → Forall P (List.filter p l).
Proof.
  induction 1 as [| x l Hx _ IH]; simpl; [constructor |].
  destruct (p x); [by constructor | done].
Qed.

Lemma monotone_filter (p : Q → bool) (times : list Q) :
  monotone times → monotone (List.filter p times).
Proof.
  induction times as [| t times IH]; simpl; [done |].
  intros [Hall Hmono]. destruct (p t); simpl; [| by apply IH].
  split; [by apply Forall_list_filter | by apply IH].
Qed.

Lemma monotone_snoc (times : list Q) t :
  monotone times → Forall (fun x => (x <= t)%Q) times → monotone (times ++ [t]).
Proof.
  induction times as [| x times IH]; simpl; [by repeat constructor |].
  intros [Hall Hmono] Hle. apply Forall_cons in Hle as [Hx Hle]. split.
  - apply Forall_app. split; [done |]. by repeat constructor.
  - by apply IH.
Qed.

(** With sorted entries, dropping from the front drops every old entry. *)
Lemma clean_old_monotone window_start (queue : list Q) :
  monotone queue →
  RateLimitMiddleware.clean_old window_start queue
  = List.filter (fun x => Qle_bool window_start x) queue.
Proof.
  induction queue as [| t queue IH]; simpl; [done |].
  intros [Hall Hmono]. destruct (Qle_bool window_start t) eqn:Ht.
  - f_equal. symmetry. apply filter_all.
    apply Qle_bool_iff in Ht. eapply Forall_impl; [exact Hall |].
    intros x Hx. apply Qle_bool_iff. by eapply Qle_trans.
  - by apply IH.
Qed.

Lemma in_window_later t1 t2 (times : list Q) :
  (t1 <= t2)%Q → in_window t2 (in_window t1 times) = in_window t2 times.
Proof.
  intros Hle. apply filter_filter_implied. intros x Hx.
  apply Qle_bool_iff in Hx. apply Qle_bool_iff. lra.
Qed.

Lemma in_window_snoc t (times : list Q) :
  in_window t (times ++ [t]) = in_window t times ++ [t].
Proof.
  unfold in_window. rewrite List.filter_app. simpl.
  assert (Qle_bool (t - 60) t = true) as ->; [| done].
  apply Qle_bool_iff. lra.
Qed.

Lemma list_last_cons (t d : Q) (times : list Q) :
  List.last (t :: times) d = List.last times t.
Proof.
  revert t d. induction times as [| x times IH]; intros t d; [done |].
  change (List.last (x :: times) d = List.last (x :: times) t).
  by rewrite (IH x d), (IH x t).
Qed.

Lemma check_requests_window (s : Settings) user_id (times : list Q) :
  0 ≤ rate_limit_per_minute s →
  ∀ (user_requests : gmap string (list Q)) (earlier : list Q) (t_prev : Q),
    default [] (user_requests !! user_id) = in_window t_prev earlier →
    monotone earlier →
    Forall (fun x => (x <= t_prev)%Q) earlier →
    monotone (t_prev :: times) →
    Z.of_nat (length (in_window t_prev earlier)) ≤ rate_limit_per_minute s →
    let '(answers, after) := check_requests s times user_requests user_id in
    let recent := in_window (List.last times t_prev) (earlier ++ admitted times answers) in
    default [] (after !! user_id) = recent ∧
    Z.of_nat (length recent) ≤ rate_limit_per_minute s.
Proof.
  intros Hlimit.
  induction times as [| t times IH];
    intros user_requests earlier t_prev Hq Hmono Hprev Htimes Hlen.
  - simpl. by rewrite app_nil_r.
  - destruct Htimes as [Hafter Htimes].
    pose proof Hafter as Hafter'. apply Forall_cons in Hafter' as [Ht _].
    cbn [check_requests].
    assert (Hclean :
      RateLimitMiddleware.clean_old (t - 60)%Q (default [] (user_requests !! user_id))
      = in_window t earlier).
    { rewrite Hq. rewrite clean_old_monotone by (by apply monotone_filter).
      apply in_window_later. lra. }
    assert (Hbound : Forall (fun x => (x <= t)%Q) earlier).
    { eapply Forall_impl; [exact Hprev |]. intros x Hx. simpl in Hx. lra. }
    unfold RateLimitMiddleware._check_rate_limit. rewrite Hclean.
    destruct (Z.leb_spec (rate_limit_per_minute s)
                (Z.of_nat (length (in_window t earlier)))) as [Hfull | Hroom].
    + specialize (IH (<[user_id := in_window t earlier]> user_requests) earlier t).
      rewrite lookup_insert_eq in IH. cbn [default] in IH.
      specialize (IH eq_refl Hmono Hbound Htimes).
      assert (Hlen' : Z.of_nat (length (in_window t earlier)) ≤ rate_limit_per_minute s).
      { pose proof (in_window_later t_prev t earlier ltac:(lra)) as Hsub.
        assert (length (in_window t (in_window t_prev earlier))
                ≤ length (in_window t_prev earlier))%nat
          by (unfold in_window at 1; apply List.filter_length_le).
        rewrite Hsub in H. lia. }
      specialize (IH Hlen').
      destruct (check_requests s times _ user_id) as [answers after].
      cbn [admitted]. rewrite list_last_cons. done.
    + specialize (IH (<[user_id := in_window t earlier ++ [t]]> user_requests)
                    (earlier ++ [t]) t).
      rewrite lookup_insert_eq in IH. cbn [default] in IH.
      rewrite in_window_snoc in IH.
      specialize (IH eq_refl (monotone_snoc _ _ Hmono Hbound)).
      assert (Hbound' : Forall (fun x => (x <= t)%Q) (earlier ++ [t])).
      { apply Forall_app. split; [done |]. repeat constructor. lra. }
      specialize (IH Hbound' Htimes).
      assert (Hlen' : Z.of_nat (length (in_window t earlier ++ [t]))
                      ≤ rate_limit_per_minute s).
      { rewrite length_app. simpl. lia. }
      specialize (IH Hlen').
      destruct (check_requests s times _ user_id) as [answers after].
      cbn [admitted]. rewrite list_last_cons.
      rewrite <- app_assoc in IH. done.
Qed.

Lemma check_creates_entry (s : Settings) t (user_requests : gmap string (list Q)) user_id :
  is_Some (snd (RateLimitMiddleware._check_rate_limit s t user_requests user_id) !! user_id).
Proof.
  unfold RateLimitMiddleware._check_rate_limit.
  case_match; cbn [snd]; rewrite lookup_insert_eq; eauto.
Qed.

Lemma check_requests_entry (s : Settings) user_id (times : list Q) :
  ∀ user_requests : gmap string (list Q),
    times ≠ [] ∨ is_Some (user_requests !! user_id) →
    is_Some (snd (check_requests s times user_requests user_id) !! user_id).
Proof.
  induction times as [| t times IH]; intros user_requests Hstart.
  - destruct Hstart as [? | ?]; done.
  - cbn [check_requests].
    pose proof (check_creates_entry s t user_requests user_id) as Hentry.
    destruct (RateLimitMiddleware._check_rate_limit s t user_requests user_id) as [r m1].
    specialize (IH m1 (or_intror Hentry)).
    by destruct (check_requests s times m1 user_id).
Qed.

(** X14.  With a clock that does not run backwards and a limit that is not
    negative, a user without earlier entries is never admitted more than
    [limit] times within 60 seconds: after any sequence of checks, the
    admitted requests that are not older than 60 seconds at the time of
    the last check number at most [limit], and they are exactly the
    entries kept for that user. *)
Theorem admitted_requests_within_limit
    (s : Settings) (user_requests : gmap string (list Q)) (user_id : string)
    (t0 : Q) (times : list Q) :
  0 ≤ rate_limit_per_minute s →
  default [] (user_requests !! user_id) = [] →
  monotone (t0 :: times) →
  let '(answers, after) := check_requests s (t0 :: times) user_requests user_id in
  let recent := in_window (List.last times t0) (admitted (t0 :: times) answers) in
  after !! user_id = Some recent ∧
  Z.of_nat (length recent) ≤ rate_limit_per_minute s.
Proof.
  intros Hlimit Hempty Hmono.
  pose proof (check_requests_window s user_id (t0 :: times) Hlimit user_requests [] t0)
    as Hwin.
  rewrite Hempty in Hwin. cbn [in_window List.filter length] in Hwin.
  assert (Hmono' : monotone (t0 :: t0 :: times)).
  { split; [| done]. destruct Hmono as [Hall _]. constructor; [lra | done]. }
  specialize (Hwin eq_refl I ltac:(constructor) Hmono' ltac:(simpl; lia)).
  assert (Hnonempty : t0 :: times ≠ []) by discriminate.
  pose proof (check_requests_entry s user_id (t0 :: times) user_requests
                (or_introl Hnonempty)) as [queue Hqueue].
  destruct (check_requests s (t0 :: times) user_requests user_id) as [answers after].
  rewrite list_last_cons in Hwin. cbn [app snd] in *.
  destruct Hwin as [Hq Hlen]. split; [| done].
  rewrite Hqueue in Hq. cbn [default] in Hq. by rewrite <- Hq.
Qed.

Lemma admitted_requests_within_limit_witness :
  let '(answers, after) :=
    check_requests default_settings [0; 10; 20; 30; 40; 50; 65]%Q ∅ "alice" in
  let recent := in_window (List.last [10; 20; 30; 40; 50; 65]%Q 0%Q)
                  (admitted [0; 10; 20; 30; 40; 50; 65]%Q answers) in
  after !! "alice"%string = Some recent ∧
  Z.of_nat (length recent) ≤ rate_limit_per_minute default_settings.
Proof.
  apply (admitted_requests_within_limit default_settings ∅ "alice" 0%Q
           [10; 20; 30; 40; 50; 65]%Q).
  - simpl. lia.
  - reflexivity.
  - simpl. repeat split; repeat constructor; vm_compute; discriminate.
Defined.

(** ** The chat handler, path by path *)

Lemma get_user_credits_chat_field s now d user_id data v user_credits :
  users d !! user_id = Some data →
  data !! "chatCredits"%string = Some v →
  FirestoreService.get_user_credits s now d user_id = Some user_credits →
  as_int v = Some (chat_credits user_credits).
Proof.
  intros Huser Hfield. unfold FirestoreService.get_user_credits. rewrite Huser.
  unfold dict_get at 1. rewrite Hfield.
  destruct (validate_credits v) as [c |] eqn:Hc; [| done].
  apply validate_credits_Some in Hc as [Hc _].
  repeat case_match; intros; simplify_eq; done.
Qed.

Lemma get_user_credits_gen_field s now d user_id data v user_credits :
  users d !! user_id = Some data →
  data !! "genAICredits"%string = Some v →
  FirestoreService.get_user_credits s now d user_id = Some user_credits →
  as_int v = Some (gen_ai_credits user_credits).
Proof.
  intros Huser Hfield. unfold FirestoreService.get_user_credits. rewrite Huser.
  unfold dict_get at 2. rewrite Hfield.
  destruct (validate_credits v) as [g |] eqn:Hg; [| by repeat case_match].
  apply validate_credits_Some in Hg as [Hg _].
  repeat case_match; intros; simplify_eq; done.
Qed.

(** The run of a chat request that passes every check, for a user whose
    document holds the balance as a number. *)
Lemma chat_run_charged
    (env : Env) (chat_request : ChatRequest) (d : db)
    (data : document) (balance : Z) (user_credits : UserCredits) (agent : AgentPersonality) :
  let user_id := cr_user_id chat_request in
  let agent_id := cr_agent_id chat_request in
  let cost := chat_credit_cost (settings env) in
  let reply := LangGraphAgent.call (llm env) agent (cr_message chat_request) in
  let tokens := default 0 (LangGraphAgent.md_tokens_used (snd reply)) in
  limiter_allows env = true →
  users d !! user_id = Some data →
  data !! "chatCredits"%string = Some (VInt balance) →
  FirestoreService.get_user_credits (settings env) (now env) d user_id = Some user_credits →
  cost ≤ balance →
  FirestoreService.check_user_agent_access (now env) d user_id agent_id = true →
  FirestoreService.get_agent_personality (now env) d agent_id = Some agent →
  run (chat_endpoint env chat_request user_id) d =
    (Ok {| resp_message := fst reply; resp_agent_id := agent_id;
           resp_tokens_used := tokens; resp_credits_remaining := balance - cost |},
     {| w_db :=
          FirestoreService.log_ai_interaction (now env)
            (set_users (insert user_id
               (<["lastChatCreditUsed"%string := VTime (now env)]>
                  (<["chatCredits"%string := VInt (balance - cost)]> data))) d)
            user_id agent_id "chat" tokens cost;
        w_trace := [EvRateLimit; EvIdentity; EvGetUserCredits user_id;
                    EvCheckAccess user_id agent_id; EvGetAgent agent_id; EvProvider;
                    EvDeduct user_id "chat" cost; EvLogInteraction user_id] |}).
Proof.
  intros user_id agent_id cost reply tokens Hlim Huser Hfield Hget Hcost Haccess Hagent.
  subst user_id agent_id cost tokens reply.
  pose proof (get_user_credits_chat_field _ _ _ _ _ _ _ Huser Hfield Hget) as Hbal.
  simpl in Hbal. injection Hbal as Hbal.
  pose proof (deduct_sufficient (now env) d (cr_user_id chat_request) "chat"
                (chat_credit_cost (settings env)) data balance Huser Hfield Hcost) as Hded.
  unfold chat_endpoint, chat_call. run_handler. rewrite Hlim. run_handler.
  rewrite bool_decide_false by (intros H; by apply H). run_handler.
  rewrite Hget. run_handler.
  destruct (Z.ltb_spec (chat_credits user_credits) (chat_credit_cost (settings env)));
    [lia |].
  run_handler. rewrite Haccess. cbn [negb]. run_handler. rewrite Hagent. run_handler.
  destruct (LangGraphAgent.call (llm env) agent (cr_message chat_request))
    as [response_text metadata].
  run_handler. rewrite Hded. run_handler. cbn [negb]. run_handler. done.
Qed.

(** X15.  The chat happy path.  For a request that the limiter admits,
    whose user document holds the chat balance as a number not below the
    chat cost and is a valid account, and whose agent the user may use:
    the answer is the agent's reply with [credits_remaining] equal to the
    balance minus the cost, that same number is the balance now stored,
    and exactly one interaction of type "chat" with the cost as
    [creditsUsed] is appended. *)
Theorem chat_happy_path
    (env : Env) (chat_request : ChatRequest) (d : db)
    (data : document) (balance : Z) (user_credits : UserCredits) :
  let user_id := cr_user_id chat_request in
  let agent_id := cr_agent_id chat_request in
  let cost := chat_credit_cost (settings env) in
  limiter_allows env = true →
  users d !! user_id = Some data →
  data !! "chatCredits"%string = Some (VInt balance) →
  FirestoreService.get_user_credits (settings env) (now env) d user_id = Some user_credits →
  cost ≤ balance →
  FirestoreService.check_user_agent_access (now env) d user_id agent_id = true →
  let out := run (chat_endpoint env chat_request user_id) d in
  ∃ agent,
    FirestoreService.get_agent_personality (now env) d agent_id = Some agent ∧
    let reply := LangGraphAgent.call (llm env) agent (cr_message chat_request) in
    let tokens := default 0 (LangGraphAgent.md_tokens_used (snd reply)) in
    fst out = Ok {| resp_message := fst reply; resp_agent_id := agent_id;
                    resp_tokens_used := tokens;
                    resp_credits_remaining := balance - cost |} ∧
    stored_balance (w_db (snd out)) user_id "chatCredits" = Some (balance - cost) ∧
    ai_interactions (w_db (snd out)) =
      ai_interactions d ++
      [ {| ia_userId := user_id; ia_agentId := agent_id; ia_type := "chat";
           ia_tokensUsed := tokens; ia_creditsUsed := cost;
           ia_timestamp := now env |} ].
Proof.
  intros user_id agent_id cost Hlim Huser Hfield Hget Hcost Haccess out.
  subst user_id agent_id cost out.
  destruct (access_implies_agent _ _ _ _ Haccess) as [agent Hagent].
  exists agent. split; [done |].
  rewrite (chat_run_charged env chat_request d data balance user_credits agent
             Hlim Huser Hfield Hget Hcost Haccess Hagent).
  cbn [fst snd w_db].
  split; [done |]. split; [| done].
  unfold stored_balance, FirestoreService.log_ai_interaction, set_users. cbn [users].
  rewrite lookup_insert_eq. cbn [mbind option_bind].
  rewrite lookup_insert_ne by done. by rewrite lookup_insert_eq.
Qed.

Lemma chat_happy_path_witness :
  let request := {| cr_user_id := "alice"; cr_agent_id := "guide"; cr_message := "hello" |} in
  let out := run (chat_endpoint Sample.env request "alice") Sample.store in
  ∃ agent,
    FirestoreService.get_agent_personality 1000 Sample.store "guide" = Some agent ∧
    let reply := LangGraphAgent.call (llm Sample.env) agent "hello" in
    let tokens := default 0 (LangGraphAgent.md_tokens_used (snd reply)) in
    fst out = Ok {| resp_message := fst reply; resp_agent_id := "guide";
                    resp_tokens_used := tokens;
                    resp_credits_remaining := 5 - 1 |} ∧
    stored_balance (w_db (snd out)) "alice" "chatCredits" = Some (5 - 1) ∧
    ai_interactions (w_db (snd out)) =
      ai_interactions Sample.store ++
      [ {| ia_userId := "alice"; ia_agentId := "guide"; ia_type := "chat";
           ia_tokensUsed := tokens; ia_creditsUsed := 1; ia_timestamp := 1000 |} ].
Proof.
  apply (chat_happy_path Sample.env
           {| cr_user_id := "alice"; cr_agent_id := "guide"; cr_message := "hello" |}
           Sample.store Sample.alice 5
           {| uc_user_id := "alice"; chat_credits := 5; gen_ai_credits := 1;
              last_reset := 0; subscription_tier := "pro" |});
    [reflexivity | reflexivity | reflexivity | reflexivity | simpl; lia | reflexivity].
Defined.

(** X16.  A failed model call is charged like a successful one.  When the
    language model raises, [LangGraphAgent.call] turns the failure into an
    apology, so a chat request that passes every check is answered with
    that apology and zero tokens, and the chat cost is still deducted and
    logged. *)
Theorem failed_model_call_is_charged
    (env : Env) (chat_request : ChatRequest) (d : db)
    (data : document) (balance : Z) (user_credits : UserCredits) (error : string) :
  let user_id := cr_user_id chat_request in
  let agent_id := cr_agent_id chat_request in
  let cost := chat_credit_cost (settings env) in
  (∀ personality message, llm env personality message = LangGraphAgent.LlmError error) →
  limiter_allows env = true →
  users d !! user_id = Some data →
  data !! "chatCredits"%string = Some (VInt balance) →
  FirestoreService.get_user_credits (settings env) (now env) d user_id = Some user_credits →
  cost ≤ balance →
  FirestoreService.check_user_agent_access (now env) d user_id agent_id = true →
  let out := run (chat_endpoint env chat_request user_id) d in
  fst out = Ok {| resp_message :=
                    "I apologize, but I encountered an error processing your request.";
                  resp_agent_id := agent_id;
                  resp_tokens_used := 0;
                  resp_credits_remaining := balance - cost |} ∧
  stored_balance (w_db (snd out)) user_id "chatCredits" = Some (balance - cost) ∧
  ai_interactions (w_db (snd out)) =
    ai_interactions d ++
    [ {| ia_userId := user_id; ia_agentId := agent_id; ia_type := "chat";
         ia_tokensUsed := 0; ia_creditsUsed := cost; ia_timestamp := now env |} ].
Proof.
  intros user_id agent_id cost Hdown Hlim Huser Hfield Hget Hcost Haccess out.
  subst user_id agent_id cost out.
  destruct (access_implies_agent _ _ _ _ Haccess) as [agent Hagent].
  rewrite (chat_run_charged env chat_request d data balance user_credits agent
             Hlim Huser Hfield Hget Hcost Haccess Hagent).
  unfold LangGraphAgent.call. rewrite Hdown. cbn [fst snd w_db default LangGraphAgent.md_tokens_used].
  split; [done |]. split; [| done].
  unfold stored_balance, FirestoreService.log_ai_interaction, set_users. cbn [users].
  rewrite lookup_insert_eq. cbn [mbind option_bind].
  rewrite lookup_insert_ne by done. by rewrite lookup_insert_eq.
Qed.

Lemma failed_model_call_is_charged_witness :
  let request := {| cr_user_id := "alice"; cr_agent_id := "guide"; cr_message := "hello" |} in
  let out := run (chat_endpoint Sample.env_llm_down request "alice") Sample.store in
  fst out = Ok {| resp_message :=
                    "I apologize, but I encountered an error processing your request.";
                  resp_agent_id := "guide";
                  resp_tokens_used := 0;
                  resp_credits_remaining := 5 - 1 |} ∧
  stored_balance (w_db (snd out)) "alice" "chatCredits" = Some (5 - 1) ∧
  ai_interactions (w_db (snd out)) =
    ai_interactions Sample.store ++
    [ {| ia_userId := "alice"; ia_agentId := "guide"; ia_type := "chat";
         ia_tokensUsed := 0; ia_creditsUsed := 1; ia_timestamp := 1000 |} ].
Proof.
  apply (failed_model_call_is_charged Sample.env_llm_down
           {| cr_user_id := "alice"; cr_agent_id := "guide"; cr_message := "hello" |}
           Sample.store Sample.alice 5
           {| uc_user_id := "alice"; chat_credits := 5; gen_ai_credits := 1;
              last_reset := 0; subscription_tier := "pro" |} "503 unavailable");
    [reflexivity | reflexivity | reflexivity | reflexivity | reflexivity
    | simpl; lia | reflexivity].
Defined.

(** X17.  In a chat request served on its own, the late failure 402
    "Failed to deduct credits" never meets a user document that holds an
    integer in [chatCredits]: the document exists and its chat balance is
    missing or is no integer.  And a request on a document without the
    field, where the pre-check reads the free allotment and the deduction
    reads 0, always ends this way when the cost is positive and within the
    free allotment: the provider is called, its reply is discarded and the
    store is unchanged. *)
Theorem late_deduction_failure
    (env : Env) (chat_request : ChatRequest) (current_user : string) (d : db) :
  let user_id := cr_user_id chat_request in
  let agent_id := cr_agent_id chat_request in
  let out := run (chat_endpoint env chat_request current_user) d in
  (fst out = HTTPException 402 "Failed to deduct credits" →
   ∃ data, users d !! user_id = Some data ∧
           ∀ balance, data !! "chatCredits"%string ≠ Some (VInt balance)) ∧
  (∀ data user_credits,
     limiter_allows env = true → user_id = current_user →
     users d !! user_id = Some data →
     data !! "chatCredits"%string = None →
     FirestoreService.get_user_credits (settings env) (now env) d user_id
       = Some user_credits →
     0 < chat_credit_cost (settings env) ≤ free_chat_credits_monthly (settings env) →
     FirestoreService.check_user_agent_access (now env) d user_id agent_id = true →
     fst out = HTTPException 402 "Failed to deduct credits" ∧
     w_db (snd out) = d ∧
     EvProvider ∈ w_trace (snd out)).
Proof.
  intros user_id agent_id out. subst user_id agent_id out. split.
  - chat_cases env chat_request d; try discriminate. intros _.
    destruct (get_user_credits_has_document _ _ _ _ _ Hcredits) as [data Huser].
    exists data. split; [done |]. intros balance Hfield.
    pose proof (get_user_credits_chat_field _ _ _ _ _ _ _ Huser Hfield Hcredits) as Hint.
    revert Hdeduct. unfold FirestoreService.deduct_credits, FirestoreService.update_credits.
    rewrite Huser. change (FirestoreService.field_name "chat") with "chatCredits"%string.
    unfold dict_get. rewrite Hfield, Hint.
    destruct (Z.ltb_spec (chat_credits user_credits) (chat_credit_cost (settings env)));
      [lia | done].
  - intros data uc Hlim Hid Huser Hmiss Hget [Hpos Hfree] Haccess.
    destruct (access_implies_agent _ _ _ _ Haccess) as [agent Hagent].
    assert (Hdefault : chat_credits uc = free_chat_credits_monthly (settings env)).
    { revert Hget. unfold FirestoreService.get_user_credits. rewrite Huser.
      unfold dict_get at 1. rewrite Hmiss.
      destruct (validate_credits (VInt _)) as [c |] eqn:Hc; [| done].
      apply validate_credits_Some in Hc as [[= <-] _].
      repeat case_match; intros; simplify_eq; done. }
    assert (Hded : FirestoreService.deduct_credits (now env) d (cr_user_id chat_request)
                     "chat" (chat_credit_cost (settings env)) = ((false, 0), d)).
    { unfold FirestoreService.deduct_credits, FirestoreService.update_credits.
      rewrite Huser. change (FirestoreService.field_name "chat") with "chatCredits"%string.
      unfold dict_get. rewrite Hmiss. simpl.
      destruct (Z.ltb_spec 0 (chat_credit_cost (settings env))); [done | lia]. }
    unfold chat_endpoint, chat_call. run_handler. rewrite Hlim. run_handler.
    rewrite <- Hid. rewrite bool_decide_false by (intros H; by apply H). run_handler.
    rewrite Hget. run_handler.
    destruct (Z.ltb_spec (chat_credits uc) (chat_credit_cost (settings env))); [lia |].
    run_handler. rewrite Haccess. cbn [negb]. run_handler. rewrite Hagent. run_handler.
    destruct (LangGraphAgent.call (llm env) agent (cr_message chat_request))
      as [response_text metadata].
    run_handler. rewrite Hded. run_handler. cbn [negb]. run_handler.
    split; [done |]. split; [done |]. cbn [app].
    do 5 apply list_elem_of_further. apply list_elem_of_here.
Qed.

Lemma late_deduction_failure_witness :
  let request := {| cr_user_id := "bob"; cr_agent_id := "guide"; cr_message := "hello" |} in
  let out := run (chat_endpoint Sample.env request "bob") Sample.store in
  fst out = HTTPException 402 "Failed to deduct credits" ∧
  w_db (snd out) = Sample.store ∧
  EvProvider ∈ w_trace (snd out).
Proof.
  apply (proj2 (late_deduction_failure Sample.env
                  {| cr_user_id := "bob"; cr_agent_id := "guide"; cr_message := "hello" |}
                  "bob" Sample.store)
           Sample.bob
           {| uc_user_id := "bob"; chat_credits := 25; gen_ai_credits := 25;
              last_reset := 1000; subscription_tier := "free" |});
    [reflexivity | reflexivity | reflexivity | reflexivity | reflexivity
    | simpl; lia | reflexivity].
Defined.

(** ** The generation handler, path by path *)

(** X18.  The generation handler charges only for what it delivered.  In
    every run: an error answer (403, 404 or 402) comes before any provider
    call and leaves the store unchanged; an answer with status FAILED
    carries no media, an error text and zero credits used, and leaves the
    store unchanged; an answer with status COMPLETED carries the media and
    goes with exactly one logged interaction of type "generation" whose
    [creditsUsed] is the computed cost.  No other status is answered. *)
Theorem generation_charges_only_delivered
    (env : Env) (request : GenerateRequest) (current_user : string) (d : db) :
  let cost := StabilityService.get_generation_cost (settings env) (gr_media_type request)
                (gr_duration request) in
  let out := run (generate_content env request current_user) d in
  match fst out with
  | HTTPException code _ =>
      w_db (snd out) = d ∧ (EvProvider ∉ w_trace (snd out)) ∧
      (code = 403 ∨ code = 404 ∨ code = 402)
  | Ok response =>
      match g_status response with
      | FAILED =>
          w_db (snd out) = d ∧ g_credits_used response = 0 ∧
          g_media_url response = None ∧ is_Some (g_error response)
      | COMPLETED =>
          is_Some (g_media_url response) ∧ g_credits_used response = cost ∧
          ai_interactions (w_db (snd out)) =
            ai_interactions d ++
            [ {| ia_userId := gr_user_id request; ia_agentId := "stability-ai";
                 ia_type := "generation"; ia_tokensUsed := 0; ia_creditsUsed := cost;
                 ia_timestamp := now env |} ] ∧
          credit_transactions (w_db (snd out)) = credit_transactions d
      | _ => False
      end
  end.
Proof.
  intros cost out. subst cost out. unfold generate_content. run_handler.
  case_bool_decide; run_handler.
  { split; [done |]. split; [not_in_trace | auto]. }
  destruct (FirestoreService.get_user_credits (settings env) (now env) d
              (gr_user_id request)) as [user_credits |]; run_handler.
  2:{ split; [done |]. split; [not_in_trace | auto]. }
  destruct (gen_ai_credits user_credits <? _); run_handler.
  { split; [done |]. split; [not_in_trace | auto]. }
  destruct (provider_call env request) as [media_url | e]; run_handler.
  - pose proof (deduct_credits_store (now env) d (gr_user_id request) "genai"
                  (StabilityService.get_generation_cost (settings env)
                     (gr_media_type request) (gr_duration request))) as Hstore.
    destruct (FirestoreService.deduct_credits _ _ _ _ _) as [[success remaining] d1].
    run_handler. cbn [g_status g_media_url g_credits_used].
    split; [eauto |]. split; [done |].
    cbn [snd] in Hstore. destruct Hstore as [-> | [n ->]]; done.
  - cbn [g_status g_media_url g_credits_used g_error]. eauto.
Qed.

(** X19.  The generation happy path.  For a user whose document holds the
    generation balance as a number not below the cost and is a valid
    account, when the provider delivers: the answer is COMPLETED with the
    media, [credits_remaining] is the balance minus the cost, and that
    same number is the balance now stored. *)
Theorem generation_happy_path
    (env : Env) (request : GenerateRequest) (d : db)
    (data : document) (balance : Z) (user_credits : UserCredits) (media_url : string) :
  let user_id := gr_user_id request in
  let cost := StabilityService.get_generation_cost (settings env) (gr_media_type request)
                (gr_duration request) in
  users d !! user_id = Some data →
  data !! "genAICredits"%string = Some (VInt balance) →
  FirestoreService.get_user_credits (settings env) (now env) d user_id = Some user_credits →
  cost ≤ balance →
  provider_call env request = StabilityService.ApiOk media_url →
  let out := run (generate_content env request user_id) d in
  fst out = Ok {| g_request_id := request_uuid env;
                  g_status := COMPLETED;
                  g_media_url := Some media_url;
                  g_media_type := gr_media_type request;
                  g_credits_used := cost;
                  g_credits_remaining := balance - cost;
                  g_error := None |} ∧
  stored_balance (w_db (snd out)) user_id "genAICredits" = Some (balance - cost).
Proof.
  intros user_id cost Huser Hfield Hget Hcost Hprov out. subst user_id cost out.
  pose proof (get_user_credits_gen_field _ _ _ _ _ _ _ Huser Hfield Hget) as Hbal.
  simpl in Hbal. injection Hbal as Hbal.
  pose proof (deduct_sufficient (now env) d (gr_user_id request) "genai" _ data balance
                Huser Hfield Hcost) as Hded.
  unfold generate_content. run_handler.
  rewrite bool_decide_false by (intros H; by apply H). run_handler.
  rewrite Hget. run_handler.
  destruct (Z.ltb_spec (gen_ai_credits user_credits)
              (StabilityService.get_generation_cost (settings env)
                 (gr_media_type request) (gr_duration request))); [lia |].
  run_handler. rewrite Hprov. run_handler. rewrite Hded. run_handler.
  split; [done |].
  unfold stored_balance, FirestoreService.log_ai_interaction, set_users. cbn [users].
  rewrite lookup_insert_eq. cbn [mbind option_bind].
  rewrite lookup_insert_ne by done. by rewrite lookup_insert_eq.
Qed.

Lemma generation_happy_path_witness :
  let request := {| gr_user_id := "dave"; gr_prompt := "a quiet tune";
                    gr_media_type := MUSIC; gr_style := None; gr_duration := Some 45 |} in
  let out := run (generate_content Sample.env request "dave") Sample.store in
  fst out = Ok {| g_request_id := "req-1";
                  g_status := COMPLETED;
                  g_media_url := Some "https://storage/generated/1.png"%string;
                  g_media_type := MUSIC;
                  g_credits_used := 2;
                  g_credits_remaining := 25 - 2;
                  g_error := None |} ∧
  stored_balance (w_db (snd out)) "dave" "genAICredits" = Some (25 - 2).
Proof.
  apply (generation_happy_path Sample.env
           {| gr_user_id := "dave"; gr_prompt := "a quiet tune";
              gr_media_type := MUSIC; gr_style := None; gr_duration := Some 45 |}
           Sample.store Sample.dave 25
           {| uc_user_id := "dave"; chat_credits := 0; gen_ai_credits := 25;
              last_reset := 0; subscription_tier := "free" |});
    [reflexivity | reflexivity | reflexivity | simpl; lia | reflexivity].
Defined.

(** ** Interactions, rate-limit information and usage statistics *)

(** What a chat request that is answered leaves in [ai_interactions]. *)
Lemma chat_ok_interactions
    (env : Env) (chat_request : ChatRequest) (current_user : string) (d : db)
    (response : ChatResponse) :
  fst (run (chat_endpoint env chat_request current_user) d) = Ok response →
  ai_interactions (w_db (snd (run (chat_endpoint env chat_request current_user) d))) =
    ai_interactions d ++
    [ {| ia_userId := cr_user_id chat_request; ia_agentId := cr_agent_id chat_request;
         ia_type := "chat"; ia_tokensUsed := resp_tokens_used response;
         ia_creditsUsed := chat_credit_cost (settings env);
         ia_timestamp := now env |} ].
Proof.
  chat_cases env chat_request d; try discriminate.
  intros [= <-]. cbn [FirestoreService.log_ai_interaction ai_interactions resp_tokens_used].
  pose proof (deduct_credits_store (now env) d (cr_user_id chat_request) "chat"
                (chat_credit_cost (settings env))) as Hstore.
  rewrite Hdeduct in Hstore. cbn [snd] in Hstore.
  destruct Hstore as [-> | [n ->]]; done.
Qed.

(** X20.  Every answered chat request counts once in
    [get_user_rate_limit_info]: asked at a time whose window reaches back
    to the request, the count of the user is one higher than before and
    the remaining allowance is [max(0, limit - count)] for the new count,
    never negative; the information of every other user is unchanged. *)
Theorem chat_counts_in_rate_limit_info
    (env : Env) (chat_request : ChatRequest) (current_user : string) (d : db)
    (response : ChatResponse) (later window_minutes : Z) :
  let user_id := cr_user_id chat_request in
  let out := run (chat_endpoint env chat_request current_user) d in
  fst out = Ok response →
  later - window_minutes * 60 * 1000000 ≤ now env →
  let before := get_user_rate_limit_info (settings env) later d user_id window_minutes in
  let after :=
    get_user_rate_limit_info (settings env) later (w_db (snd out)) user_id window_minutes in
  rl_count after = rl_count before + 1 ∧
  rl_remaining after = Z.max 0 (rate_limit_per_minute (settings env) - rl_count before - 1) ∧
  0 ≤ rl_remaining after ∧
  (∀ other, other ≠ user_id →
     get_user_rate_limit_info (settings env) later (w_db (snd out)) other window_minutes
     = get_user_rate_limit_info (settings env) later d other window_minutes).
Proof.
  intros user_id out Hok Hwindow before after. subst user_id out before after.
  unfold get_user_rate_limit_info.
  rewrite (chat_ok_interactions env chat_request current_user d response Hok).
  cbn [rl_count rl_remaining].
  assert (Hcount : ∀ user,
    List.filter (recent_chat user (later - window_minutes * 60 * 1000000))
      (ai_interactions d ++
       [ {| ia_userId := cr_user_id chat_request; ia_agentId := cr_agent_id chat_request;
            ia_type := "chat"; ia_tokensUsed := resp_tokens_used response;
            ia_creditsUsed := chat_credit_cost (settings env);
            ia_timestamp := now env |} ])
    = List.filter (recent_chat user (later - window_minutes * 60 * 1000000))
        (ai_interactions d) ++
      (if bool_decide (cr_user_id chat_request = user)
       then [ {| ia_userId := cr_user_id chat_request;
                 ia_agentId := cr_agent_id chat_request;
                 ia_type := "chat"; ia_tokensUsed := resp_tokens_used response;
                 ia_creditsUsed := chat_credit_cost (settings env);
                 ia_timestamp := now env |} ]
       else [])).
  { intros user. rewrite List.filter_app. f_equal. unfold recent_chat. simpl.
    case_bool_decide; simpl; [| done].
    destruct (Z.leb_spec (later - window_minutes * 60 * 1000000) (now env)); [done | lia]. }
  split; [| split; [| split]].
  - rewrite Hcount, bool_decide_true by done. rewrite length_app. simpl. lia.
  - rewrite Hcount, bool_decide_true by done. rewrite length_app. simpl. f_equal. lia.
  - lia.
  - intros other Hother. rewrite Hcount, bool_decide_false by done.
    by rewrite app_nil_r.
Qed.

Lemma chat_counts_in_rate_limit_info_witness :
  let request := {| cr_user_id := "alice"; cr_agent_id := "guide"; cr_message := "hello" |} in
  let out := run (chat_endpoint Sample.env request "alice") Sample.store in
  let before := get_user_rate_limit_info default_settings 1500 Sample.store "alice" 1 in
  let after := get_user_rate_limit_info default_settings 1500 (w_db (snd out)) "alice" 1 in
  rl_count after = rl_count before + 1 ∧
  rl_remaining after = Z.max 0 (5 - rl_count before - 1) ∧
  0 ≤ rl_remaining after ∧
  (∀ other, other ≠ "alice"%string →
     get_user_rate_limit_info default_settings 1500 (w_db (snd out)) other 1
     = get_user_rate_limit_info default_settings 1500 Sample.store other 1).
Proof.
  apply (chat_counts_in_rate_limit_info Sample.env
           {| cr_user_id := "alice"; cr_agent_id := "guide"; cr_message := "hello" |}
           "alice" Sample.store
           {| resp_message := "Hello, how can I help?"; resp_agent_id := "guide";
              resp_tokens_used := 5; resp_credits_remaining := 4 |} 1500 1);
    [reflexivity | simpl; lia].
Defined.

Lemma day_of_month_pos days : 1 ≤ day_of_month days.
Proof.
  unfold day_of_month.
  set (doy := _ - (365 * _ + _ / 4 - _ / 100)). clearbody doy.
  assert ((153 * ((5 * doy + 2) / 153) + 2) / 5 < doy + 1); [| lia].
  apply Z.div_lt_upper_bound; [lia |].
  pose proof (Z.mul_div_le (5 * doy + 2) 153 ltac:(lia)). lia.
Qed.

Lemma month_start_le now : month_start now ≤ now.
Proof.
  unfold month_start, CreditManager.microseconds_per_day.
  change (86400 * 1000000) with 86400000000.
  pose proof (day_of_month_pos (now / 86400000000)).
  pose proof (Z.mul_div_le now 86400000000 ltac:(lia)). nia.
Qed.

Lemma sum_usage_app l1 l2 chat gen tokens :
  sum_usage (l1 ++ l2) chat gen tokens =
  let '(chat1, gen1, tokens1) := sum_usage l1 chat gen tokens in
  sum_usage l2 chat1 gen1 tokens1.
Proof.
  revert chat gen tokens. induction l1 as [| ia l1 IH]; intros chat gen tokens.
  - simpl. by destruct (sum_usage l2 chat gen tokens) as [[? ?] ?].
  - cbn [app sum_usage]. apply IH.
Qed.

(** X21.  Every answered chat request shows in the usage statistics of the
    month: computed at a time whose month had begun when the request was
    logged (the time of the request itself is such a time), the chat
    credits used are higher by the chat cost, the total tokens by the
    tokens of the answer, the generation credits are the same, and the
    period starts no later than it ends. *)
Theorem chat_counts_in_usage_stats
    (env : Env) (chat_request : ChatRequest) (current_user : string) (d : db)
    (response : ChatResponse) (later : Z) :
  let user_id := cr_user_id chat_request in
  let out := run (chat_endpoint env chat_request current_user) d in
  fst out = Ok response →
  month_start later ≤ now env →
  let before := get_credit_usage_stats later d user_id in
  let after := get_credit_usage_stats later (w_db (snd out)) user_id in
  chat_credits_used after = chat_credits_used before + chat_credit_cost (settings env) ∧
  total_tokens_used after = total_tokens_used before + resp_tokens_used response ∧
  gen_ai_credits_used after = gen_ai_credits_used before ∧
  period_start after ≤ period_end after ∧
  month_start (now env) ≤ now env.
Proof.
  intros user_id out Hok Hmonth before after. subst user_id out before after.
  unfold get_credit_usage_stats.
  rewrite (chat_ok_interactions env chat_request current_user d response Hok).
  rewrite List.filter_app. cbn [List.filter ia_userId ia_timestamp].
  rewrite bool_decide_true by done.
  destruct (Z.leb_spec (month_start later) (now env)) as [_ | ?]; [| lia].
  cbn [andb]. rewrite sum_usage_app.
  destruct (sum_usage (List.filter _ (ai_interactions d)) 0 0 0) as [[chat gen] tokens].
  cbn [sum_usage ia_type ia_creditsUsed ia_tokensUsed].
  rewrite bool_decide_true by done.
  cbn [chat_credits_used total_tokens_used gen_ai_credits_used period_start period_end].
  repeat split; try done; apply month_start_le.
Qed.

Lemma chat_counts_in_usage_stats_witness :
  let request := {| cr_user_id := "alice"; cr_agent_id := "guide"; cr_message := "hello" |} in
  let out := run (chat_endpoint Sample.env request "alice") Sample.store in
  let before := get_credit_usage_stats 1000 Sample.store "alice" in
  let after := get_credit_usage_stats 1000 (w_db (snd out)) "alice" in
  chat_credits_used after = chat_credits_used before + 1 ∧
  total_tokens_used after = total_tokens_used before + 5 ∧
  gen_ai_credits_used after = gen_ai_credits_used before ∧
  period_start after ≤ period_end after ∧
  month_start 1000 ≤ 1000.
Proof.
  apply (chat_counts_in_usage_stats Sample.env
           {| cr_user_id := "alice"; cr_agent_id := "guide"; cr_message := "hello" |}
           "alice" Sample.store
           {| resp_message := "Hello, how can I help?"; resp_agent_id := "guide";
              resp_tokens_used := 5; resp_credits_remaining := 4 |} 1000);
    [reflexivity | vm_compute; discriminate].
Defined.

(** ** The messages sent to the language model *)

Lemma omap_length_le {A B} (f : A → option B) (l : list A) :
  (length (omap f l) ≤ length l)%nat.
Proof.
  induction l as [| x l IH]; csimpl; [done |].
  destruct (f x); simpl; lia.
Qed.

Lemma convert_after_first (acc : list GeminiService.GeminiMessage)
    (messages : list GeminiService.BaseMessage) :
  acc ≠ [] →
  foldl GeminiService.convert_step acc messages = acc ++ omap gemini_turn messages.
Proof.
  revert acc. induction messages as [| m messages IH]; intros acc Hacc.
  - simpl. by rewrite app_nil_r.
  - cbn [foldl]. destruct m as [content | content | content]; cbn [GeminiService.convert_step].
    + destruct acc as [| a acc]; [done |]. by rewrite IH.
    + rewrite IH by (by destruct acc). cbn [omap gemini_turn]. by rewrite <- app_assoc.
    + rewrite IH by (by destruct acc). cbn [omap gemini_turn]. by rewrite <- app_assoc.
Qed.

Lemma convert_messages_equation (messages : list GeminiService.BaseMessage) :
  GeminiService._convert_messages_to_gemini_format messages =
    match messages with
    | GeminiService.SystemMessage content :: rest =>
        {| GeminiService.gm_role := "user";
           GeminiService.gm_text := "System: " +:+ content |} :: omap gemini_turn rest
    | _ => omap gemini_turn messages
    end.
Proof.
  unfold GeminiService._convert_messages_to_gemini_format.
  destruct messages as [| [c | c | c] rest]; [done | | |];
    cbn [foldl GeminiService.convert_step app]; by rewrite convert_after_first.
Qed.

(** X22.  [_convert_messages_to_gemini_format] keeps a system message only
    when it is the very first message, as a user turn that starts with
    "System: "; every later system message is dropped, and a human or
    model message is never dropped, reordered or changed.  So the result
    has at most as many turns as there were messages, and only the roles
    "user" and "model". *)
Theorem gemini_conversion_keeps_first_system_only
    (messages : list GeminiService.BaseMessage) :
  let converted := GeminiService._convert_messages_to_gemini_format messages in
  converted =
    match messages with
    | GeminiService.SystemMessage content :: rest =>
        {| GeminiService.gm_role := "user";
           GeminiService.gm_text := "System: " +:+ content |} :: omap gemini_turn rest
    | _ => omap gemini_turn messages
    end ∧
  (length converted ≤ length messages)%nat ∧
  Forall (fun m => GeminiService.gm_role m = "user"%string ∨
                   GeminiService.gm_role m = "model"%string) converted.
Proof.
  intros converted.
  assert (Hroles : ∀ l, Forall (fun m => GeminiService.gm_role m = "user"%string ∨
                                         GeminiService.gm_role m = "model"%string)
                          (omap gemini_turn l)).
  { induction l as [| [c | c | c] l IH]; simpl; try done; constructor; auto. }
  assert (Hlen : ∀ l, (length (omap gemini_turn l) ≤ length l)%nat).
  { intros l. apply omap_length_le. }
  assert (Hconv : converted =
    match messages with
    | GeminiService.SystemMessage content :: rest =>
        {| GeminiService.gm_role := "user";
           GeminiService.gm_text := "System: " +:+ content |} :: omap gemini_turn rest
    | _ => omap gemini_turn messages
    end).
  { subst converted. apply convert_messages_equation. }
  split; [done |]. rewrite Hconv.
  destruct messages as [| [c | c | c] rest]; split; try apply Hroles; try apply Hlen.
  - cbn [length]. specialize (Hlen rest). lia.
  - constructor; [by left | apply Hroles].
Qed.

Lemma context_messages_plain (context : list (gmap string string)) :
  Forall (fun m => is_Some (gemini_turn m)) (omap AgentMessages.context_message context).
Proof.
  induction context as [| ctx context IH]; csimpl; [constructor |].
  destruct (AgentMessages.context_message ctx) as [m |] eqn:Hm; [| done].
  constructor; [| done].
  revert Hm. unfold AgentMessages.context_message.
  repeat case_bool_decide; intros; simplify_eq; simpl; eauto.
Qed.

Lemma plain_turns_length (messages : list GeminiService.BaseMessage) :
  Forall (fun m => is_Some (gemini_turn m)) messages →
  length (omap gemini_turn messages) = length messages.
Proof.
  induction 1 as [| m l [t Ht] _ IH]; [done |].
  csimpl. rewrite Ht. cbn [length]. f_equal. exact IH.
Qed.

(** X23.  What the agent sends for one chat message.  The messages built by
    [process_message] (system prompt, context, the user's message) are
    converted so that the text passed to [send_message] is exactly the
    user's message, and the chat history is the system prompt as a first
    user turn followed by the context entries whose role is "user" or
    "assistant", in order; context entries with any other role are left
    out. *)
Theorem agent_sends_user_message_last
    (personality : AgentPersonality) (context : list (gmap string string))
    (user_message : string) :
  let converted :=
    GeminiService._convert_messages_to_gemini_format
      (AgentMessages.build_messages personality context user_message) in
  GeminiService.last_message converted = user_message ∧
  GeminiService.chat_history converted =
    {| GeminiService.gm_role := "user";
       GeminiService.gm_text :=
         "System: " +:+ AgentMessages._build_system_prompt personality |}
    :: omap gemini_turn (omap AgentMessages.context_message context) ∧
  length (GeminiService.chat_history converted)
    = S (length (omap AgentMessages.context_message context)).
Proof.
  intros converted.
  set (system_turn := {| GeminiService.gm_role := "user"%string;
         GeminiService.gm_text :=
           "System: " +:+ AgentMessages._build_system_prompt personality |}).
  set (turns := omap gemini_turn (omap AgentMessages.context_message context)).
  assert (Hconv : converted =
    (system_turn :: turns) ++
    [ {| GeminiService.gm_role := "user"; GeminiService.gm_text := user_message |} ]).
  { subst converted.
    rewrite convert_messages_equation.
    unfold AgentMessages.build_messages. cbn [app].
    by rewrite omap_app. }
  assert (Hturns : length turns = length (omap AgentMessages.context_message context)).
  { subst turns. apply plain_turns_length, context_messages_plain. }
  rewrite Hconv. split; [| split].
  - unfold GeminiService.last_message. by rewrite last_snoc.
  - unfold GeminiService.chat_history. rewrite length_app.
    cbn [length]. replace (1 <? S (length turns) + 1)%nat with true
      by (symmetry; apply Nat.ltb_lt; lia).
    by rewrite removelast_last.
  - unfold GeminiService.chat_history. rewrite length_app.
    cbn [length]. replace (1 <? S (length turns) + 1)%nat with true
      by (symmetry; apply Nat.ltb_lt; lia).
    rewrite removelast_last. cbn [length]. by rewrite Hturns.
Qed.

(** ** The credit guard, accounts without a reset date, overlapping additions *)

(** X24.  [require_credits] runs the guarded handler exactly when a user id
    is given, [get_user_credits] reports the account and the reported
    balance of the credit type covers the amount; the handler then starts
    from the unchanged store.  In every other case the handler is not run
    at all: the answer (401, 404 or 402) and the unchanged store are the
    same whatever the handler is. *)
Theorem require_credits_guards
    (env : Env) (credit_type : string) (amount : Z) (user_id : option string) (d : db) :
  let passes :=
    match user_id with
    | None | Some EmptyString => false
    | Some user_id =>
        match FirestoreService.get_user_credits (settings env) (now env) d user_id with
        | None => false
        | Some user_credits => negb (reported_balance user_credits credit_type <? amount)
        end
    end in
  if passes then
    ∃ user, user_id = Some user ∧
      ∀ A (func : M A),
        run (require_credits env credit_type amount user_id func) d =
        func {| w_db := d; w_trace := [EvGetUserCredits user] |}
  else
    ∃ code detail trace,
      (code = 401 ∨ code = 404 ∨ code = 402) ∧
      ∀ A (func : M A),
        run (require_credits env credit_type amount user_id func) d =
        (HTTPException code detail, {| w_db := d; w_trace := trace |}).
Proof.
  unfold require_credits.
  destruct user_id as [[| c user] |]; cbn zeta.
  - exists 401. do 2 eexists. split; [auto |]. intros A func. reflexivity.
  - destruct (FirestoreService.get_user_credits (settings env) (now env) d (String c user))
      as [user_credits |] eqn:Hget.
    + destruct (reported_balance user_credits credit_type <? amount) eqn:Hlow; cbn [negb].
      * exists 402. do 2 eexists. split; [auto |]. intros A func.
        run_handler. rewrite Hget. run_handler. rewrite Hlow. reflexivity.
      * exists (String c user). split; [done |]. intros A func.
        run_handler. rewrite Hget. run_handler. rewrite Hlow. reflexivity.
    + exists 404. do 2 eexists. split; [auto |]. intros A func.
      run_handler. rewrite Hget. reflexivity.
  - exists 401. do 2 eexists. split; [auto |]. intros A func. reflexivity.
Qed.

(** X25.  An account without a reset date is never reset.  For a user
    document that has no [lastCreditReset] field, [get_user_credits] puts
    the present time in its place, so [reset_monthly_credits] finds that no
    time has passed: it answers [False] and changes nothing, at whatever
    time it is called. *)
Theorem no_reset_without_reset_date
    (s : Settings) (now : Z) (d : db) (user_id : string) (data : document) :
  users d !! user_id = Some data →
  data !! "lastCreditReset"%string = None →
  CreditManager.reset_monthly_credits s now d user_id = (false, d).
Proof.
  intros Huser Hmiss. unfold CreditManager.reset_monthly_credits.
  destruct (FirestoreService.get_user_credits s now d user_id) as [uc |] eqn:Hget; [| done].
  assert (Hlast : last_reset uc = now).
  { revert Hget. unfold FirestoreService.get_user_credits. rewrite Huser.
    unfold dict_get at 3. rewrite Hmiss.
    repeat case_match; intros; simplify_eq/=; done. }
  rewrite Hlast.
  destruct (Z.leb_spec 30 (CreditManager.days_between now now)) as [Hdue | _]; [| done].
  apply thirty_days_elapsed in Hdue.
  unfold CreditManager.microseconds_per_day in Hdue. lia.
Qed.

Lemma no_reset_without_reset_date_witness :
  CreditManager.reset_monthly_credits default_settings
    (400 * CreditManager.microseconds_per_day) Sample.store "bob" = (false, Sample.store).
Proof.
  apply (no_reset_without_reset_date default_settings
           (400 * CreditManager.microseconds_per_day) Sample.store "bob" Sample.bob);
    reflexivity.
Defined.

Lemma add_credits_two_steps now d user_id credit_type amount reason :
  CreditManager.add_credits now d user_id credit_type amount reason =
  match add_credits_read d user_id credit_type amount with
  | None => (false, d)
  | Some new_credits =>
      (true, add_credits_write now d user_id credit_type amount reason new_credits)
  end.
Proof.
  unfold CreditManager.add_credits, add_credits_read, add_credits_write.
  by repeat case_match.
Qed.

Lemma add_credits_write_balance now d user_id credit_type amount reason new_credits data :
  users d !! user_id = Some data →
  stored_balance (add_credits_write now d user_id credit_type amount reason new_credits)
    user_id (FirestoreService.field_name credit_type) = Some new_credits.
Proof.
  intros Huser.
  unfold stored_balance, add_credits_write, CreditManager._log_credit_transaction, set_users.
  cbn [users]. rewrite lookup_alter_eq, Huser. cbn [fmap option_fmap option_map mbind option_bind].
  unfold update_fields.
  rewrite lookup_insert_ne by (apply not_eq_sym, field_name_not_stamp).
  by rewrite lookup_insert_eq.
Qed.

(** X26.  Overlapping additions lose credits.  [add_credits] reads and
    writes in two steps without a transaction.  When two calls for the
    same user and credit type both read before either writes, the balance
    afterwards is the old balance plus the amount of the call that wrote
    last only, although both additions are in [credit_transactions]; run
    one after the other, the same two calls leave the old balance plus
    both amounts. *)
Theorem overlapping_additions_lose_credits
    (now1 now2 : Z) (d : db) (user_id credit_type reason1 reason2 : string)
    (data : document) (current amount1 amount2 : Z) :
  users d !! user_id = Some data →
  data !! FirestoreService.field_name credit_type = Some (VInt current) →
  let field := FirestoreService.field_name credit_type in
  (* both calls read, then the first writes, then the second writes *)
  (∃ new1 new2,
     add_credits_read d user_id credit_type amount1 = Some new1 ∧
     add_credits_read d user_id credit_type amount2 = Some new2 ∧
     let d1 := add_credits_write now1 d user_id credit_type amount1 reason1 new1 in
     let d2 := add_credits_write now2 d1 user_id credit_type amount2 reason2 new2 in
     stored_balance d2 user_id field = Some (current + amount2) ∧
     credit_transactions d2 =
       credit_transactions d ++
       [ {| ct_userId := user_id; ct_creditType := credit_type; ct_amount := amount1;
            ct_type := "add"; ct_reason := reason1; ct_timestamp := now1 |};
         {| ct_userId := user_id; ct_creditType := credit_type; ct_amount := amount2;
            ct_type := "add"; ct_reason := reason2; ct_timestamp := now2 |} ]) ∧
  (* one call after the other *)
  (let d1 := snd (CreditManager.add_credits now1 d user_id credit_type amount1 reason1) in
   let d2 := snd (CreditManager.add_credits now2 d1 user_id credit_type amount2 reason2) in
   stored_balance d2 user_id field = Some (current + amount1 + amount2)).
Proof.
  intros Huser Hfield field. subst field.
  assert (Hread : ∀ amount,
    add_credits_read d user_id credit_type amount = Some (current + amount)).
  { intros amount. unfold add_credits_read, dict_get. by rewrite Huser, Hfield. }
  split.
  - exists (current + amount1), (current + amount2).
    split; [apply Hread |]. split; [apply Hread |]. cbn zeta. split.
    + assert (∃ data1, users (add_credits_write now1 d user_id credit_type amount1 reason1
                                 (current + amount1)) !! user_id = Some data1)
        as [data1 Hdata1].
      { unfold add_credits_write, CreditManager._log_credit_transaction, set_users.
        cbn [users]. rewrite lookup_alter_eq, Huser. by eexists. }
      by eapply add_credits_write_balance.
    + unfold add_credits_write, CreditManager._log_credit_transaction, set_users.
      cbn [credit_transactions]. by rewrite <- app_assoc.
  - cbn zeta. rewrite !add_credits_two_steps. rewrite Hread. cbn [snd].
    pose proof (add_credits_write_balance now1 d user_id credit_type amount1 reason1
                  (current + amount1) data Huser) as Hbal1.
    set (d1 := add_credits_write now1 d user_id credit_type amount1 reason1
                 (current + amount1)) in *.
    assert (∃ data1, users d1 !! user_id = Some data1 ∧
              data1 !! FirestoreService.field_name credit_type
              = Some (VInt (current + amount1))) as (data1 & Hu1 & Hf1).
    { subst d1. unfold add_credits_write, CreditManager._log_credit_transaction, set_users.
      cbn [users]. rewrite lookup_alter_eq, Huser. cbn [fmap option_fmap option_map].
      eexists. split; [done |]. unfold update_fields.
      rewrite lookup_insert_ne by (apply not_eq_sym, field_name_not_stamp).
      by rewrite lookup_insert_eq. }
    assert (Hread1 : add_credits_read d1 user_id credit_type amount2
                     = Some (current + amount1 + amount2)).
    { unfold add_credits_read, dict_get. by rewrite Hu1, Hf1. }
    rewrite Hread1. cbn [snd]. by eapply add_credits_write_balance.
Qed.

Lemma overlapping_additions_lose_credits_witness :
  let field := FirestoreService.field_name "chat" in
  (∃ new1 new2,
     add_credits_read Sample.store "alice" "chat" 10 = Some new1 ∧
     add_credits_read Sample.store "alice" "chat" 20 = Some new2 ∧
     let d1 := add_credits_write 1 Sample.store "alice" "chat" 10 "purchase" new1 in
     let d2 := add_credits_write 2 d1 "alice" "chat" 20 "purchase" new2 in
     stored_balance d2 "alice" field = Some (5 + 20) ∧
     credit_transactions d2 =
       credit_transactions Sample.store ++
       [ {| ct_userId := "alice"; ct_creditType := "chat"; ct_amount := 10;
            ct_type := "add"; ct_reason := "purchase"; ct_timestamp := 1 |};
         {| ct_userId := "alice"; ct_creditType := "chat"; ct_amount := 20;
            ct_type := "add"; ct_reason := "purchase"; ct_timestamp := 2 |} ]) ∧
  (let d1 := snd (CreditManager.add_credits 1 Sample.store "alice" "chat" 10 "purchase") in
   let d2 := snd (CreditManager.add_credits 2 d1 "alice" "chat" 20 "purchase") in
   stored_balance d2 "alice" field = Some (5 + 10 + 20)).
Proof.
  apply (overlapping_additions_lose_credits 1 2 Sample.store "alice" "chat"
           "purchase" "purchase" Sample.alice 5 10 20); reflexivity.
Defined.

(** ** Deductions given up under contention *)

Section Contended.

Import Concurrent.

Variables (max_attempts : nat) (now : Z) (user_id credit_type : string).

Local Abbreviation move := (step max_attempts now user_id credit_type 1).

Lemma step_begin (c : cstate) i attempt :
  c_requests c !! i = Some (TxnPending attempt) →
  (attempt < max_attempts)%nat →
  move c i = set_request i (TxnRead (users (c_db c) !! user_id) (c_version c) attempt) c.
Proof. intros Hi Hleft. unfold step. rewrite Hi. by rewrite bool_decide_true. Qed.

Lemma step_give_up (c : cstate) i attempt :
  c_requests c !! i = Some (TxnPending attempt) →
  ¬ (attempt < max_attempts)%nat →
  move c i = set_request i TxnFailed c.
Proof. intros Hi Hnone. unfold step. rewrite Hi. by rewrite bool_decide_false. Qed.

Lemma step_commit (c : cstate) i snapshot attempt b :
  c_requests c !! i = Some (TxnRead snapshot (c_version c) attempt) →
  holds_balance credit_type snapshot (S b) →
  move c i =
    {| c_db := FirestoreService.commit_writes user_id
                 [(FirestoreService.field_name credit_type, VInt (Z.of_nat b));
                  ("last" +:+ capitalize credit_type +:+ "CreditUsed", VTime now)] (c_db c);
       c_version := S (c_version c);
       c_requests := <[i := TxnDone (true, Z.of_nat b)]> (c_requests c) |}.
Proof.
  intros Hi Hb. unfold step. rewrite Hi.
  rewrite (update_credits_on_balance now credit_type _ _ Hb).
  by rewrite bool_decide_true.
Qed.

Lemma step_refused (c : cstate) i snapshot v attempt b :
  c_requests c !! i = Some (TxnRead snapshot v attempt) →
  holds_balance credit_type snapshot b →
  v ≠ c_version c →
  move c i = set_request i (TxnPending (S attempt)) c.
Proof.
  intros Hi Hb Hstale. unfold step. rewrite Hi.
  rewrite (update_credits_on_balance now credit_type _ _ Hb).
  destruct b; by rewrite bool_decide_false.
Qed.

Lemma run_schedule_cons i schedule (c : cstate) :
  run_schedule max_attempts now user_id credit_type 1 (i :: schedule) c
  = run_schedule max_attempts now user_id credit_type 1 schedule (move c i).
Proof. done. Qed.

(** Lookups in a list of requests changed at other places. *)
Ltac lookup_requests :=
  repeat (rewrite list_lookup_insert_ne by lia);
  try (rewrite list_lookup_insert_eq by (rewrite ?length_insert, ?length_replicate; lia)).

(** One round: the writer [S j] reads and commits, both readers are
    refused and begin again, if an attempt is left. *)
Lemma contended_round (N last j : nat) (c : cstate) :
  (j < max_attempts)%nat → (S j < last)%nat → (j < N)%nat →
  contended_invariant max_attempts user_id credit_type N last j c →
  contended_invariant max_attempts user_id credit_type N last (S j)
    (run_schedule max_attempts now user_id credit_type 1
       [S j; S j; 0; last; 0; last]%nat c).
Proof.
  intros Hj Hlast HN (Hb & Hv & Hlen & Hreaders & Hwriters & Hwaiting).
  assert (Hk : c_requests c !! S j = Some (TxnPending 0)) by (apply Hwaiting; lia).
  pose proof (Hreaders 0%nat (or_introl eq_refl)) as Hfirst.
  pose proof (Hreaders last (or_intror eq_refl)) as Hsecond.
  rewrite bool_decide_true in Hfirst, Hsecond by done.
  destruct (N - j)%nat as [| b] eqn:Hleft; [lia |].
  assert (Hb' : (N - S j)%nat = b) by lia.
  (* the writer reads and commits *)
  rewrite run_schedule_cons, (step_begin c (S j) 0%nat Hk) by lia.
  rewrite run_schedule_cons, (step_commit _ (S j) (users (c_db c) !! user_id) 0%nat b);
    [| cbn [set_request c_requests c_version]; by lookup_requests | done].
  cbn [set_request c_requests c_version c_db].
  (* both readers are refused *)
  rewrite run_schedule_cons, (step_refused _ 0%nat (users (c_db c) !! user_id) j j (S b));
    [| cbn [set_request c_requests c_version c_db]; by lookup_requests | done | cbn [set_request c_requests c_version c_db]; lia].
  cbn [set_request c_requests c_version c_db].
  rewrite run_schedule_cons, (step_refused _ last (users (c_db c) !! user_id) j j (S b));
    [| cbn [set_request c_requests c_version c_db]; by lookup_requests | done | cbn [set_request c_requests c_version c_db]; lia].
  cbn [set_request c_requests c_version c_db].
  (* and begin again or are given up *)
  destruct (decide (S j < max_attempts)%nat) as [Hmore | Hnone].
  - rewrite run_schedule_cons, (step_begin _ 0%nat (S j));
      [| cbn [set_request c_requests c_version c_db]; by lookup_requests | done].
    cbn [set_request c_requests c_version c_db].
    rewrite run_schedule_cons, (step_begin _ last (S j));
      [| cbn [set_request c_requests c_version c_db]; by lookup_requests | done].
    cbn [set_request c_requests c_version c_db].
    unfold contended_invariant, set_request.
    cbn [run_schedule foldl c_requests c_version c_db].
    rewrite Hb', Hv, bool_decide_true by done.
    split; [by eapply commit_holds_balance |]. split; [done |].
    split; [by rewrite !length_insert |]. split; [| split].
    + intros i [-> | ->]; by lookup_requests.
    + intros k Hk'. destruct (decide (k = S j)) as [-> | Hne].
      * eexists. by lookup_requests.
      * lookup_requests. apply Hwriters. lia.
    + intros k Hk'. lookup_requests. apply Hwaiting. lia.
  - rewrite run_schedule_cons, (step_give_up _ 0%nat (S j));
      [| cbn [set_request c_requests c_version c_db]; by lookup_requests | done].
    cbn [set_request c_requests c_version c_db].
    rewrite run_schedule_cons, (step_give_up _ last (S j));
      [| cbn [set_request c_requests c_version c_db]; by lookup_requests | done].
    cbn [set_request c_requests c_version c_db].
    unfold contended_invariant, set_request.
    cbn [run_schedule foldl c_requests c_version c_db].
    rewrite Hb', Hv, bool_decide_false by done.
    split; [by eapply commit_holds_balance |]. split; [done |].
    split; [by rewrite !length_insert |]. split; [| split].
    + intros i [-> | ->]; by lookup_requests.
    + intros k Hk'. destruct (decide (k = S j)) as [-> | Hne].
      * eexists. by lookup_requests.
      * lookup_requests. apply Hwriters. lia.
    + intros k Hk'. lookup_requests. apply Hwaiting. lia.
Qed.

Lemma run_schedule_app schedule1 schedule2 (c : cstate) :
  run_schedule max_attempts now user_id credit_type 1 (schedule1 ++ schedule2) c
  = run_schedule max_attempts now user_id credit_type 1 schedule2
      (run_schedule max_attempts now user_id credit_type 1 schedule1 c).
Proof. apply foldl_app. Qed.

Lemma contended_rounds (N last : nat) rounds :
  ∀ j (c : cstate),
    (j + rounds ≤ max_attempts)%nat → (j + rounds < last)%nat → (j + rounds ≤ N)%nat →
    contended_invariant max_attempts user_id credit_type N last j c →
    contended_invariant max_attempts user_id credit_type N last (j + rounds)
      (run_schedule max_attempts now user_id credit_type 1
         (flat_map (fun k => [k; k; 0; last; 0; last]%nat) (seq (S j) rounds)) c).
Proof.
  induction rounds as [| rounds IH]; intros j c Hattempts Hlast HN Hinv.
  - by rewrite Nat.add_0_r.
  - cbn [seq flat_map]. rewrite run_schedule_app.
    replace (j + S rounds)%nat with (S j + rounds)%nat by lia.
    apply IH; [lia | lia | lia |].
    apply contended_round; [lia | lia | lia | done].
Qed.

Lemma contended_start (N last : nat) (d : db) :
  (0 < max_attempts)%nat → (0 < last)%nat →
  holds_balance credit_type (users d !! user_id) N →
  contended_invariant max_attempts user_id credit_type N last 0
    (run_schedule max_attempts now user_id credit_type 1 [0; last]%nat (init d (S last))).
Proof.
  intros Hattempts Hlast Hb.
  rewrite run_schedule_cons, (step_begin _ 0%nat 0%nat);
    [| by apply lookup_replicate_2; lia | done].
  rewrite run_schedule_cons, (step_begin _ last 0%nat);
    [| cbn [set_request init c_requests c_version c_db]; lookup_requests;
       apply lookup_replicate_2; lia | done].
  unfold contended_invariant, set_request, init.
  cbn [run_schedule foldl c_requests c_version c_db].
  rewrite Nat.sub_0_r, bool_decide_true by done.
  split; [done |]. split; [done |].
  split; [by rewrite !length_insert, length_replicate |]. split; [| split].
  - intros i [-> | ->]; by lookup_requests.
  - intros k Hk. lia.
  - intros k Hk. lookup_requests. apply lookup_replicate_2. lia.
Qed.

End Contended.

(** X27.  Whatever number of attempts the transaction has, deductions can
    be given up while credits are left.  With a balance one above the
    number of attempts and one request more than the balance, let the
    first and the last request read, and let every other request commit
    between their read and their commit: all requests are completed, only
    as many as there are attempts have succeeded, none has met an empty
    balance, the first and the last are given up, and one credit is left. *)
Theorem contention_outlasts_attempts
    (max_attempts : nat) (now : Z) (d : db) (user_id credit_type : string)
    (data : document) :
  (0 < max_attempts)%nat →
  users d !! user_id = Some data →
  data !! FirestoreService.field_name credit_type
    = Some (VInt (Z.of_nat (S max_attempts))) →
  let N := S max_attempts in
  let c := Concurrent.run_schedule max_attempts now user_id credit_type 1
             (Concurrent.contended 0 N (seq 1 max_attempts))
             (Concurrent.init d (N + 1)) in
  Concurrent.all_done c = true ∧
  Concurrent.count Concurrent.is_success c = max_attempts ∧
  Concurrent.count Concurrent.is_insufficient c = 0%nat ∧
  Concurrent.count Concurrent.is_failed c = 2%nat ∧
  (Concurrent.c_requests c !! 0%nat ≫= Concurrent.answer) = Some (false, 0) ∧
  (Concurrent.c_requests c !! N ≫= Concurrent.answer) = Some (false, 0) ∧
  stored_balance (Concurrent.c_db c) user_id (FirestoreService.field_name credit_type)
    = Some 1.
Proof.
  intros Hattempts Huser Hfield N c.
  destruct (race_counts max_attempts now d user_id credit_type data N (N + 1)
              (Concurrent.contended 0 N (seq 1 max_attempts)) Huser Hfield)
    as (b & Hb & Hsum & Hrefused & _ & Hcounts).
  fold c in Hb, Hsum, Hrefused, Hcounts.
  assert (Hinv : Concurrent.contended_invariant max_attempts user_id credit_type
                   N N max_attempts c).
  { unfold c, Concurrent.contended. rewrite run_schedule_app.
    replace (N + 1)%nat with (S N) by lia.
    apply (contended_rounds max_attempts now user_id credit_type N N max_attempts 0%nat);
      [lia | unfold N; lia | unfold N; lia |].
    apply contended_start; [done | unfold N; lia |]. by exists data. }
  destruct Hinv as (Hleft & _ & Hlen & Hreaders & Hwriters & _).
  replace (N - max_attempts)%nat with 1%nat in Hleft by (unfold N; lia).
  assert (b = 1%nat) as -> by exact (holds_balance_inj credit_type _ _ _ Hb Hleft).
  pose proof (Hreaders 0%nat (or_introl eq_refl)) as Hfirst.
  pose proof (Hreaders N (or_intror eq_refl)) as Hlast.
  rewrite bool_decide_false in Hfirst, Hlast by lia.
  assert (Hdone : Concurrent.all_done c = true).
  { unfold Concurrent.all_done. apply forallb_forall. intros t Hin.
    apply list_elem_of_In, list_elem_of_lookup in Hin as [i Hi]. pose proof (lookup_lt_Some _ _ _ Hi) as Hlt. rewrite Hlen in Hlt.
    destruct (decide (i = 0%nat)) as [-> | Hne0]; [by simplify_eq |].
    destruct (decide (i = N)) as [-> | HneN]; [by simplify_eq |].
    destruct (Hwriters i ltac:(unfold N in *; lia)) as [r Hr]. by simplify_eq. }
  specialize (Hcounts Hdone).
  split; [done |].
  assert (Hnone : Concurrent.count Concurrent.is_insufficient c = 0%nat).
  { destruct (Concurrent.count Concurrent.is_insufficient c); [done |].
    specialize (Hrefused ltac:(lia)). lia. }
  split; [unfold N in *; lia |]. split; [done |].
  split; [unfold N in *; lia |].
  rewrite Hfirst, Hlast. split; [done |]. split; [done |].
  by rewrite (holds_balance_stored user_id credit_type _ _ Hb).
Qed.

Lemma contention_outlasts_attempts_witness :
  let c := Concurrent.run_schedule 4 7 "alice" "chat" 1
             (Concurrent.contended 0 5 (seq 1 4)) (Concurrent.init Sample.store (5 + 1)) in
  Concurrent.all_done c = true ∧
  Concurrent.count Concurrent.is_success c = 4%nat ∧
  Concurrent.count Concurrent.is_insufficient c = 0%nat ∧
  Concurrent.count Concurrent.is_failed c = 2%nat ∧
  (Concurrent.c_requests c !! 0%nat ≫= Concurrent.answer) = Some (false, 0) ∧
  (Concurrent.c_requests c !! 5%nat ≫= Concurrent.answer) = Some (false, 0) ∧
  stored_balance (Concurrent.c_db c) "alice" (FirestoreService.field_name "chat") = Some 1.
Proof.
  apply (contention_outlasts_attempts 4 7 Sample.store "alice" "chat" Sample.alice);
    [lia | reflexivity | reflexivity].
Defined.
